(** * PAT browser core: collector, privacy filter, encrypted store, intent analyzer

    A shallow embedding of the C++ sources under [browser/src] and the
    properties of the design document that can be settled on it.

    Conventions of the embedding:
    - [std::string] is [string]; [size_t] is [nat] (or [Z] where it is compared
      with a constant); [double] is the primitive binary64 [float];
    - an object with mutable members is a record, a non-const method is a
      function returning the new object (and the result, if any);
    - [base::Time::Now()] is an explicit argument: [now] where a method reads
      the clock once, and a sequence [clock] of readings where a loop reads it
      once in every round;
    - what belongs to Chromium's [base] library and not to this repository
      (SHA-1, the JSON reader and writer, the conversions of [base::Time]) is a
      [Variable] of a section: the theorems hold for every implementation.
      Members read before they were ever assigned (C++ leaves them
      indeterminate) are explicit arguments: [indet] for one object, and a
      sequence [unassigned] with one reading for every round of a loop that
      declares its object anew in every round. *)

From Stdlib Require Import ZArith List String Ascii Bool Lia Floats DecimalString.
From stdpp Require Import base gmap strings.
Import ListNotations.

#[local] Open Scope string_scope.
#[local] Open Scope Z_scope.
#[local] Set Warnings "-inexact-float,-register-all".
#[local] Arguments String.append : simpl nomatch.

(** ** [std::string] operations used by the sources *)

Module Str.

(** [s.substr(pos)] for [pos <= s.size()]. *)
Fixpoint drop (n : nat) (s : string) : string :=
  match n, s with
  | O, _ => s
  | S n', String _ s' => drop n' s'
  | S _, EmptyString => EmptyString
  end.

(** [s.substr(0, n)]: at most [n] characters. *)
Fixpoint take (n : nat) (s : string) : string :=
  match n, s with
  | S n', String c s' => String c (take n' s')
  | _, _ => EmptyString
  end.

(** [s.substr(pos, len)]. *)
Definition substr (s : string) (pos len : nat) : string := take len (drop pos s).

(** [s.compare(0, p.size(), p) == 0] read from the left: [p] starts [s]. *)
Fixpoint starts_with (p s : string) : bool :=
  match p, s with
  | EmptyString, _ => true
  | String a p', String b s' => Ascii.eqb a b && starts_with p' s'
  | String _ _, EmptyString => false
  end.

(** [s.find(p, 0)]: index of the first occurrence, [None] for [npos]. *)
Fixpoint find (p s : string) : option nat :=
  if starts_with p s then Some O
  else match s with
       | EmptyString => None
       | String _ s' => option_map S (find p s')
       end.

(** [s.find(p, pos)]. *)
Definition find_from (p s : string) (pos : nat) : option nat :=
  if (pos <=? String.length s)%nat
  then option_map (Nat.add pos) (find p (drop pos s))
  else None.

Definition contains (p s : string) : bool :=
  match find p s with Some _ => true | None => false end.

Definition is_upper (c : ascii) : bool :=
  let n := nat_of_ascii c in (65 <=? n)%nat && (n <=? 90)%nat.

Definition is_lower (c : ascii) : bool :=
  let n := nat_of_ascii c in (97 <=? n)%nat && (n <=? 122)%nat.

Definition is_digit (c : ascii) : bool :=
  let n := nat_of_ascii c in (48 <=? n)%nat && (n <=? 57)%nat.

(** [std::isalpha] in the "C" locale. *)
Definition isalpha (c : ascii) : bool := is_upper c || is_lower c.

Definition to_lower_char (c : ascii) : ascii :=
  if is_upper c then ascii_of_nat (nat_of_ascii c + 32) else c.

(** [base::ToLowerASCII]. *)
Fixpoint ToLowerASCII (s : string) : string :=
  match s with
  | EmptyString => EmptyString
  | String c s' => String (to_lower_char c) (ToLowerASCII s')
  end.

Definition is_empty (s : string) : bool :=
  match s with EmptyString => true | _ => false end.

End Str.

(** ** event_types.h *)

(** [enum class BrowsingEventType]. An [enum class] over [int] can hold any
    [int], and [ImportEncrypted] casts whatever integer it reads: besides the
    six enumerators (values 0 to 5) the type has the values above 5
    ([Above p] is [5 + p]) and below 0 ([Below p] is [- p]). *)
Inductive BrowsingEventType :=
| PAGE_LOAD
| PAGE_UNLOAD
| SCROLL
| CLICK
| FORM_SUBMIT
| SEARCH_QUERY
| Above (p : positive)
| Below (p : positive).

(** [static_cast<int>(t)]. *)
Definition static_cast_int (t : BrowsingEventType) : Z :=
  match t with
  | PAGE_LOAD => 0
  | PAGE_UNLOAD => 1
  | SCROLL => 2
  | CLICK => 3
  | FORM_SUBMIT => 4
  | SEARCH_QUERY => 5
  | Above p => 5 + Z.pos p
  | Below p => Z.neg p
  end.

(** [static_cast<BrowsingEventType>(n)]. *)
Definition static_cast_BrowsingEventType (n : Z) : BrowsingEventType :=
  match n with
  | 0 => PAGE_LOAD
  | 1 => PAGE_UNLOAD
  | 2 => SCROLL
  | 3 => CLICK
  | 4 => FORM_SUBMIT
  | 5 => SEARCH_QUERY
  | Z.pos q => Above (q - 5)
  | Z.neg q => Below q
  end.

(** [base::Time] and [base::TimeDelta] hold a count of microseconds. *)
Definition Time := Z.
Definition TimeDelta := Z.

(** [struct BrowsingEvent]. *)
Record BrowsingEvent := {
  type : BrowsingEventType;
  url_hash : string;
  timestamp : Time;
  duration : TimeDelta;
  scroll_depth : float;
  element_type : string;
  search_query : string;
  referrer_hash : string
}.

(** [BrowsingEvent() = default]: [type] has no initializer and is
    indeterminate; every other member has a default. *)
Definition BrowsingEvent_default (indet : BrowsingEventType) : BrowsingEvent :=
  {| type := indet; url_hash := ""; timestamp := 0; duration := 0;
     scroll_depth := 0%float; element_type := ""; search_query := "";
     referrer_hash := "" |}.

(** [BrowsingEvent(t, hash, ts)]. *)
Definition BrowsingEvent_make (t : BrowsingEventType) (hash : string) (ts : Time)
  : BrowsingEvent :=
  {| type := t; url_hash := hash; timestamp := ts; duration := 0;
     scroll_depth := 0%float; element_type := ""; search_query := "";
     referrer_hash := "" |}.

Definition set_type (t : BrowsingEventType) (e : BrowsingEvent) : BrowsingEvent :=
  {| type := t; url_hash := url_hash e; timestamp := timestamp e;
     duration := duration e; scroll_depth := scroll_depth e;
     element_type := element_type e; search_query := search_query e;
     referrer_hash := referrer_hash e |}.

Definition set_url_hash (h : string) (e : BrowsingEvent) : BrowsingEvent :=
  {| type := type e; url_hash := h; timestamp := timestamp e;
     duration := duration e; scroll_depth := scroll_depth e;
     element_type := element_type e; search_query := search_query e;
     referrer_hash := referrer_hash e |}.

Definition set_timestamp (ts : Time) (e : BrowsingEvent) : BrowsingEvent :=
  {| type := type e; url_hash := url_hash e; timestamp := ts;
     duration := duration e; scroll_depth := scroll_depth e;
     element_type := element_type e; search_query := search_query e;
     referrer_hash := referrer_hash e |}.

Definition set_duration (d : TimeDelta) (e : BrowsingEvent) : BrowsingEvent :=
  {| type := type e; url_hash := url_hash e; timestamp := timestamp e;
     duration := d; scroll_depth := scroll_depth e;
     element_type := element_type e; search_query := search_query e;
     referrer_hash := referrer_hash e |}.

Definition set_scroll_depth (x : float) (e : BrowsingEvent) : BrowsingEvent :=
  {| type := type e; url_hash := url_hash e; timestamp := timestamp e;
     duration := duration e; scroll_depth := x;
     element_type := element_type e; search_query := search_query e;
     referrer_hash := referrer_hash e |}.

Definition set_element_type (s : string) (e : BrowsingEvent) : BrowsingEvent :=
  {| type := type e; url_hash := url_hash e; timestamp := timestamp e;
     duration := duration e; scroll_depth := scroll_depth e;
     element_type := s; search_query := search_query e;
     referrer_hash := referrer_hash e |}.

Definition set_search_query (s : string) (e : BrowsingEvent) : BrowsingEvent :=
  {| type := type e; url_hash := url_hash e; timestamp := timestamp e;
     duration := duration e; scroll_depth := scroll_depth e;
     element_type := element_type e; search_query := s;
     referrer_hash := referrer_hash e |}.

(** ** [std::regex] (ECMAScript grammar) as far as [privacy_filter.cc] uses it

    The five PII patterns use word boundaries, character classes, escaped
    characters, the quantifiers [+], [?], [{n}], [{n,}] and one optional group.
    [Regex.parse] reads that fragment of the pattern syntax; [Regex.match_at]
    is the backtracking matcher (greedy quantifiers, first alternative that
    lets the rest of the pattern match), and [Regex.regex_replace] the
    left-to-right replacement of non-overlapping matches. *)

Module Regex.

(** A bracket expression: inclusive ranges of character codes. *)
Definition cls := list (nat * nat).

Inductive regex :=
| Eps
| WordB                                          (* \b *)
| Rep (c : cls) (lo : nat) (hi : option nat)     (* c{lo,hi}, greedy *)
| Opt (r : regex)                                (* (r)? , greedy *)
| Seq (r1 r2 : regex).

Definition digit : cls := [(48, 57)]%nat.
Definition single (a : ascii) : cls := [(nat_of_ascii a, nat_of_ascii a)].

(** *** Reading a pattern *)

Definition is_special (a : ascii) : bool :=
  existsb (Ascii.eqb a) (list_ascii_of_string "\[](){}+*?.|^$").

Definition digit_val (a : ascii) : option nat :=
  if Str.is_digit a then Some (nat_of_ascii a - 48)%nat else None.

(** Decimal number at the head of the input: value read so far, rest. *)
Fixpoint parse_nat (acc : nat) (s : list ascii) : nat * list ascii :=
  match s with
  | a :: s' =>
      match digit_val a with
      | Some d => parse_nat (10 * acc + d)%nat s'
      | None => (acc, s)
      end
  | [] => (acc, s)
  end.

(** The inside of [[...]], after the opening bracket. *)
Fixpoint parse_bracket (acc : cls) (s : list ascii) : option (cls * list ascii) :=
  match s with
  | [] => None
  | a :: s1 =>
      if Ascii.eqb a "]"%char then Some (rev acc, s1)
      else match s1 with
           | "-"%char :: b :: s2 =>
               if Ascii.eqb b "]"%char
               then Some (rev (single "-"%char ++ single a ++ acc)%list, s2)
               else parse_bracket ((nat_of_ascii a, nat_of_ascii b) :: acc) s2
           | _ => parse_bracket (single a ++ acc)%list s1
           end
  end.

(** A quantifier, if one follows: bounds and rest. *)
Definition parse_quant (s : list ascii) : option (nat * option nat) * list ascii :=
  match s with
  | "+"%char :: rest => (Some (1%nat, None), rest)
  | "*"%char :: rest => (Some (0%nat, None), rest)
  | "?"%char :: rest => (Some (0%nat, Some 1%nat), rest)
  | "{"%char :: rest =>
      let '(lo, r1) := parse_nat 0 rest in
      match r1 with
      | "}"%char :: r2 => (Some (lo, Some lo), r2)
      | ","%char :: "}"%char :: r2 => (Some (lo, None), r2)
      | ","%char :: r2 =>
          let '(hi, r3) := parse_nat 0 r2 in
          match r3 with
          | "}"%char :: r4 => (Some (lo, Some hi), r4)
          | _ => (None, s)
          end
      | _ => (None, s)
      end
  | _ => (None, s)
  end.

Inductive atom :=
| AClass (c : cls)
| AGroup (r : regex)
| ABound.

(** Quantifiers are supported on one-character atoms; on a group only [?]. *)
Definition quantify (a : atom) (q : option (nat * option nat)) : option regex :=
  match a, q with
  | AClass c, None => Some (Rep c 1 (Some 1%nat))
  | AClass c, Some (lo, hi) => Some (Rep c lo hi)
  | AGroup r, None => Some r
  | AGroup r, Some (O, Some 1%nat) => Some (Opt r)
  | AGroup _, Some _ => None
  | ABound, None => Some WordB
  | ABound, Some _ => None
  end.

(** A sequence of quantified atoms, up to the end or an unmatched [)]. *)
Fixpoint parse_seq (fuel : nat) (s : list ascii) : option (regex * list ascii) :=
  match fuel with
  | O => None
  | S fuel' =>
      let continue (a : atom) (rest : list ascii) :=
        let '(q, rest') := parse_quant rest in
        match quantify a q with
        | None => None
        | Some r =>
            match parse_seq fuel' rest' with
            | Some (Eps, rest'') => Some (r, rest'')
            | Some (r', rest'') => Some (Seq r r', rest'')
            | None => None
            end
        end in
      match s with
      | [] => Some (Eps, [])
      | ")"%char :: _ => Some (Eps, s)
      | "\"%char :: "b"%char :: rest => continue ABound rest
      | "\"%char :: "d"%char :: rest => continue (AClass digit) rest
      | "\"%char :: a :: rest =>
          if is_special a || Ascii.eqb a "-"%char
          then continue (AClass (single a)) rest else None
      | "["%char :: rest =>
          match parse_bracket [] rest with
          | Some (c, rest') => continue (AClass c) rest'
          | None => None
          end
      | "("%char :: rest =>
          match parse_seq fuel' rest with
          | Some (r, ")"%char :: rest') => continue (AGroup r) rest'
          | _ => None
          end
      | a :: rest =>
          if is_special a then None else continue (AClass (single a)) rest
      end
  end.

(** [std::regex re(pattern)]: [None] where the constructor would throw (or
    the pattern leaves the fragment read here). *)
Definition parse (pattern : string) : option regex :=
  let s := list_ascii_of_string pattern in
  match parse_seq (S (List.length s)) s with
  | Some (r, []) => Some r
  | _ => None
  end.

(** *** Matching *)

Definition in_range (n : nat) (r : nat * nat) : bool :=
  (fst r <=? n)%nat && (n <=? snd r)%nat.

Definition to_upper_char (c : ascii) : ascii :=
  if Str.is_lower c then ascii_of_nat (nat_of_ascii c - 32) else c.

(** Membership in a class; with [icase] a letter matches in either case. *)
Definition in_class (icase : bool) (c : cls) (a : ascii) : bool :=
  existsb (in_range (nat_of_ascii a)) c
  || (icase && (existsb (in_range (nat_of_ascii (Str.to_lower_char a))) c
                || existsb (in_range (nat_of_ascii (to_upper_char a))) c)).

(** A word character for [\b]: letter, digit or underscore. *)
Definition is_word (o : option ascii) : bool :=
  match o with
  | Some a => Str.isalpha a || Str.is_digit a || Ascii.eqb a "_"%char
  | None => false
  end.

Definition can_take (hi : option nat) : bool :=
  match hi with Some O => false | _ => true end.

(** The continuation [k] receives the character before the current
    position, the rest of the input and the number of characters matched so
    far; it answers the length of the whole match, or [None] to backtrack. *)
Definition cont := option ascii -> list ascii -> nat -> option nat.

Fixpoint rep_match (icase : bool) (c : cls) (lo : nat) (hi : option nat)
    (prev : option ascii) (s : list ascii) (n : nat) (k : cont) {struct s}
  : option nat :=
  let stop := match lo with O => k prev s n | S _ => None end in
  match s with
  | [] => stop
  | a :: s' =>
      if can_take hi && in_class icase c a
      then match rep_match icase c (Nat.pred lo) (option_map Nat.pred hi)
                   (Some a) s' (S n) k with
           | Some r => Some r
           | None => stop
           end
      else stop
  end.

Fixpoint run (icase : bool) (r : regex) (prev : option ascii) (s : list ascii)
    (n : nat) (k : cont) {struct r} : option nat :=
  match r with
  | Eps => k prev s n
  | WordB => if xorb (is_word prev) (is_word (head s)) then k prev s n else None
  | Rep c lo hi => rep_match icase c lo hi prev s n k
  | Opt r' =>
      match run icase r' prev s n k with
      | Some x => Some x
      | None => k prev s n
      end
  | Seq r1 r2 => run icase r1 prev s n (fun p' s' n' => run icase r2 p' s' n' k)
  end.

(** Length of the match of [r] that starts at the head of [s], where [prev]
    is the character before it in the subject. *)
Definition match_at (icase : bool) (r : regex) (prev : option ascii)
    (s : list ascii) : option nat :=
  run icase r prev s O (fun _ _ n => Some n).

(** [std::regex_replace(subject, re, fmt)] from the current position: [skip]
    characters still belong to the match replaced last. A search resumes
    after a match with the previous character available to [\b]. (An empty
    match inserts [fmt] and moves on by one character; none of the patterns of
    this program matches the empty string.) *)
Fixpoint replace_scan (icase : bool) (r : regex) (fmt : list ascii)
    (prev : option ascii) (s : list ascii) (skip : nat) : list ascii :=
  match s with
  | [] =>
      match skip, match_at icase r prev [] with
      | O, Some _ => fmt
      | _, _ => []
      end
  | c :: s' =>
      match skip with
      | S k => replace_scan icase r fmt (Some c) s' k
      | O =>
          match match_at icase r prev s with
          | Some (S n) => (fmt ++ replace_scan icase r fmt (Some c) s' n)%list
          | Some O => (fmt ++ c :: replace_scan icase r fmt (Some c) s' O)%list
          | None => c :: replace_scan icase r fmt (Some c) s' O
          end
      end
  end.

(** The least number of characters a match of [r] has. *)
Fixpoint min_len (r : regex) : nat :=
  match r with
  | Eps | WordB | Opt _ => O
  | Rep _ lo _ => lo
  | Seq r1 r2 => (min_len r1 + min_len r2)%nat
  end.

(** [a] belongs to one of the classes of [r]: only such characters are matched. *)
Fixpoint any_class (icase : bool) (r : regex) (a : ascii) : bool :=
  match r with
  | Eps | WordB => false
  | Rep c _ _ => in_class icase c a
  | Opt r' => any_class icase r' a
  | Seq r1 r2 => any_class icase r1 a || any_class icase r2 a
  end.

(** The character before the position behind [a]. *)
Definition prev_after (prev : option ascii) (a : list ascii) : option ascii :=
  fold_left (fun _ c => Some c) a prev.

(** No match starts at a position of [a] in the subject [a ++ rest]. *)
Fixpoint no_match_in (icase : bool) (r : regex) (prev : option ascii)
    (a rest : list ascii) : bool :=
  match a with
  | [] => true
  | c :: a' =>
      match match_at icase r prev (a ++ rest)%list with
      | None => no_match_in icase r (Some c) a' rest
      | Some _ => false
      end
  end.

(** The number of matches [replace_scan] replaces. *)
Fixpoint count_matches (icase : bool) (r : regex) (prev : option ascii)
    (s : list ascii) (skip : nat) : nat :=
  match s with
  | [] =>
      match skip, match_at icase r prev [] with
      | O, Some _ => 1
      | _, _ => 0
      end
  | c :: s' =>
      match skip with
      | S k => count_matches icase r (Some c) s' k
      | O =>
          match match_at icase r prev s with
          | Some (S n) => S (count_matches icase r (Some c) s' n)
          | Some O => S (count_matches icase r (Some c) s' O)
          | None => count_matches icase r (Some c) s' O
          end
      end
  end.

Definition regex_replace (icase : bool) (subject : string) (r : regex)
    (fmt : string) : string :=
  string_of_list_ascii
    (replace_scan icase r (list_ascii_of_string fmt) None
       (list_ascii_of_string subject) O).

End Regex.

(** ** [base::Value]: the tree the JSON reader produces and the writer takes *)

Inductive Value :=
| VNone
| VBool (b : bool)
| VInt (i : Z)
| VDouble (d : float)
| VString (s : string)
| VDict (d : list (string * Value))
| VList (l : list Value).

(** [base::Value::Dict]: keys are unique and kept in increasing order. *)
Definition Dict := list (string * Value).

Definition is_dict (v : Value) : bool :=
  match v with VDict _ => true | _ => false end.

Definition is_list (v : Value) : bool :=
  match v with VList _ => true | _ => false end.

(** [Dict::Set(key, value)]: replaces the entry of [key] or inserts it in order. *)
Fixpoint Dict_Set (key : string) (v : Value) (d : Dict) : Dict :=
  match d with
  | [] => [(key, v)]
  | (k, w) :: d' =>
      match String.compare key k with
      | Eq => (k, v) :: d'
      | Lt => (key, v) :: d
      | Gt => (k, w) :: Dict_Set key v d'
      end
  end.

(** [Dict::Find(key)]. *)
Fixpoint Dict_Find (key : string) (d : Dict) : option Value :=
  match d with
  | [] => None
  | (k, w) :: d' => if String.eqb key k then Some w else Dict_Find key d'
  end.

(** [static_cast<double>(int)]. *)
Definition double_of_int (i : Z) : float :=
  if i <? 0 then PrimFloat.opp (PrimFloat.of_uint63 (Uint63.of_Z (- i)))
  else PrimFloat.of_uint63 (Uint63.of_Z i).

(** [Dict::FindInt]: only an integer value. *)
Definition FindInt (key : string) (d : Dict) : option Z :=
  match Dict_Find key d with Some (VInt i) => Some i | _ => None end.

(** [Dict::FindDouble]: a double, or an integer converted to one. *)
Definition FindDouble (key : string) (d : Dict) : option float :=
  match Dict_Find key d with
  | Some (VDouble x) => Some x
  | Some (VInt i) => Some (double_of_int i)
  | _ => None
  end.

(** [Dict::FindString]. *)
Definition FindString (key : string) (d : Dict) : option string :=
  match Dict_Find key d with Some (VString s) => Some s | _ => None end.

(** The double quote and the line feed, for texts that contain them. *)
Definition dq : string := String (ascii_of_nat 34) "".
Definition lf : string := String (ascii_of_nat 10) "".

(** ** privacy_filter.h, privacy_filter.cc *)

(** [class PrivacyFilter]: the data members with their default initializers. *)
Record PrivacyFilter := {
  user_excluded_domains_ : gset string;
  exclude_banking_ : bool;
  exclude_healthcare_ : bool;
  exclude_social_media_ : bool
}.

(** [PrivacyFilter::PrivacyFilter()]; [LoadSettings] only logs. *)
Definition PrivacyFilter_new : PrivacyFilter :=
  {| user_excluded_domains_ := ∅; exclude_banking_ := true;
     exclude_healthcare_ := true; exclude_social_media_ := false |}.

Definition kBankingDomains : list string :=
  [ "bank"; "chase"; "wellsfargo"; "bankofamerica"; "citi"; "capitalone";
    "usbank"; "pnc"; "ally"; "schwab"; "fidelity"; "vanguard"; "etrade";
    "tdameritrade"; "robinhood"; "coinbase"; "kraken"; "binance"; "paypal";
    "venmo"; "zelle"; "stripe"; "square" ].

Definition kHealthcareDomains : list string :=
  [ "health"; "medical"; "hospital"; "clinic"; "doctor"; "patient";
    "pharmacy"; "cvs"; "walgreens"; "medicare"; "medicaid"; "anthem";
    "bluecross"; "aetna"; "cigna"; "unitedhealth"; "kaiser"; "webmd";
    "mayoclinic"; "clevelandclinic"; "zocdoc" ].

Definition kSocialMediaDomains : list string :=
  [ "facebook"; "instagram"; "twitter"; "x.com"; "tiktok"; "snapchat";
    "linkedin"; "reddit"; "pinterest"; "tumblr"; "discord"; "telegram";
    "whatsapp"; "messenger"; "threads" ].

Definition kPiiPatterns : list string :=
  [ "\b[A-Za-z0-9._%+-]+@[A-Za-z0-9.-]+\.[A-Z|a-z]{2,}\b";  (* Email *)
    "\b\d{3}[-.]?\d{3}[-.]?\d{4}\b";                        (* Phone number *)
    "\b\d{3}[-]?\d{2}[-]?\d{4}\b";                          (* SSN *)
    "\b\d{16}\b";                                           (* Credit card *)
    "\b\d{5}(-\d{4})?\b" ].                                 (* ZIP code *)

Definition kRedacted : string := "[REDACTED]".

(** [GURL], as far as the program looks at it. *)
Record GURL := {
  is_valid : bool;
  host : string;
  spec : string
}.

(** The body shared by [IsBankingSite], [IsHealthcareSite] and
    [IsSocialMediaSite]: the lower-cased domain contains one of the patterns. *)
Definition matches_any (patterns : list string) (domain : string) : bool :=
  let lower_domain := Str.ToLowerASCII domain in
  existsb (fun pattern => Str.contains pattern lower_domain) patterns.

Definition IsBankingSite (domain : string) : bool :=
  matches_any kBankingDomains domain.

Definition IsHealthcareSite (domain : string) : bool :=
  matches_any kHealthcareDomains domain.

Definition IsSocialMediaSite (domain : string) : bool :=
  matches_any kSocialMediaDomains domain.

Definition IsCategoryExcluded (f : PrivacyFilter) (domain : string) : bool :=
  if exclude_banking_ f && IsBankingSite domain then true
  else if exclude_healthcare_ f && IsHealthcareSite domain then true
  else if exclude_social_media_ f && IsSocialMediaSite domain then true
  else false.

(** The test of one set element in the loop of [IsUserExcluded]. *)
Definition is_subdomain_of (domain excluded : string) : bool :=
  if (String.length excluded <? String.length domain)%nat
  then
    let suffix := "." ++ excluded in
    String.eqb
      (Str.substr domain (String.length domain - String.length suffix)
         (String.length suffix))
      suffix
  else false.

Definition IsUserExcluded (f : PrivacyFilter) (domain : string) : bool :=
  if bool_decide (domain ∈ user_excluded_domains_ f) then true
  else existsb (is_subdomain_of domain) (elements (user_excluded_domains_ f)).

Definition IsExcluded (f : PrivacyFilter) (url : GURL) : bool :=
  if negb (is_valid url) then true
  else
    let domain := host url in
    if IsUserExcluded f domain then true
    else if IsCategoryExcluded f domain then true
    else false.

Definition with_domains (d : gset string) (f : PrivacyFilter) : PrivacyFilter :=
  {| user_excluded_domains_ := d; exclude_banking_ := exclude_banking_ f;
     exclude_healthcare_ := exclude_healthcare_ f;
     exclude_social_media_ := exclude_social_media_ f |}.

Definition AddExcludedDomain (domain : string) (f : PrivacyFilter) : PrivacyFilter :=
  let normalized := Str.ToLowerASCII domain in
  with_domains ({[ normalized ]} ∪ user_excluded_domains_ f) f.

Definition RemoveExcludedDomain (domain : string) (f : PrivacyFilter) : PrivacyFilter :=
  let normalized := Str.ToLowerASCII domain in
  with_domains (user_excluded_domains_ f ∖ {[ normalized ]}) f.

Definition SetBankingExcluded (excluded : bool) (f : PrivacyFilter) : PrivacyFilter :=
  {| user_excluded_domains_ := user_excluded_domains_ f;
     exclude_banking_ := excluded;
     exclude_healthcare_ := exclude_healthcare_ f;
     exclude_social_media_ := exclude_social_media_ f |}.

Definition SetHealthcareExcluded (excluded : bool) (f : PrivacyFilter) : PrivacyFilter :=
  {| user_excluded_domains_ := user_excluded_domains_ f;
     exclude_banking_ := exclude_banking_ f;
     exclude_healthcare_ := excluded;
     exclude_social_media_ := exclude_social_media_ f |}.

Definition SetSocialMediaExcluded (excluded : bool) (f : PrivacyFilter) : PrivacyFilter :=
  {| user_excluded_domains_ := user_excluded_domains_ f;
     exclude_banking_ := exclude_banking_ f;
     exclude_healthcare_ := exclude_healthcare_ f;
     exclude_social_media_ := excluded |}.

(** The loop of [SanitizeElementSelector]: the leading alphabetic characters. *)
Fixpoint leading_alpha (selector : string) : string :=
  match selector with
  | String c rest => if Str.isalpha c then String c (leading_alpha rest) else ""
  | EmptyString => ""
  end.

Definition SanitizeElementSelector (selector : string) : string :=
  let result := leading_alpha selector in
  if Str.is_empty result then "unknown" else Str.ToLowerASCII result.

(** One round of the first loop of [SanitizeSearchQuery]. *)
Definition redact_pattern (result pattern : string) : string :=
  match Regex.parse pattern with
  | Some re => Regex.regex_replace true result re kRedacted
  | None => result
  end.

(** The counting loop of [SanitizeSearchQuery]:
    [while ((pos = result.find("[REDACTED]", pos)) != npos) { count++; pos += 10; }]
    Each round moves [pos] forward, so [S (length result)] rounds are enough. *)
Fixpoint count_redacted (fuel : nat) (result : string) (pos redacted_count : nat)
  : nat :=
  match fuel with
  | O => redacted_count
  | S fuel' =>
      match Str.find_from kRedacted result pos with
      | Some p => count_redacted fuel' result (p + 10) (S redacted_count)
      | None => redacted_count
      end
  end.

Definition SanitizeSearchQuery (query : string) : string :=
  let result := fold_left redact_pattern kPiiPatterns query in
  if Str.contains kRedacted result
  then
    let redacted_count :=
      count_redacted (S (String.length result)) result 0 0 in
    if (2 <? redacted_count)%nat then "" else result
  else result.

(** ** A reference JSON codec

    [base::JSONWriter] and [base::JSONReader] are not part of this repository:
    the model takes them as parameters. The small codec below stands for them
    in the closed examples only (it writes the compact form and reads numbers
    without exponent); no theorem about the program depends on it. *)

Module Json.

Definition dqc : ascii := ascii_of_nat 34.
Definition bsc : ascii := ascii_of_nat 92.

Definition string_of_Z (z : Z) : string := NilZero.string_of_int (Z.to_int z).

(** The integer a double is equal to, if it is one. *)
Definition float_to_Z (d : float) : option Z :=
  match Prim2SF d with
  | S754_zero _ => Some 0
  | S754_finite sg m e =>
      let z := if sg then Z.neg m else Z.pos m in
      if 0 <=? e then Some (z * 2 ^ e)
      else if Z.pos m mod 2 ^ (- e) =? 0 then Some (z / 2 ^ (- e)) else None
  | _ => None
  end.

(** The integer part of a finite double (rounding toward zero). *)
Definition float_trunc (d : float) : Z :=
  match Prim2SF d with
  | S754_finite sg m e =>
      let z := if sg then Z.neg m else Z.pos m in
      if 0 <=? e then z * 2 ^ e else Z.quot z (2 ^ (- e))
  | _ => 0
  end.

Definition float_of_Z (z : Z) : float := double_of_int z.

Fixpoint zeros (n : nat) : string :=
  match n with O => "" | S n' => String "0" (zeros n') end.

(** [z / 10^k] written in decimal with [k] digits after the point. *)
Definition write_scaled (z : Z) (k : nat) : string :=
  let digits := string_of_Z (Z.abs z) in
  let padded := zeros (S k - String.length digits) ++ digits in
  let n := (String.length padded - k)%nat in
  (if z <? 0 then "-" else "") ++ Str.take n padded ++ "." ++ Str.drop n padded.

(** The least [k <= k + fuel] for which [d * 10^k] is an integer. *)
Fixpoint write_double_from (fuel k : nat) (d : float) : string :=
  match float_to_Z (d * float_of_Z (10 ^ Z.of_nat k))%float with
  | Some z => write_scaled z k
  | None =>
      match fuel with
      | O => "null"
      | S fuel' => write_double_from fuel' (S k) d
      end
  end.

Definition write_double (d : float) : string := write_double_from 17 1 d.

Fixpoint escape (s : string) : string :=
  match s with
  | EmptyString => ""
  | String c s' =>
      if Ascii.eqb c dqc || Ascii.eqb c bsc
      then String bsc (String c (escape s'))
      else String c (escape s')
  end.

Definition write_string (s : string) : string := dq ++ escape s ++ dq.

(** The compact text of a value. *)
Fixpoint write (v : Value) : string :=
  match v with
  | VNone => "null"
  | VBool true => "true"
  | VBool false => "false"
  | VInt i => string_of_Z i
  | VDouble d => write_double d
  | VString s => write_string s
  | VDict d =>
      "{" ++
      (fix members (d : list (string * Value)) : string :=
         match d with
         | [] => ""
         | (k, x) :: d' =>
             write_string k ++ ":" ++ write x ++
             match d' with [] => "" | _ => "," ++ members d' end
         end) d ++ "}"
  | VList l =>
      "[" ++
      (fix elems (l : list Value) : string :=
         match l with
         | [] => ""
         | x :: l' =>
             write x ++ match l' with [] => "" | _ => "," ++ elems l' end
         end) l ++ "]"
  end.

Definition is_ws (c : ascii) : bool :=
  let n := nat_of_ascii c in
  (n =? 32)%nat || (n =? 9)%nat || (n =? 10)%nat || (n =? 13)%nat.

Fixpoint skip_ws (s : list ascii) : list ascii :=
  match s with
  | c :: s' => if is_ws c then skip_ws s' else s
  | [] => []
  end.

(** Digits at the head of the input: value, number of digits, rest. *)
Fixpoint read_digits (acc : Z) (n : nat) (s : list ascii) : Z * nat * list ascii :=
  match s with
  | c :: s' =>
      if Str.is_digit c
      then read_digits (10 * acc + Z.of_nat (nat_of_ascii c - 48)) (S n) s'
      else (acc, n, s)
  | [] => (acc, n, s)
  end.

(** A number: an integer that fits [int] is a [VInt], anything else a double. *)
Definition read_number (s : list ascii) : option (Value * list ascii) :=
  let '(neg, s1) :=
    match s with "-"%char :: r => (true, r) | _ => (false, s) end in
  let '(ip, n, s2) := read_digits 0 0 s1 in
  let sign (z : Z) := if neg then - z else z in
  match n with
  | O => None
  | S _ =>
      match s2 with
      | "."%char :: s3 =>
          let '(all, k, s4) := read_digits ip 0 s3 in
          match k with
          | O => None
          | S _ =>
              let x := (float_of_Z all / float_of_Z (10 ^ Z.of_nat k))%float in
              Some (VDouble (if neg then PrimFloat.opp x else x), s4)
          end
      | _ =>
          if ip <? 2 ^ 31 then Some (VInt (sign ip), s2)
          else Some (VDouble (float_of_Z (sign ip)), s2)
      end
  end.

(** The inside of a string literal, after the opening quote. *)
Fixpoint read_string (acc : list ascii) (s : list ascii)
  : option (string * list ascii) :=
  match s with
  | [] => None
  | c :: s' =>
      if Ascii.eqb c dqc then Some (string_of_list_ascii (rev acc), s')
      else if Ascii.eqb c bsc then
        match s' with
        | e :: s'' =>
            if Ascii.eqb e dqc || Ascii.eqb e bsc || Ascii.eqb e "/"%char
            then read_string (e :: acc) s''
            else if Ascii.eqb e "n"%char
            then read_string (ascii_of_nat 10 :: acc) s''
            else if Ascii.eqb e "t"%char
            then read_string (ascii_of_nat 9 :: acc) s''
            else None
        | [] => None
        end
      else read_string (c :: acc) s'
  end.

Fixpoint read_value (fuel : nat) (s : list ascii) : option (Value * list ascii) :=
  match fuel with
  | O => None
  | S fuel' =>
      match skip_ws s with
      | "n"%char :: "u"%char :: "l"%char :: "l"%char :: r => Some (VNone, r)
      | "t"%char :: "r"%char :: "u"%char :: "e"%char :: r => Some (VBool true, r)
      | "f"%char :: "a"%char :: "l"%char :: "s"%char :: "e"%char :: r =>
          Some (VBool false, r)
      | "["%char :: r =>
          match skip_ws r with
          | "]"%char :: r' => Some (VList [], r')
          | r' =>
              match read_elems fuel' [] r' with
              | Some (l, r'') => Some (VList l, r'')
              | None => None
              end
          end
      | "{"%char :: r =>
          match skip_ws r with
          | "}"%char :: r' => Some (VDict [], r')
          | r' =>
              match read_members fuel' [] r' with
              | Some (d, r'') => Some (VDict d, r'')
              | None => None
              end
          end
      | c :: r =>
          if Ascii.eqb c dqc
          then match read_string [] r with
               | Some (str, r') => Some (VString str, r')
               | None => None
               end
          else read_number (c :: r)
      | [] => None
      end
  end

with read_elems (fuel : nat) (acc : list Value) (s : list ascii)
  : option (list Value * list ascii) :=
  match fuel with
  | O => None
  | S fuel' =>
      match read_value fuel' s with
      | Some (v, r) =>
          match skip_ws r with
          | ","%char :: r' => read_elems fuel' (v :: acc) r'
          | "]"%char :: r' => Some (rev (v :: acc), r')
          | _ => None
          end
      | None => None
      end
  end

with read_members (fuel : nat) (acc : Dict) (s : list ascii)
  : option (Dict * list ascii) :=
  match fuel with
  | O => None
  | S fuel' =>
      match skip_ws s with
      | c :: r =>
          if Ascii.eqb c dqc
          then
            match read_string [] r with
            | Some (key, r1) =>
                match skip_ws r1 with
                | ":"%char :: r2 =>
                    match read_value fuel' r2 with
                    | Some (v, r3) =>
                        match skip_ws r3 with
                        | ","%char :: r4 =>
                            read_members fuel' (Dict_Set key v acc) r4
                        | "}"%char :: r4 => Some (Dict_Set key v acc, r4)
                        | _ => None
                        end
                    | None => None
                    end
                | _ => None
                end
            | None => None
            end
          else None
      | [] => None
      end
  end.

(** The value a text denotes; [None] unless the whole text is one value. *)
Definition read (text : string) : option Value :=
  let s := list_ascii_of_string text in
  match read_value (S (List.length s)) s with
  | Some (v, r) => match skip_ws r with [] => Some v | _ => None end
  | None => None
  end.

(** [base::Time] counts from 1601-01-01; the Unix epoch in that scale. *)
Definition kTimeTToMicrosecondsOffset : Z := 11644473600000000.

Definition InMillisecondsFSinceUnixEpoch (t : Time) : float :=
  (float_of_Z (t - kTimeTToMicrosecondsOffset) / 1000)%float.

Definition FromMillisecondsSinceUnixEpoch (ms : float) : Time :=
  float_trunc (ms * 1000)%float + kTimeTToMicrosecondsOffset.

Definition Milliseconds (ms : float) : TimeDelta := float_trunc (ms * 1000)%float.

Definition Value_of_int64 (n : Z) : Value := VDouble (float_of_Z n).

End Json.

(** ** intent_analyzer.h: the data types *)

Inductive IntentType :=
| PURCHASE_INTENT
| RESEARCH_INTENT
| COMPARISON_INTENT
| ENGAGEMENT_INTENT
| NAVIGATION_INTENT.

Inductive ConfidenceLevel :=
| LOW
| MEDIUM
| HIGH.

Module Signal.

(** [struct IntentSignal]. *)
Record IntentSignal := {
  type : IntentType;
  confidence : ConfidenceLevel;
  confidence_score : float;
  category : string;
  detected_at : Time;
  time_window : TimeDelta;
  event_count : Z
}.

Definition set_type (t : IntentType) (s : IntentSignal) : IntentSignal :=
  {| type := t; confidence := confidence s;
     confidence_score := confidence_score s; category := category s;
     detected_at := detected_at s; time_window := time_window s;
     event_count := event_count s |}.

Definition set_confidence (l : ConfidenceLevel) (s : IntentSignal) : IntentSignal :=
  {| type := type s; confidence := l;
     confidence_score := confidence_score s; category := category s;
     detected_at := detected_at s; time_window := time_window s;
     event_count := event_count s |}.

Definition set_confidence_score (x : float) (s : IntentSignal) : IntentSignal :=
  {| type := type s; confidence := confidence s;
     confidence_score := x; category := category s;
     detected_at := detected_at s; time_window := time_window s;
     event_count := event_count s |}.

Definition set_category (c : string) (s : IntentSignal) : IntentSignal :=
  {| type := type s; confidence := confidence s;
     confidence_score := confidence_score s; category := c;
     detected_at := detected_at s; time_window := time_window s;
     event_count := event_count s |}.

Definition set_detected_at (t : Time) (s : IntentSignal) : IntentSignal :=
  {| type := type s; confidence := confidence s;
     confidence_score := confidence_score s; category := category s;
     detected_at := t; time_window := time_window s;
     event_count := event_count s |}.

End Signal.

Import Signal(IntentSignal).

(** What [IntentSignal signal;] leaves indeterminate: the three members
    without a default initializer. *)
Record Indeterminate := {
  indet_type : IntentType;
  indet_confidence : ConfidenceLevel;
  indet_score : float
}.

(** [IntentSignal signal;] *)
Definition IntentSignal_default (indet : Indeterminate) : IntentSignal :=
  {| Signal.type := indet_type indet;
     Signal.confidence := indet_confidence indet;
     Signal.confidence_score := indet_score indet;
     Signal.category := "";
     Signal.detected_at := 0;
     Signal.time_window := 0;
     Signal.event_count := 0 |}.

(** ** encrypted_store.h: the data members *)

Record EncryptedStore := {
  events_ : list BrowsingEvent;
  encryption_key_ : string;
  storage_path_ : string
}.

Definition kMaxCachedEvents : Z := 10000.

(** [EncryptedStore::EncryptedStore()]. *)
Definition EncryptedStore_new : EncryptedStore :=
  {| events_ := []; encryption_key_ := "";
     storage_path_ := "pat_browsing_data.enc" |}.

Definition with_events (l : list BrowsingEvent) (s : EncryptedStore)
  : EncryptedStore :=
  {| events_ := l; encryption_key_ := encryption_key_ s;
     storage_path_ := storage_path_ s |}.

(** [Initialize(key)]: the result and the store. *)
Definition Initialize (key : string) (s : EncryptedStore) : bool * EncryptedStore :=
  if (String.length key <? 16)%nat then (false, s)
  else (true, {| events_ := events_ s; encryption_key_ := key;
                 storage_path_ := storage_path_ s |}).

(** [events_.size()]. *)
Definition GetEventCount (s : EncryptedStore) : Z :=
  Z.of_nat (List.length (events_ s)).

(** [events_.push_back(event); if (events_.size() > kMaxCachedEvents)
    events_.erase(events_.begin());] *)
Definition StoreEvent (event : BrowsingEvent) (s : EncryptedStore) : EncryptedStore :=
  let pushed := (events_ s ++ [event])%list in
  if kMaxCachedEvents <? Z.of_nat (List.length pushed)
  then with_events (tl pushed) s
  else with_events pushed s.

Definition GetAllEvents (s : EncryptedStore) : list BrowsingEvent := events_ s.


Definition ClearAll (s : EncryptedStore) : EncryptedStore := with_events [] s.

Definition GetStorageSizeBytes (s : EncryptedStore) : Z :=
  Z.of_nat (List.length (events_ s)) * 200.

Definition kEncryptedPrefix : string := "[ENCRYPTED]".

Definition Encrypt (s : EncryptedStore) (plaintext : string) : string :=
  if Str.is_empty (encryption_key_ s) then plaintext
  else kEncryptedPrefix ++ plaintext.

Definition Decrypt (s : EncryptedStore) (ciphertext : string) : string :=
  if Str.is_empty (encryption_key_ s) then ciphertext
  else
    let prefix := kEncryptedPrefix in
    if String.eqb (Str.substr ciphertext 0 (String.length prefix)) prefix
    then Str.drop (String.length prefix) ciphertext
    else ciphertext.

(** ** qwen_client.cc *)

(** The sample response the placeholder [QwenClient::Infer] returns. *)
Definition kSampleResponse : string :=
  "[" ++ lf ++
  "    {" ++ dq ++ "type" ++ dq ++ ": " ++ dq ++ "RESEARCH_INTENT" ++ dq ++
  ", " ++ dq ++ "confidence" ++ dq ++ ": 0.75, " ++ dq ++ "category" ++ dq ++
  ": " ++ dq ++ "technology" ++ dq ++ "}," ++ lf ++
  "    {" ++ dq ++ "type" ++ dq ++ ": " ++ dq ++ "COMPARISON_INTENT" ++ dq ++
  ", " ++ dq ++ "confidence" ++ dq ++ ": 0.60, " ++ dq ++ "category" ++ dq ++
  ": " ++ dq ++ "electronics" ++ dq ++ "}" ++ lf ++
  "  ]".

(** A model handle is an opaque pointer; [None] is [nullptr]. *)
Definition Handle := option Z.

(** [QwenClient::Infer] as the repository ships it. *)
Definition QwenClient_Infer (handle : Handle) (prompt : string) : string :=
  match handle with
  | None => "[]"
  | Some _ => kSampleResponse
  end.

(** ** collector and analyzer state *)

Record IntentAnalyzer := {
  model_handle_ : Handle;
  is_ready_ : bool;
  cached_intents_ : list IntentSignal;
  min_confidence_ : float;
  analysis_interval_ : TimeDelta
}.

(** [IntentAnalyzer::IntentAnalyzer() = default], five minutes in microseconds. *)
Definition IntentAnalyzer_new : IntentAnalyzer :=
  {| model_handle_ := None; is_ready_ := false; cached_intents_ := [];
     min_confidence_ := 0.5%float; analysis_interval_ := 300000000 |}.

Definition with_cached (l : list IntentSignal) (a : IntentAnalyzer) : IntentAnalyzer :=
  {| model_handle_ := model_handle_ a; is_ready_ := is_ready_ a;
     cached_intents_ := l; min_confidence_ := min_confidence_ a;
     analysis_interval_ := analysis_interval_ a |}.

Definition IsReady (a : IntentAnalyzer) : bool :=
  is_ready_ a && match model_handle_ a with Some _ => true | None => false end.



Definition GetLatestIntents (a : IntentAnalyzer) : list IntentSignal :=
  cached_intents_ a.

Definition ClearIntents (a : IntentAnalyzer) : IntentAnalyzer := with_cached [] a.

(** [content::WebContents*]: [None] is the null pointer; of a web contents
    only [GetBrowserContext()->IsOffTheRecord()] is read. *)
Record WebContents := { IsOffTheRecord : bool }.

Record BrowsingDataCollector := {
  privacy_filter_ : PrivacyFilter;
  local_store_ : EncryptedStore;
  current_scroll_depth_ : float;
  collection_enabled_ : bool
}.

(** [BrowsingDataCollector::BrowsingDataCollector()]. *)
Definition BrowsingDataCollector_new : BrowsingDataCollector :=
  {| privacy_filter_ := PrivacyFilter_new; local_store_ := EncryptedStore_new;
     current_scroll_depth_ := 0%float; collection_enabled_ := true |}.

Definition with_store (s : EncryptedStore) (c : BrowsingDataCollector)
  : BrowsingDataCollector :=
  {| privacy_filter_ := privacy_filter_ c; local_store_ := s;
     current_scroll_depth_ := current_scroll_depth_ c;
     collection_enabled_ := collection_enabled_ c |}.

Definition with_scroll_depth (x : float) (c : BrowsingDataCollector)
  : BrowsingDataCollector :=
  {| privacy_filter_ := privacy_filter_ c; local_store_ := local_store_ c;
     current_scroll_depth_ := x;
     collection_enabled_ := collection_enabled_ c |}.

Definition with_filter (f : PrivacyFilter) (c : BrowsingDataCollector)
  : BrowsingDataCollector :=
  {| privacy_filter_ := f; local_store_ := local_store_ c;
     current_scroll_depth_ := current_scroll_depth_ c;
     collection_enabled_ := collection_enabled_ c |}.

Definition IsCollectionEnabled (c : BrowsingDataCollector) : bool :=
  collection_enabled_ c.

Definition SetCollectionEnabled (enabled : bool) (c : BrowsingDataCollector)
  : BrowsingDataCollector :=
  {| privacy_filter_ := privacy_filter_ c; local_store_ := local_store_ c;
     current_scroll_depth_ := current_scroll_depth_ c;
     collection_enabled_ := enabled |}.

Definition IsIncognito (contents : option WebContents) : bool :=
  match contents with
  | None => false
  | Some wc => IsOffTheRecord wc
  end.

Definition IsExcludedSite (c : BrowsingDataCollector) (url : GURL) : bool :=
  IsExcluded (privacy_filter_ c) url.

Definition AddExcludedSite (domain : string) (c : BrowsingDataCollector)
  : BrowsingDataCollector :=
  with_filter (AddExcludedDomain domain (privacy_filter_ c)) c.

Definition RemoveExcludedSite (domain : string) (c : BrowsingDataCollector)
  : BrowsingDataCollector :=
  with_filter (RemoveExcludedDomain domain (privacy_filter_ c)) c.

Definition GetCollectedEvents (c : BrowsingDataCollector) : list BrowsingEvent :=
  GetAllEvents (local_store_ c).

Definition ClearAllData (c : BrowsingDataCollector) : BrowsingDataCollector :=
  with_scroll_depth 0%float (with_store (ClearAll (local_store_ c)) c).

(** [snprintf(buf, sizeof(buf), "%02x", c)]. *)
Definition hex_digit (n : nat) : ascii :=
  if (n <? 10)%nat then ascii_of_nat (48 + n) else ascii_of_nat (87 + n).

Fixpoint hex_string (s : string) : string :=
  match s with
  | EmptyString => ""
  | String c s' =>
      let n := nat_of_ascii c in
      String (hex_digit (n / 16)) (String (hex_digit (n mod 16)) (hex_string s'))
  end.

(** ** Data for the closed examples *)

Definition sample_key : string := "0123456789abcdef".

Definition sample_events : list BrowsingEvent :=
  [ {| type := PAGE_UNLOAD; url_hash := "da39a3ee5e6b4b0d3255bfef95601890afd80709";
       timestamp := 13344473600123000; duration := 42000000;
       scroll_depth := 0.75%float; element_type := ""; search_query := "";
       referrer_hash := "" |};
    {| type := SEARCH_QUERY; url_hash := "";
       timestamp := 13344473601000000; duration := 0;
       scroll_depth := 0%float; element_type := "";
       search_query := "call [REDACTED] now"; referrer_hash := "" |};
    {| type := CLICK; url_hash := "";
       timestamp := 13344473602500000; duration := 0;
       scroll_depth := 0%float; element_type := "button"; search_query := "";
       referrer_hash := "" |} ].

(** A store with a key and three events. *)
Definition sample_store : EncryptedStore :=
  {| events_ := sample_events; encryption_key_ := sample_key;
     storage_path_ := "pat_browsing_data.enc" |}.

(** A new store (no key) that holds exactly 10,000 events. *)
Definition full_store : EncryptedStore :=
  with_events
    (repeat (BrowsingEvent_make PAGE_LOAD "" 0) (Z.to_nat kMaxCachedEvents))
    EncryptedStore_new.

(** The text [[{"type": "PURCHASE_INTENT", "category": "shoes"}]]: a model
    response whose only record has no confidence. *)
Definition response_without_confidence : string :=
  "[{" ++ dq ++ "type" ++ dq ++ ": " ++ dq ++ "PURCHASE_INTENT" ++ dq ++ ", " ++
  dq ++ "category" ++ dq ++ ": " ++ dq ++ "shoes" ++ dq ++ "}]".

(** The text [[{"type": 3, "element_type": "a"}, 7, {}]]. *)
Definition import_payload : string :=
  "[{" ++ dq ++ "type" ++ dq ++ ": 3, " ++ dq ++ "element_type" ++ dq ++ ": " ++
  dq ++ "a" ++ dq ++ "}, 7, {}]".

Definition sample_indet : Indeterminate :=
  {| indet_type := NAVIGATION_INTENT; indet_confidence := LOW;
     indet_score := 0.9%float |}.

(** An analyzer after a successful [Initialize]. *)
Definition ready_analyzer : IntentAnalyzer :=
  {| model_handle_ := Some 1; is_ready_ := true; cached_intents_ := [];
     min_confidence_ := 0.5%float; analysis_interval_ := 300000000 |}.

(** A stand-in for the line [StringPrintf] formats in [BuildPrompt]. *)
Definition sample_StringPrintf_event (event_type : string) (scroll : float)
    (seconds : Z) (element query : string) : string :=
  "- " ++ event_type ++ " | scroll:" ++
  Json.string_of_Z (Json.float_trunc (scroll + 0.5)%float) ++ "% | duration:" ++
  Json.string_of_Z seconds ++ "s | element:" ++ element ++ " | query:" ++ query ++ lf.

(** A URL of a banking site and an invalid URL. *)
Definition bank_url : GURL :=
  {| is_valid := true; host := "www.chase.com"; spec := "https://www.chase.com/" |}.

Definition invalid_url : GURL :=
  {| is_valid := false; host := ""; spec := "" |}.

(** ** The methods that call into Chromium's [base] or the model runtime *)

Section Pat.

(** [base::SHA1HashString]. *)
Variable SHA1HashString : string -> string.
(** [base::JSONReader::Read]: [None] when the text does not parse. *)
Variable JSONReader_Read : string -> option Value.
(** [base::JSONWriter::Write(value, &json)]: the text left in [json]. *)
Variable JSONWriter_Write : Value -> string.
(** [base::Time::InMillisecondsFSinceUnixEpoch]. *)
Variable InMillisecondsFSinceUnixEpoch : Time -> float.
(** [base::Time::FromMillisecondsSinceUnixEpoch(double)]. *)
Variable FromMillisecondsSinceUnixEpoch : float -> Time.
(** [base::Milliseconds(double)]. *)
Variable Milliseconds : float -> TimeDelta.
(** The value [Dict::Set] stores for the [int64_t] millisecond count. *)
Variable Value_of_int64 : Z -> Value.
(** The line [base::StringPrintf] formats for one event in [BuildPrompt]. *)
Variable StringPrintf_event : string -> float -> Z -> string -> string -> string.
(** [base::PathExists]. *)
Variable PathExists : string -> bool.
(** The inference call of the model runtime ([QwenClient::Infer]; the
    repository ships the placeholder [QwenClient_Infer]). *)
Variable Infer : Handle -> string -> string.
(** What the unassigned [type] of the local [BrowsingEvent event;] of a hook
    or of [DeserializeEvent] reads as. The hooks assign the member before
    anything reads it. *)
Variable indet_event_type : BrowsingEventType.

(** The loops of [ImportEncrypted] and [ParseResponse] declare a new local
    object for every record, and [ParseResponse] reads the clock for every
    record. What the unassigned members of the object of the [i]-th record
    read as, and what the clock shows then, is not determined by the program:
    both loops take these readings as a sequence indexed by the records, and
    [shift] is the sequence that is left after the first record. *)
Definition shift {A : Type} (readings : nat -> A) : nat -> A :=
  fun i => readings (S i).

(** *** encrypted_store.cc *)

(** [TimeDelta::InMilliseconds], [TimeDelta::InSeconds]: truncating division. *)
Definition InMilliseconds (d : TimeDelta) : Z := Z.quot d 1000.
Definition InSeconds (d : TimeDelta) : Z := Z.quot d 1000000.

(** The record [ExportEncrypted] builds for one event. *)
Definition export_dict (event : BrowsingEvent) : Dict :=
  Dict_Set "search_query" (VString (search_query event))
    (Dict_Set "element_type" (VString (element_type event))
       (Dict_Set "scroll_depth" (VDouble (scroll_depth event))
          (Dict_Set "duration_ms" (Value_of_int64 (InMilliseconds (duration event)))
             (Dict_Set "timestamp"
                (VDouble (InMillisecondsFSinceUnixEpoch (timestamp event)))
                (Dict_Set "url_hash" (VString (url_hash event))
                   (Dict_Set "type" (VInt (static_cast_int (type event))) [])))))).

Definition events_list (s : EncryptedStore) : Value :=
  VList (map (fun event => VDict (export_dict event)) (events_ s)).

Definition ExportEncrypted (s : EncryptedStore) : string :=
  let json := JSONWriter_Write (events_list s) in
  Encrypt s json.

Definition opt_apply {A B : Type} (o : option A) (f : A -> B -> B) (b : B) : B :=
  match o with Some a => f a b | None => b end.

(** The body of the import loop for a record; [indet] is what the unassigned
    [type] of this record's [BrowsingEvent event;] reads as. *)
Definition import_dict (indet : BrowsingEventType) (dict : Dict) : BrowsingEvent :=
  let event := BrowsingEvent_default indet in
  let event :=
    opt_apply (FindInt "type" dict)
      (fun n => set_type (static_cast_BrowsingEventType n)) event in
  let event := opt_apply (FindString "url_hash" dict) set_url_hash event in
  let event :=
    opt_apply (FindDouble "timestamp" dict)
      (fun x => set_timestamp (FromMillisecondsSinceUnixEpoch x)) event in
  let event :=
    opt_apply (FindDouble "duration_ms" dict)
      (fun x => set_duration (Milliseconds x)) event in
  let event := opt_apply (FindDouble "scroll_depth" dict) set_scroll_depth event in
  let event := opt_apply (FindString "element_type" dict) set_element_type event in
  let event := opt_apply (FindString "search_query" dict) set_search_query event in
  event.

(** The import loop: entries that are no records are skipped. *)
Fixpoint import_items (unassigned : nat -> BrowsingEventType) (items : list Value)
  : list BrowsingEvent :=
  match items with
  | [] => []
  | VDict dict :: rest =>
      import_dict (unassigned 0%nat) dict :: import_items (shift unassigned) rest
  | _ :: rest => import_items unassigned rest
  end.

Definition ImportEncrypted (unassigned : nat -> BrowsingEventType)
    (data : string) (s : EncryptedStore) : bool * EncryptedStore :=
  let json := Decrypt s data in
  if Str.is_empty json then (false, s)
  else
    match JSONReader_Read json with
    | Some (VList items) =>
        (true, with_events (events_ s ++ import_items unassigned items)%list s)
    | _ => (false, s)
    end.

Definition SerializeEvent (event : BrowsingEvent) : string :=
  JSONWriter_Write
    (VDict
       (Dict_Set "timestamp"
          (VDouble (InMillisecondsFSinceUnixEpoch (timestamp event)))
          (Dict_Set "url_hash" (VString (url_hash event))
             (Dict_Set "type" (VInt (static_cast_int (type event))) [])))).

Definition DeserializeEvent (data : string) : BrowsingEvent :=
  let event := BrowsingEvent_default indet_event_type in
  match JSONReader_Read data with
  | Some (VDict dict) =>
      let event :=
        opt_apply (FindInt "type" dict)
          (fun n => set_type (static_cast_BrowsingEventType n)) event in
      opt_apply (FindString "url_hash" dict) set_url_hash event
  | _ => event
  end.

(** *** intent_analyzer.cc *)

(** [QwenClient::LoadModel]. *)
Definition LoadModel (model_path : string) : Handle :=
  if PathExists model_path then Some 1 else None.

Definition IntentAnalyzer_Initialize (model_path : string) (a : IntentAnalyzer)
  : bool * IntentAnalyzer :=
  let handle := LoadModel model_path in
  match handle with
  | None =>
      (false, {| model_handle_ := None; is_ready_ := is_ready_ a;
                 cached_intents_ := cached_intents_ a;
                 min_confidence_ := min_confidence_ a;
                 analysis_interval_ := analysis_interval_ a |})
  | Some _ =>
      (true, {| model_handle_ := handle; is_ready_ := true;
                cached_intents_ := cached_intents_ a;
                min_confidence_ := min_confidence_ a;
                analysis_interval_ := analysis_interval_ a |})
  end.

Definition event_type_name (t : BrowsingEventType) : string :=
  match t with
  | PAGE_LOAD => "PAGE_LOAD"
  | PAGE_UNLOAD => "PAGE_UNLOAD"
  | SCROLL => "SCROLL"
  | CLICK => "CLICK"
  | SEARCH_QUERY => "SEARCH"
  | FORM_SUBMIT => "FORM"
  | Above _ | Below _ => ""
  end.

Definition prompt_header : string :=
  "Analyze the following anonymized browsing events and detect user intent signals." ++
  lf ++ lf ++ "Events (hashed URLs, timestamps, and behaviors):" ++ lf.

Definition prompt_footer : string :=
  lf ++ lf ++ "Respond with JSON array of detected intents:" ++ lf ++
  "[{" ++ dq ++ "type" ++ dq ++ ": " ++ dq ++
  "PURCHASE_INTENT|RESEARCH_INTENT|COMPARISON_INTENT|ENGAGEMENT_INTENT|NAVIGATION_INTENT" ++
  dq ++ "," ++ lf ++
  "  " ++ dq ++ "confidence" ++ dq ++ ": 0.0-1.0," ++ lf ++
  "  " ++ dq ++ "category" ++ dq ++ ": " ++ dq ++ "category_name" ++ dq ++ "}]" ++ lf.

Definition BuildPrompt (events : list BrowsingEvent) : string :=
  fold_left
    (fun prompt event =>
       prompt ++
       StringPrintf_event (event_type_name (type event))
         (scroll_depth event * 100)%float (InSeconds (duration event))
         (element_type event) (search_query event))
    events prompt_header
  ++ prompt_footer.

Definition RunInference (a : IntentAnalyzer) (prompt : string) : string :=
  match model_handle_ a with
  | None => "[]"
  | Some _ => Infer (model_handle_ a) prompt
  end.

Definition intent_type_of_string (type : string) : IntentType :=
  if String.eqb type "PURCHASE_INTENT" then PURCHASE_INTENT
  else if String.eqb type "RESEARCH_INTENT" then RESEARCH_INTENT
  else if String.eqb type "COMPARISON_INTENT" then COMPARISON_INTENT
  else if String.eqb type "ENGAGEMENT_INTENT" then ENGAGEMENT_INTENT
  else NAVIGATION_INTENT.

(** The bucket [ParseResponse] derives from a confidence. *)
Definition confidence_level (confidence : float) : ConfidenceLevel :=
  if (confidence <? 0.4)%float then LOW
  else if (confidence <? 0.7)%float then MEDIUM
  else HIGH.

(** The body of the loop of [ParseResponse] for a record; [indet] is what
    the unassigned members of this record's [IntentSignal signal;] read as,
    [now] what [base::Time::Now()] returns for it. *)
Definition parse_signal (indet : Indeterminate) (now : Time) (dict : Dict)
  : IntentSignal :=
  let signal := IntentSignal_default indet in
  let signal := Signal.set_detected_at now signal in
  let signal :=
    opt_apply (FindString "type" dict)
      (fun type => Signal.set_type (intent_type_of_string type)) signal in
  let signal :=
    opt_apply (FindDouble "confidence" dict)
      (fun confidence signal =>
         Signal.set_confidence (confidence_level confidence)
           (Signal.set_confidence_score confidence signal)) signal in
  let signal := opt_apply (FindString "category" dict) Signal.set_category signal in
  signal.

(** The loop of [ParseResponse]: entries that are no records are skipped
    before the object is declared and the clock is read. *)
Fixpoint parse_items (unassigned : nat -> Indeterminate) (clock : nat -> Time)
    (items : list Value) : list IntentSignal :=
  match items with
  | [] => []
  | VDict dict :: rest =>
      parse_signal (unassigned 0%nat) (clock 0%nat) dict
      :: parse_items (shift unassigned) (shift clock) rest
  | _ :: rest => parse_items unassigned clock rest
  end.

Definition ParseResponse (unassigned : nat -> Indeterminate) (clock : nat -> Time)
    (response : string) : list IntentSignal :=
  match JSONReader_Read response with
  | Some (VList items) => parse_items unassigned clock items
  | _ => []
  end.

Definition AnalyzeEvents (unassigned : nat -> Indeterminate) (clock : nat -> Time)
    (events : list BrowsingEvent) (a : IntentAnalyzer)
  : list IntentSignal * IntentAnalyzer :=
  if negb (IsReady a) then ([], a)
  else
    match events with
    | [] => ([], a)
    | _ :: _ =>
        let prompt := BuildPrompt events in
        let response := RunInference a prompt in
        let signals := ParseResponse unassigned clock response in
        let filtered :=
          List.filter
            (fun signal => (min_confidence_ a <=? Signal.confidence_score signal)%float)
            signals in
        (filtered, with_cached filtered a)
    end.

(** [now] is the reading of the clock the cutoff is computed from; the
    readings for the records follow it. *)
Definition AnalyzeTimeWindow (now : Time) (unassigned : nat -> Indeterminate)
    (clock : nat -> Time) (events : list BrowsingEvent) (window : TimeDelta)
    (a : IntentAnalyzer) : list IntentSignal * IntentAnalyzer :=
  let cutoff := now - window in
  let windowed := List.filter (fun event => cutoff <=? timestamp event) events in
  AnalyzeEvents unassigned clock windowed a.

(** *** browsing_data_collector.cc *)

Definition HashUrl (url : GURL) : string :=
  hex_string (SHA1HashString (spec url)).

Definition OnPageLoad (now : Time) (url : GURL) (contents : option WebContents)
    (c : BrowsingDataCollector) : BrowsingDataCollector :=
  if IsIncognito contents then c
  else if negb (IsCollectionEnabled c) then c
  else if IsExcludedSite c url then c
  else
    let event := BrowsingEvent_make PAGE_LOAD (HashUrl url) now in
    with_scroll_depth 0%float (with_store (StoreEvent event (local_store_ c)) c).

Definition OnPageUnload (now : Time) (url : GURL) (time_on_page : TimeDelta)
    (c : BrowsingDataCollector) : BrowsingDataCollector :=
  if negb (IsCollectionEnabled c) then c
  else
    let event := BrowsingEvent_make PAGE_UNLOAD (HashUrl url) now in
    let event := set_duration time_on_page event in
    let event := set_scroll_depth (current_scroll_depth_ c) event in
    with_store (StoreEvent event (local_store_ c)) c.

Definition OnScroll (depth_percentage : float) (c : BrowsingDataCollector)
  : BrowsingDataCollector :=
  if negb (IsCollectionEnabled c) then c
  else if (current_scroll_depth_ c <? depth_percentage)%float
       then with_scroll_depth depth_percentage c
       else c.

Definition OnClick (now : Time) (element_selector : string)
    (c : BrowsingDataCollector) : BrowsingDataCollector :=
  if negb (IsCollectionEnabled c) then c
  else
    let event := BrowsingEvent_default indet_event_type in
    let event := set_type CLICK event in
    let event := set_timestamp now event in
    let event := set_element_type (SanitizeElementSelector element_selector) event in
    with_store (StoreEvent event (local_store_ c)) c.

Definition OnSearchQuery (now : Time) (query : string)
    (c : BrowsingDataCollector) : BrowsingDataCollector :=
  if negb (IsCollectionEnabled c) then c
  else
    let sanitized := SanitizeSearchQuery query in
    if Str.is_empty sanitized then c
    else
      let event := BrowsingEvent_default indet_event_type in
      let event := set_type SEARCH_QUERY event in
      let event := set_timestamp now event in
      let event := set_search_query sanitized event in
      with_store (StoreEvent event (local_store_ c)) c.

Definition is_sensitive_field (type : string) : bool :=
  String.eqb type "password" || String.eqb type "credit-card".

Definition OnFormSubmit (now : Time) (field_types : list string)
    (c : BrowsingDataCollector) : BrowsingDataCollector :=
  if negb (IsCollectionEnabled c) then c
  else if existsb is_sensitive_field field_types then c
  else
    let event := BrowsingEvent_default indet_event_type in
    let event := set_type FORM_SUBMIT event in
    let event := set_timestamp now event in
    with_store (StoreEvent event (local_store_ c)) c.

(** *** The hook calls of the coordinator, as one type *)

(** A call of one of the five storing hooks with its arguments. *)
Inductive HookCall :=
| CallPageLoad (url : GURL) (contents : option WebContents)
| CallPageUnload (url : GURL) (time_on_page : TimeDelta)
| CallClick (element_selector : string)
| CallSearchQuery (query : string)
| CallFormSubmit (field_types : list string).

Definition run_hook (now : Time) (h : HookCall) (c : BrowsingDataCollector)
  : BrowsingDataCollector :=
  match h with
  | CallPageLoad url contents => OnPageLoad now url contents c
  | CallPageUnload url time_on_page => OnPageUnload now url time_on_page c
  | CallClick element_selector => OnClick now element_selector c
  | CallSearchQuery query => OnSearchQuery now query c
  | CallFormSubmit field_types => OnFormSubmit now field_types c
  end.

(** The session context a hook call is handed, if any, and its URL, if any. *)
Definition hook_is_private (h : HookCall) : bool :=
  match h with
  | CallPageLoad _ contents => IsIncognito contents
  | _ => false
  end.

Definition hook_url (h : HookCall) : option GURL :=
  match h with
  | CallPageLoad url _ => Some url
  | CallPageUnload url _ => Some url
  | _ => None
  end.

Definition hook_url_excluded (c : BrowsingDataCollector) (h : HookCall) : bool :=
  match hook_url h with
  | Some url => IsExcludedSite c url
  | None => false
  end.

(** *** Notions the properties are stated with *)

(** The contract of the design document for one hook call: a private
    session, the disabled switch or an excluded URL leave the store as it is. *)
Definition drops_when_gated (now : Time) (h : HookCall)
    (c : BrowsingDataCollector) : Prop :=
  hook_is_private h = true
  \/ IsCollectionEnabled c = false
  \/ hook_url_excluded c h = true ->
  local_store_ (run_hook now h c) = local_store_ c.

(** [StoreEvent] called once for each event of [new], in order. *)
Definition StoreEvents (new : list BrowsingEvent) (s : EncryptedStore)
  : EncryptedStore :=
  fold_left (fun s event => StoreEvent event s) new s.

(** The records among the entries of a parsed list. *)
Fixpoint records (items : list Value) : list Dict :=
  match items with
  | [] => []
  | VDict dict :: rest => dict :: records rest
  | _ :: rest => records rest
  end.

(** What the import loop recovers from a record: every member is the
    record's value under the member's key where the record has one of the
    right kind, converted as the loop converts it, and the default of a new
    event where it has none. The kind of an event whose record has no
    integer ["type"] is not determined. *)
Definition recovered_from (dict : Dict) (event : BrowsingEvent) : Prop :=
  (forall n, FindInt "type" dict = Some n ->
     type event = static_cast_BrowsingEventType n)
  /\ url_hash event =
     match FindString "url_hash" dict with Some hash => hash | None => "" end
  /\ timestamp event =
     match FindDouble "timestamp" dict with
     | Some x => FromMillisecondsSinceUnixEpoch x
     | None => 0
     end
  /\ duration event =
     match FindDouble "duration_ms" dict with
     | Some x => Milliseconds x
     | None => 0
     end
  /\ scroll_depth event =
     match FindDouble "scroll_depth" dict with Some x => x | None => 0%float end
  /\ element_type event =
     match FindString "element_type" dict with Some text => text | None => "" end
  /\ search_query event =
     match FindString "search_query" dict with Some text => text | None => "" end
  /\ referrer_hash event = "".

(** The fields the round-trip property compares as they are. *)
Definition compared_fields (e : BrowsingEvent)
  : BrowsingEventType * string * float * string * string :=
  (type e, url_hash e, scroll_depth e, element_type e, search_query e).

(** A timestamp after it went through the exported millisecond count. *)
Definition stored_timestamp (t : Time) : Time :=
  FromMillisecondsSinceUnixEpoch (InMillisecondsFSinceUnixEpoch t).

(** [k] is a keyword of a category whose exclusion is switched on. *)
Definition enabled_keyword (f : PrivacyFilter) (k : string) : Prop :=
  (exclude_banking_ f = true /\ In k kBankingDomains)
  \/ (exclude_healthcare_ f = true /\ In k kHealthcareDomains)
  \/ (exclude_social_media_ f = true /\ In k kSocialMediaDomains).

(** [p] occurs in [s]. *)
Definition occurs_in (p s : string) : Prop :=
  exists a b : string, s = a ++ p ++ b.

(** The number of positions of [s] at which [p] starts. *)
Fixpoint count_occurrences (p s : string) : nat :=
  (if Str.starts_with p s then 1 else 0)%nat +
  match s with
  | EmptyString => 0%nat
  | String _ s' => count_occurrences p s'
  end.

(** The same count on lists of characters. *)
Fixpoint is_prefix (p l : list ascii) : bool :=
  match p, l with
  | [], _ => true
  | a :: p', b :: l' => Ascii.eqb a b && is_prefix p' l'
  | _ :: _, [] => false
  end.

Fixpoint count_list (p l : list ascii) : nat :=
  (if is_prefix p l then 1 else 0)%nat +
  match l with
  | [] => 0%nat
  | _ :: l' => count_list p l'
  end.

(** The patterns by their place in the list: 0 email, 1 phone, 2 SSN,
    3 card, 4 ZIP. *)
Definition pii_pattern (i : nat) : string := nth i kPiiPatterns "".

(** The pattern matches nowhere in [s]. *)
Definition matches_nowhere (pattern s : string) : bool :=
  match Regex.parse pattern with
  | Some re => Regex.no_match_in true re None (list_ascii_of_string s) []
  | None => false
  end.

(** In [a ++ p ++ b] the pattern matches [p] where it stands, and nothing
    before or behind it. *)
Definition sole_match (pattern a p b : string) : bool :=
  match Regex.parse pattern with
  | Some re =>
      let la := list_ascii_of_string a in
      let lp := list_ascii_of_string p in
      let lb := list_ascii_of_string b in
      Regex.no_match_in true re None la (lp ++ lb)
      && negb (Str.is_empty p)
      && match Regex.match_at true re (Regex.prev_after None la) (lp ++ lb)%list with
         | Some n => (n =? List.length lp)%nat
         | None => false
         end
      && Regex.no_match_in true re (Regex.prev_after None (la ++ lp)) lb []
  | None => false
  end.

(** The number of matches of the email pattern that the first round replaces. *)
Definition email_matches (query : string) : nat :=
  match Regex.parse (pii_pattern 0) with
  | Some re => Regex.count_matches true re None (list_ascii_of_string query) O
  | None => O
  end.

(** [SanitizeSearchQuery] in the words of the design document: replace every
    match of every pattern, in order, by the marker; more than two markers in
    the result suppress the query. *)
Definition SanitizeSearchQuery_spec (query : string) : string :=
  let result := fold_left redact_pattern kPiiPatterns query in
  if (2 <? count_occurrences kRedacted result)%nat then "" else result.

(** What [regex_replace] computes, as a relation: at each position, from the
    left, a match of positive length is replaced and the scan resumes behind
    it; a position with no match keeps its character. *)
Inductive Replaced (icase : bool) (r : Regex.regex) (fmt : list ascii)
  : option ascii -> list ascii -> list ascii -> Prop :=
| Replaced_end prev :
    Regex.match_at icase r prev [] = None ->
    Replaced icase r fmt prev [] []
| Replaced_keep prev c s out :
    Regex.match_at icase r prev (c :: s) = None ->
    Replaced icase r fmt (Some c) s out ->
    Replaced icase r fmt prev (c :: s) (c :: out)
| Replaced_match prev c s n out :
    Regex.match_at icase r prev (c :: s) = Some (S n) ->
    (n <= List.length s)%nat ->
    Replaced icase r fmt (Some (List.last (firstn n s) c)) (skipn n s) out ->
    Replaced icase r fmt prev (c :: s) (fmt ++ out)%list.

(** Closes the side conditions of the lemmas on the matcher. *)
#[local] Ltac close_consumed :=
  repeat split; simpl; try assumption; try lia.

(** *** browsing_data_collector.cc: the export for local viewing *)

(** [base::JSONWriter::WriteWithOptions(value, OPTIONS_PRETTY_PRINT, &json)]. *)
Variable JSONWriter_WriteWithOptions : Value -> string.

(** The record [ExportDataAsJson] builds for one event. *)
Definition json_dict (event : BrowsingEvent) : Dict :=
  Dict_Set "search_query" (VString (search_query event))
    (Dict_Set "element_type" (VString (element_type event))
       (Dict_Set "scroll_depth" (VDouble (scroll_depth event))
          (Dict_Set "timestamp"
             (VDouble (InMillisecondsFSinceUnixEpoch (timestamp event)))
             (Dict_Set "url_hash" (VString (url_hash event))
                (Dict_Set "type" (VInt (static_cast_int (type event))) []))))).

Definition ExportDataAsJson (c : BrowsingDataCollector) : string :=
  JSONWriter_WriteWithOptions
    (VList (map (fun event => VDict (json_dict event)) (GetCollectedEvents c))).

(** [IntentAnalyzer::SetAnalysisInterval]. *)
Definition SetAnalysisInterval (interval : TimeDelta) (a : IntentAnalyzer)
  : IntentAnalyzer :=
  {| model_handle_ := model_handle_ a; is_ready_ := is_ready_ a;
     cached_intents_ := cached_intents_ a; min_confidence_ := min_confidence_ a;
     analysis_interval_ := interval |}.

(** *** The public methods of the collector that change it, as one type *)

Inductive CollectorCall :=
| CallHook (h : HookCall)
| CallScroll (depth_percentage : float)
| CallSetCollectionEnabled (enabled : bool)
| CallAddExcludedSite (domain : string)
| CallRemoveExcludedSite (domain : string)
| CallClearAllData.

Definition run_call (now : Time) (call : CollectorCall) (c : BrowsingDataCollector)
  : BrowsingDataCollector :=
  match call with
  | CallHook h => run_hook now h c
  | CallScroll depth_percentage => OnScroll depth_percentage c
  | CallSetCollectionEnabled enabled => SetCollectionEnabled enabled c
  | CallAddExcludedSite domain => AddExcludedSite domain c
  | CallRemoveExcludedSite domain => RemoveExcludedSite domain c
  | CallClearAllData => ClearAllData c
  end.

(** A run of calls, each made at the time the clock shows then. *)
Definition run_calls (calls : list (Time * CollectorCall))
    (c : BrowsingDataCollector) : BrowsingDataCollector :=
  fold_left (fun c call => run_call (fst call) (snd call) c) calls c.

(** [OnScroll] called once for each depth, in order. *)
Definition scroll_all (depths : list float) (c : BrowsingDataCollector)
  : BrowsingDataCollector :=
  fold_left (fun c depth => OnScroll depth c) depths c.

(** *** Notions of the further properties *)

(** A character [%02x] can print. *)
Definition is_hex_char (c : ascii) : bool :=
  let n := nat_of_ascii c in
  Str.is_digit c || ((97 <=? n)%nat && (n <=? 102)%nat).

(** The digit a hexadecimal character stands for. *)
Definition hex_value (c : ascii) : nat :=
  let n := nat_of_ascii c in
  if (n <? 58)%nat then (n - 48)%nat else (n - 87)%nat.

Fixpoint string_forall (p : ascii -> bool) (s : string) : bool :=
  match s with
  | EmptyString => true
  | String c s' => p c && string_forall p s'
  end.

(** What an event stored by one of the hooks looks like: the members its
    kind does not use keep their defaults, a hash is hexadecimal, an element
    type is a lower-case word and a query carries at most two markers. *)
Definition collected_shape (e : BrowsingEvent) : Prop :=
  referrer_hash e = ""
  /\ match type e with
     | PAGE_LOAD =>
         string_forall is_hex_char (url_hash e) = true
         /\ duration e = 0 /\ scroll_depth e = 0%float
         /\ element_type e = "" /\ search_query e = ""
     | PAGE_UNLOAD =>
         string_forall is_hex_char (url_hash e) = true
         /\ element_type e = "" /\ search_query e = ""
     | CLICK =>
         url_hash e = "" /\ duration e = 0 /\ scroll_depth e = 0%float
         /\ search_query e = ""
         /\ element_type e <> ""
         /\ string_forall Str.is_lower (element_type e) = true
     | SEARCH_QUERY =>
         url_hash e = "" /\ duration e = 0 /\ scroll_depth e = 0%float
         /\ element_type e = ""
         /\ search_query e <> ""
         /\ (count_occurrences kRedacted (search_query e) <= 2)%nat
     | FORM_SUBMIT =>
         url_hash e = "" /\ duration e = 0 /\ scroll_depth e = 0%float
         /\ element_type e = "" /\ search_query e = ""
     | SCROLL | Above _ | Below _ => False
     end.

(** How many of the oldest entries a run of [StoreEvent] calls removes from
    a store of [stored] events that is handed [new] further ones. *)
Definition evicted (stored new : nat) : nat :=
  Nat.min new (stored + new - Z.to_nat kMaxCachedEvents).

(** The event an export and import give back for [event]. *)
Definition reimported (event : BrowsingEvent) : BrowsingEvent :=
  import_dict indet_event_type (export_dict event).

(** [new] is [old] with [event] put at its end, after the oldest entry was
    taken away when [old] already held 10,000 events or more. *)
Definition pushed_back (event : BrowsingEvent) (old new : list BrowsingEvent)
  : Prop :=
  (Z.of_nat (List.length old) < kMaxCachedEvents -> new = (old ++ [event])%list)
  /\ (kMaxCachedEvents <= Z.of_nat (List.length old) ->
      new = (tl old ++ [event])%list).

(** The line of the prompt for one event. *)
Definition prompt_line (event : BrowsingEvent) : string :=
  StringPrintf_event (event_type_name (type event))
    (scroll_depth event * 100)%float (InSeconds (duration event))
    (element_type event) (search_query event).

(** The calls that store or track, as opposed to the configuration calls. *)
Definition is_tracking_call (call : CollectorCall) : bool :=
  match call with
  | CallHook _ | CallScroll _ => true
  | _ => false
  end.

(** What a line of the prompt is formatted from. *)
Definition prompt_fields (event : BrowsingEvent)
  : string * float * Z * string * string :=
  (event_type_name (type event), scroll_depth event, InSeconds (duration event),
   element_type event, search_query event).

(** The record [SerializeEvent] hands to the JSON writer. *)
Definition serialized_dict (event : BrowsingEvent) : Dict :=
  Dict_Set "timestamp"
    (VDouble (InMillisecondsFSinceUnixEpoch (timestamp event)))
    (Dict_Set "url_hash" (VString (url_hash event))
       (Dict_Set "type" (VInt (static_cast_int (type event))) [])).

(** *** Further data for the closed examples *)

(** A URL that no category and no list excludes. *)
Definition plain_url : GURL :=
  {| is_valid := true; host := "rocq-prover.org";
     spec := "https://rocq-prover.org/doc" |}.

(** A stand-in for the digest: the first twenty bytes of the text. *)
Definition sample_digest (text : string) : string := Str.take 20 text.

(** The three sample events in a store that has no key. *)
Definition plain_store : EncryptedStore :=
  with_events sample_events EncryptedStore_new.

(** A query with three email addresses. *)
Definition three_emails_query : string :=
  "mail ann@example.com, bob@example.org or eve@mail.example.net".

(** A ready analyzer that holds one cached signal. *)
Definition cached_analyzer : IntentAnalyzer :=
  with_cached
    [ {| Signal.type := PURCHASE_INTENT; Signal.confidence := HIGH;
         Signal.confidence_score := 0.9%float; Signal.category := "shoes";
         Signal.detected_at := 0; Signal.time_window := 0;
         Signal.event_count := 0 |} ]
    ready_analyzer.

#[local] Set Warnings "-clear-no-such-hyp".

(** Solves a goal about sets from what the goal itself says. *)
#[local] Ltac sets_from_goal :=
  repeat match goal with H : _ |- _ => clear H end; set_solver.

(** * Properties *)

(** ** Strings *)

Lemma append_nil_r (s : string) : s ++ "" = s.
Proof. induction s as [|c s IH]; simpl; [reflexivity | now rewrite IH]. Qed.

Lemma append_assoc (a b c : string) : (a ++ b) ++ c = a ++ b ++ c.
Proof. induction a as [|x a IH]; simpl; [reflexivity | now rewrite IH]. Qed.

Lemma length_append (a b : string) :
  String.length (a ++ b) = (String.length a + String.length b)%nat.
Proof. induction a as [|x a IH]; simpl; [reflexivity | now rewrite IH]. Qed.

Lemma drop_length_append (p r : string) : Str.drop (String.length p) (p ++ r) = r.
Proof. induction p as [|x p IH]; simpl; [now destruct r | exact IH]. Qed.

Lemma take_length_append (p r : string) : Str.take (String.length p) (p ++ r) = p.
Proof.
  induction p as [|x p IH]; simpl.
  - now destruct r.
  - now rewrite IH.
Qed.

Lemma take_drop (n : nat) (s : string) : Str.take n s ++ Str.drop n s = s.
Proof.
  revert s; induction n as [|n IH]; intros [|c s]; simpl; try reflexivity.
  now rewrite IH.
Qed.

Lemma length_drop (n : nat) (s : string) :
  String.length (Str.drop n s) = (String.length s - n)%nat.
Proof.
  revert s; induction n as [|n IH]; intros [|c s]; simpl; try lia.
  apply IH.
Qed.

Lemma take_all (n : nat) (s : string) :
  (String.length s <= n)%nat -> Str.take n s = s.
Proof.
  revert s; induction n as [|n IH]; intros [|c s]; simpl; intros H;
    try reflexivity; try lia.
  rewrite IH; [reflexivity | lia].
Qed.

Lemma drop_drop (n m : nat) (s : string) :
  Str.drop n (Str.drop m s) = Str.drop (m + n) s.
Proof.
  revert s; induction m as [|m IH]; intros s; simpl; [reflexivity |].
  destruct s as [|c s]; [now destruct n | apply IH].
Qed.

Lemma starts_with_spec (p s : string) :
  Str.starts_with p s = true <-> exists r, s = p ++ r.
Proof.
  revert s; induction p as [|a p IH]; intros s; simpl.
  - split; [intros _; now exists s | reflexivity].
  - destruct s as [|b s].
    + split; [discriminate | intros [r Hr]; discriminate].
    + rewrite andb_true_iff, IH, Ascii.eqb_eq. split.
      * intros [-> [r ->]]. now exists r.
      * intros [r Hr]. injection Hr as -> ->. split; [reflexivity | now exists r].
Qed.

Lemma starts_with_take (p s : string) :
  String.eqb (Str.take (String.length p) s) p = Str.starts_with p s.
Proof.
  apply eq_true_iff_eq. rewrite String.eqb_eq, starts_with_spec. split.
  - intros H. exists (Str.drop (String.length p) s).
    rewrite <- H at 1. symmetry; apply take_drop.
  - intros [r ->]. apply take_length_append.
Qed.

Lemma find_unfold (p s : string) :
  Str.find p s =
  if Str.starts_with p s then Some O
  else match s with
       | EmptyString => None
       | String _ s' => option_map S (Str.find p s')
       end.
Proof. destruct s; reflexivity. Qed.

Lemma find_length (p s : string) (i : nat) :
  Str.find p s = Some i -> (i + String.length p <= String.length s)%nat.
Proof.
  revert i; induction s as [|c s IH]; intros i; rewrite find_unfold.
  - destruct (Str.starts_with p "") eqn:E; [|discriminate].
    intros [= <-]. apply starts_with_spec in E as [r Hr].
    destruct p; [simpl; lia | discriminate].
  - destruct (Str.starts_with p (String c s)) eqn:E.
    + intros [= <-]. apply starts_with_spec in E as [r Hr].
      rewrite Hr, length_append. lia.
    + destruct (Str.find p s) as [j|]; [|discriminate].
      intros [= <-]. specialize (IH j eq_refl). simpl. lia.
Qed.

Lemma find_Some_occurs (p s : string) (i : nat) :
  Str.find p s = Some i -> occurs_in p s.
Proof.
  revert i; induction s as [|c s IH]; intros i; rewrite find_unfold.
  - destruct (Str.starts_with p "") eqn:E; [|discriminate].
    intros _. apply starts_with_spec in E as [r Hr]. now exists "", r.
  - destruct (Str.starts_with p (String c s)) eqn:E.
    + intros _. apply starts_with_spec in E as [r Hr]. now exists "", r.
    + destruct (Str.find p s) as [j|]; [|discriminate].
      intros _. destruct (IH j eq_refl) as (a & b & ->).
      now exists (String c a), b.
Qed.

Lemma occurs_find (p a b : string) : Str.find p (a ++ p ++ b) <> None.
Proof.
  induction a as [|c a IH].
  - rewrite find_unfold.
    assert (H : Str.starts_with p (p ++ b) = true)
      by (apply starts_with_spec; now exists b).
    change ("" ++ p ++ b) with (p ++ b). rewrite H. discriminate.
  - rewrite find_unfold. change (String c a ++ p ++ b) with (String c (a ++ p ++ b)).
    destruct (Str.starts_with p (String c (a ++ p ++ b))); [discriminate |].
    destruct (Str.find p (a ++ p ++ b)); [discriminate | contradiction].
Qed.

Lemma contains_spec (p s : string) :
  Str.contains p s = true <-> occurs_in p s.
Proof.
  unfold Str.contains. split.
  - destruct (Str.find p s) as [i|] eqn:E; [|discriminate].
    intros _. eapply find_Some_occurs, E.
  - intros (a & b & ->). pose proof (occurs_find p a b) as H.
    destruct (Str.find p (a ++ p ++ b)); [reflexivity | contradiction].
Qed.

(** The test of [IsUserExcluded] on one excluded domain: the host ends with a
    dot followed by that domain. *)
Lemma is_subdomain_of_spec (domain excluded : string) :
  is_subdomain_of domain excluded = true <->
  exists pre, domain = pre ++ "." ++ excluded.
Proof.
  unfold is_subdomain_of, Str.substr.
  set (suffix := "." ++ excluded).
  assert (Hlen : String.length suffix = S (String.length excluded)) by reflexivity.
  split.
  - destruct (String.length excluded <? String.length domain)%nat eqn:E;
      [|discriminate].
    apply Nat.ltb_lt in E. rewrite String.eqb_eq. intros H.
    set (k := (String.length domain - String.length suffix)%nat) in *.
    assert (Hd : Str.drop k domain = suffix).
    { rewrite <- H. symmetry. apply take_all. rewrite length_drop. lia. }
    exists (Str.take k domain).
    change ("." ++ excluded) with suffix. rewrite <- Hd.
    symmetry; apply take_drop.
  - intros [pre ->].
    change (pre ++ "." ++ excluded) with (pre ++ suffix).
    rewrite length_append, Hlen.
    replace (String.length excluded <? String.length pre + S (String.length excluded))%nat
      with true by (symmetry; apply Nat.ltb_lt; lia).
    replace (String.length pre + S (String.length excluded) - S (String.length excluded))%nat
      with (String.length pre) by lia.
    rewrite drop_length_append, <- Hlen, take_all by lia.
    apply String.eqb_refl.
Qed.

(** ** The privacy filter *)

Lemma matches_any_spec (patterns : list string) (domain : string) :
  matches_any patterns domain = true <->
  exists k, In k patterns /\ occurs_in k (Str.ToLowerASCII domain).
Proof.
  unfold matches_any. rewrite existsb_exists.
  split; intros (k & Hk & H); exists k; split; auto; now apply contains_spec.
Qed.

Lemma IsCategoryExcluded_orb (f : PrivacyFilter) (domain : string) :
  IsCategoryExcluded f domain =
  (exclude_banking_ f && IsBankingSite domain)
  || (exclude_healthcare_ f && IsHealthcareSite domain)
  || (exclude_social_media_ f && IsSocialMediaSite domain).
Proof.
  unfold IsCategoryExcluded.
  destruct (exclude_banking_ f && IsBankingSite domain),
    (exclude_healthcare_ f && IsHealthcareSite domain),
    (exclude_social_media_ f && IsSocialMediaSite domain); reflexivity.
Qed.

Lemma IsCategoryExcluded_spec (f : PrivacyFilter) (domain : string) :
  IsCategoryExcluded f domain = true <->
  exists k, enabled_keyword f k /\ occurs_in k (Str.ToLowerASCII domain).
Proof.
  rewrite IsCategoryExcluded_orb, !orb_true_iff, !andb_true_iff.
  unfold IsBankingSite, IsHealthcareSite, IsSocialMediaSite, enabled_keyword.
  rewrite !matches_any_spec. split.
  - intros [[[E (k & Hk & H)]|[E (k & Hk & H)]]|[E (k & Hk & H)]];
      exists k; tauto.
  - intros (k & [[E Hk]|[[E Hk]|[E Hk]]] & H); eauto 8.
Qed.

Lemma IsUserExcluded_spec (f : PrivacyFilter) (domain : string) :
  IsUserExcluded f domain = true <->
  domain ∈ user_excluded_domains_ f
  \/ exists excluded pre,
       excluded ∈ user_excluded_domains_ f /\ domain = pre ++ "." ++ excluded.
Proof.
  unfold IsUserExcluded. destruct (bool_decide_reflect (domain ∈ user_excluded_domains_ f)) as [Hin|Hin].
  - split; auto.
  - rewrite existsb_exists. split.
    + intros (e & He & H). right. apply is_subdomain_of_spec in H as [pre ->].
      exists e, pre. split; [|reflexivity].
      apply elem_of_elements, list_elem_of_In, He.
    + intros [H|(e & pre & He & ->)]; [contradiction|].
      exists e. split.
      * apply list_elem_of_In, elem_of_elements, He.
      * apply is_subdomain_of_spec. now exists pre.
Qed.

(** C5. [IsExcluded] holds of a URL exactly when the URL is invalid, or its
    host is a user-excluded domain or ends with a dot followed by one, or the
    lower-cased host contains a keyword of a category that is switched on;
    in particular it is false of every other valid URL. *)
Theorem IsExcluded_iff (f : PrivacyFilter) (url : GURL) :
  IsExcluded f url = true <->
  is_valid url = false
  \/ host url ∈ user_excluded_domains_ f
  \/ (exists excluded pre,
        excluded ∈ user_excluded_domains_ f /\
        host url = pre ++ "." ++ excluded)
  \/ (exists k, enabled_keyword f k /\ occurs_in k (Str.ToLowerASCII (host url))).
Proof.
  unfold IsExcluded.
  pose proof (IsUserExcluded_spec f (host url)) as Hu.
  pose proof (IsCategoryExcluded_spec f (host url)) as Hc.
  destruct (is_valid url); simpl; [|split; auto].
  destruct (IsUserExcluded f (host url)).
  - split; [intros _|reflexivity].
    destruct (proj1 Hu eq_refl); auto.
  - destruct (IsCategoryExcluded f (host url)).
    + split; [intros _|reflexivity]. right; right; right. now apply Hc.
    + split; [discriminate|].
      intros [H|[H|[H|H]]]; try discriminate H.
      * apply Hu. now left.
      * apply Hu. now right.
      * now apply Hc.
Qed.

(** The switches of a new filter: banking and healthcare on, social media off. *)
Lemma PrivacyFilter_new_flags :
  exclude_banking_ PrivacyFilter_new = true
  /\ exclude_healthcare_ PrivacyFilter_new = true
  /\ exclude_social_media_ PrivacyFilter_new = false.
Proof. repeat split. Qed.

Example IsExcluded_examples :
  let f := AddExcludedDomain "Example.COM" PrivacyFilter_new in
  IsExcluded f {| is_valid := true; host := "mail.example.com"; spec := "" |} = true
  /\ IsExcluded f {| is_valid := true; host := "example.com"; spec := "" |} = true
  /\ IsExcluded f {| is_valid := true; host := "notexample.com"; spec := "" |} = false
  /\ IsExcluded f {| is_valid := true; host := "www.CHASE.com"; spec := "" |} = true
  /\ IsExcluded f {| is_valid := true; host := "www.facebook.com"; spec := "" |} = false
  /\ IsExcluded f {| is_valid := false; host := "rocq-prover.org"; spec := "" |} = true.
Proof. vm_compute. repeat split. Qed.

Example SanitizeElementSelector_examples :
  SanitizeElementSelector "button#submit.primary" = "button"
  /\ SanitizeElementSelector "INPUT[type=text]" = "input"
  /\ SanitizeElementSelector "#main" = "unknown".
Proof. vm_compute. repeat split. Qed.

(** ** The event store *)

Lemma GetEventCount_with_events (l : list BrowsingEvent) (s : EncryptedStore) :
  GetEventCount (with_events l s) = Z.of_nat (List.length l).
Proof. reflexivity. Qed.

Lemma StoreEvent_events (event : BrowsingEvent) (s : EncryptedStore) :
  events_ (StoreEvent event s) =
  if kMaxCachedEvents <? GetEventCount s + 1
  then tl (events_ s ++ [event])
  else (events_ s ++ [event])%list.
Proof.
  unfold StoreEvent, GetEventCount. rewrite length_app, Nat2Z.inj_add. simpl List.length.
  change (Z.of_nat 1) with 1.
  now destruct (kMaxCachedEvents <? Z.of_nat (List.length (events_ s)) + 1).
Qed.

Lemma StoreEvent_count (event : BrowsingEvent) (s : EncryptedStore) :
  GetEventCount (StoreEvent event s) =
  if kMaxCachedEvents <? GetEventCount s + 1
  then GetEventCount s
  else GetEventCount s + 1.
Proof.
  unfold GetEventCount at 1. rewrite StoreEvent_events.
  unfold GetEventCount.
  destruct (kMaxCachedEvents <? Z.of_nat (List.length (events_ s)) + 1).
  - destruct (events_ s); simpl; [reflexivity|].
    rewrite length_app. simpl. lia.
  - rewrite length_app. simpl. lia.
Qed.

(** [StoreEvent] takes away at most the one entry it added. *)
Lemma StoreEvent_trims_at_most_one (event : BrowsingEvent) (s : EncryptedStore) :
  GetEventCount s <= GetEventCount (StoreEvent event s) <= GetEventCount s + 1.
Proof.
  rewrite StoreEvent_count.
  destruct (kMaxCachedEvents <? GetEventCount s + 1); lia.
Qed.

Lemma StoreEvent_at_capacity (event : BrowsingEvent) (s : EncryptedStore) :
  GetEventCount s = kMaxCachedEvents ->
  events_ (StoreEvent event s) = (tl (events_ s) ++ [event])%list
  /\ GetEventCount (StoreEvent event s) = kMaxCachedEvents.
Proof.
  intros H. rewrite StoreEvent_count, StoreEvent_events, H.
  replace (kMaxCachedEvents <? kMaxCachedEvents + 1) with true
    by (symmetry; apply Z.ltb_lt; lia).
  split; [|reflexivity].
  unfold GetEventCount, kMaxCachedEvents in H.
  destruct (events_ s); [simpl in H; lia | reflexivity].
Qed.

Lemma StoreEvents_at_capacity (new : list BrowsingEvent) (s : EncryptedStore) :
  GetEventCount s = kMaxCachedEvents ->
  events_ (StoreEvents new s) = skipn (List.length new) (events_ s ++ new).
Proof.
  revert s; induction new as [|event new IH]; intros s H.
  - simpl. now rewrite app_nil_r.
  - destruct (StoreEvent_at_capacity event s H) as [Hev Hcount].
    change (StoreEvents (event :: new) s) with (StoreEvents new (StoreEvent event s)).
    rewrite (IH _ Hcount), Hev.
    unfold GetEventCount, kMaxCachedEvents in H.
    destruct (events_ s) as [|oldest rest]; [simpl in H; lia|].
    simpl. now rewrite <- app_assoc.
Qed.

(** C3, as the code has it. A store that holds at most 10,000 events holds at
    most 10,000 after [StoreEvent]; and from a store that holds exactly 10,000,
    storing [N] further events leaves the old and new events without the [N]
    oldest, in order: 10,000 events again, the new ones all among them. *)
Theorem StoreEvent_bounded_fifo (s : EncryptedStore) :
  GetEventCount s <= kMaxCachedEvents ->
  (forall event, GetEventCount (StoreEvent event s) <= kMaxCachedEvents)
  /\ (GetEventCount s = kMaxCachedEvents ->
      forall new,
        events_ (StoreEvents new s) = skipn (List.length new) (events_ s ++ new)
        /\ GetEventCount (StoreEvents new s) = kMaxCachedEvents
        /\ (Z.of_nat (List.length new) <= kMaxCachedEvents ->
            exists kept, events_ (StoreEvents new s) = (kept ++ new)%list
                         /\ events_ s = (firstn (List.length new) (events_ s) ++ kept)%list)).
Proof.
  intros Hle. split.
  - intros event. rewrite StoreEvent_count.
    destruct (kMaxCachedEvents <? GetEventCount s + 1) eqn:E; [lia|].
    apply Z.ltb_ge in E. lia.
  - intros Hfull new.
    pose proof (StoreEvents_at_capacity new s Hfull) as Hev.
    split; [exact Hev|]. split.
    + unfold GetEventCount in *. rewrite Hev, length_skipn, length_app. lia.
    + intros Hn. exists (skipn (List.length new) (events_ s)). split.
      * rewrite Hev. rewrite skipn_app.
        replace (List.length new - List.length (events_ s))%nat with 0%nat
          by (unfold GetEventCount in Hfull; lia).
        reflexivity.
      * symmetry. apply firstn_skipn.
Qed.

(** ** Encryption placeholder, export and import *)

Lemma is_empty_spec (s : string) : Str.is_empty s = true <-> s = "".
Proof. destruct s; simpl; split; congruence. Qed.

Lemma Decrypt_no_key (s : EncryptedStore) (ciphertext : string) :
  Str.is_empty (encryption_key_ s) = true -> Decrypt s ciphertext = ciphertext.
Proof. unfold Decrypt. now intros ->. Qed.

Lemma Decrypt_with_key (s : EncryptedStore) (ciphertext : string) :
  Str.is_empty (encryption_key_ s) = false ->
  Decrypt s ciphertext =
  if Str.starts_with kEncryptedPrefix ciphertext
  then Str.drop (String.length kEncryptedPrefix) ciphertext
  else ciphertext.
Proof.
  unfold Decrypt, Str.substr. intros ->.
  change (Str.drop 0 ciphertext) with ciphertext.
  now rewrite starts_with_take.
Qed.

Lemma Decrypt_Encrypt (src dst : EncryptedStore) (plaintext : string) :
  Str.is_empty (encryption_key_ src) = false ->
  Str.is_empty (encryption_key_ dst) = false ->
  Decrypt dst (Encrypt src plaintext) = plaintext.
Proof.
  intros Hs Hd. rewrite Decrypt_with_key by exact Hd.
  unfold Encrypt. rewrite Hs.
  replace (Str.starts_with kEncryptedPrefix (kEncryptedPrefix ++ plaintext))
    with true by (symmetry; apply starts_with_spec; now exists plaintext).
  apply drop_length_append.
Qed.

Lemma length_import_items (unassigned : nat -> BrowsingEventType)
    (items : list Value) :
  List.length (import_items unassigned items) = List.length (records items).
Proof.
  revert unassigned. induction items as [|[] items IH]; intros unassigned; simpl; auto.
Qed.

(** The event of the [i]-th record is made from that record and from the
    reading for it. *)
Lemma import_items_records (unassigned : nat -> BrowsingEventType)
    (items : list Value) :
  import_items unassigned items =
  imap (fun i dict => import_dict (unassigned i) dict) (records items).
Proof.
  revert unassigned. induction items as [|[] items IH]; intros unassigned; simpl; auto.
  now rewrite IH.
Qed.

Lemma import_dict_recovered (indet : BrowsingEventType) (dict : Dict) :
  recovered_from dict (import_dict indet dict).
Proof.
  unfold recovered_from, import_dict.
  destruct (FindInt "type" dict), (FindString "url_hash" dict),
    (FindDouble "timestamp" dict), (FindDouble "duration_ms" dict),
    (FindDouble "scroll_depth" dict), (FindString "element_type" dict),
    (FindString "search_query" dict); simpl;
    (split; [intros n H; now inversion H | repeat split]).
Qed.

Lemma import_items_recovered (unassigned : nat -> BrowsingEventType)
    (items : list Value) :
  Forall2 recovered_from (records items) (import_items unassigned items).
Proof.
  revert unassigned. induction items as [|[] items IH]; intros unassigned; simpl;
    auto using Forall2_nil.
  constructor; [apply import_dict_recovered | apply IH].
Qed.

(** A record with an integer ["type"] leaves nothing of the event to the
    unassigned member. *)
Lemma import_dict_typed (indet indet' : BrowsingEventType) (dict : Dict) (n : Z) :
  FindInt "type" dict = Some n -> import_dict indet dict = import_dict indet' dict.
Proof. intros H. unfold import_dict. now rewrite H. Qed.

(** The three outcomes of [ImportEncrypted]. *)
Lemma ImportEncrypted_cases (unassigned : nat -> BrowsingEventType)
    (data : string) (s : EncryptedStore) :
  (ImportEncrypted unassigned data s = (false, s)
   /\ (Decrypt s data = ""
       \/ forall items, JSONReader_Read (Decrypt s data) <> Some (VList items)))
  \/ (exists items,
        Decrypt s data <> ""
        /\ JSONReader_Read (Decrypt s data) = Some (VList items)
        /\ ImportEncrypted unassigned data s =
           (true, with_events (events_ s ++ import_items unassigned items) s)).
Proof.
  unfold ImportEncrypted.
  destruct (Str.is_empty (Decrypt s data)) eqn:E.
  - left. split; [reflexivity|]. left. now apply is_empty_spec.
  - assert (Hne : Decrypt s data <> "")
      by (intros H; apply is_empty_spec in H; congruence).
    destruct (JSONReader_Read (Decrypt s data)) as [[]|] eqn:R;
      try (left; split; [reflexivity | right; intros items; discriminate]).
    right. exists l. split; [exact Hne | split; reflexivity].
Qed.

(** C4. When [ImportEncrypted] answers false the store is what it was. When
    it answers true the payload parsed as a list, and the store holds the
    events it had, in their places, followed by one new event for each record
    of the list, in the order of the records: each with the values its record
    gives for the kind, the hash, the timestamp, the duration, the scroll
    depth, the element type and the query, and with the default where the
    record gives none. The key stays. *)
Theorem ImportEncrypted_all_or_nothing (unassigned : nat -> BrowsingEventType)
    (data : string) (s : EncryptedStore) :
  (fst (ImportEncrypted unassigned data s) = false ->
   snd (ImportEncrypted unassigned data s) = s)
  /\ (fst (ImportEncrypted unassigned data s) = true ->
      exists items new,
        JSONReader_Read (Decrypt s data) = Some (VList items)
        /\ events_ (snd (ImportEncrypted unassigned data s)) = (events_ s ++ new)%list
        /\ Forall2 recovered_from (records items) new
        /\ List.length new = List.length (List.filter is_dict items)
        /\ firstn (List.length (events_ s))
             (events_ (snd (ImportEncrypted unassigned data s)))
           = events_ s
        /\ encryption_key_ (snd (ImportEncrypted unassigned data s))
           = encryption_key_ s).
Proof.
  destruct (ImportEncrypted_cases unassigned data s)
    as [[-> _]|(items & _ & R & ->)]; simpl.
  - split; [reflexivity | discriminate].
  - split; [discriminate|]. intros _. exists items, (import_items unassigned items).
    split; [exact R|]. split; [reflexivity|].
    split; [apply import_items_recovered|]. split; [|split; [|reflexivity]].
    + rewrite length_import_items.
      clear. induction items as [|[] items IH]; simpl; auto.
    + rewrite firstn_app, Nat.sub_diag, firstn_all. simpl. apply app_nil_r.
Qed.

(** C9. [ImportEncrypted] appends one event for every record of the payload
    and evicts nothing; so a payload with a record, imported into a store
    within capacity, can leave more than 10,000 events. [StoreEvent] removes at
    most the entry it added, and a store above capacity stays above it. *)
Theorem ImportEncrypted_exceeds_capacity (unassigned : nat -> BrowsingEventType)
    (data : string) (dict : Dict) (items : list Value) :
  Str.is_empty data = false ->
  JSONReader_Read data = Some (VList (VDict dict :: items)) ->
  (forall s,
     Decrypt s data = data ->
     GetEventCount (snd (ImportEncrypted unassigned data s)) =
     GetEventCount s + Z.of_nat (List.length (records (VDict dict :: items))))
  /\ (exists s,
        GetEventCount s <= kMaxCachedEvents
        /\ fst (ImportEncrypted unassigned data s) = true
        /\ kMaxCachedEvents < GetEventCount (snd (ImportEncrypted unassigned data s)))
  /\ (forall event s,
        GetEventCount s <= GetEventCount (StoreEvent event s)
        /\ (kMaxCachedEvents < GetEventCount s ->
            kMaxCachedEvents < GetEventCount (StoreEvent event s))).
Proof.
  intros Hne Hread.
  assert (Hcount : forall s,
    Decrypt s data = data ->
    ImportEncrypted unassigned data s =
    (true, with_events (events_ s ++ import_items unassigned (VDict dict :: items)) s)).
  { intros s Hd. unfold ImportEncrypted. now rewrite Hd, Hne, Hread. }
  split; [|split].
  - intros s Hd. rewrite (Hcount s Hd). unfold snd.
    rewrite GetEventCount_with_events, length_app.
    cbn [List.length records import_items]. rewrite length_import_items.
    unfold GetEventCount. lia.
  - set (e0 := BrowsingEvent_make PAGE_LOAD "" 0).
    set (s0 := with_events (repeat e0 (Z.to_nat kMaxCachedEvents)) EncryptedStore_new).
    assert (H0 : GetEventCount s0 = kMaxCachedEvents).
    { unfold s0. rewrite GetEventCount_with_events, repeat_length.
      apply Z2Nat.id. unfold kMaxCachedEvents. lia. }
    exists s0. rewrite (Hcount s0 (Decrypt_no_key s0 data eq_refl)).
    split; [lia|]. split; [reflexivity|].
    unfold snd. rewrite GetEventCount_with_events.
    cbn [import_items]. rewrite length_app. cbn [List.length].
    unfold GetEventCount in H0. lia.
  - intros event s. pose proof (StoreEvent_trims_at_most_one event s). lia.
Qed.

(** C10, as the code has it. Without a key [Decrypt] and [Encrypt] return
    their argument unchanged, prefix or not. With a key [Decrypt] returns
    what follows the prefix ["[ENCRYPTED]"] when the blob starts with it, and
    the blob unchanged otherwise; it never reports a failure. So a plaintext
    list is imported: with no key set, or when it does not start with the
    prefix. *)
Theorem Decrypt_never_fails (unassigned : nat -> BrowsingEventType)
    (s : EncryptedStore) (blob : string) :
  (Str.is_empty (encryption_key_ s) = true ->
   Decrypt s blob = blob /\ Encrypt s blob = blob)
  /\ (Str.is_empty (encryption_key_ s) = false ->
      (forall rest, blob = kEncryptedPrefix ++ rest -> Decrypt s blob = rest)
      /\ (Str.starts_with kEncryptedPrefix blob = false -> Decrypt s blob = blob))
  /\ (forall items,
        Str.is_empty blob = false ->
        JSONReader_Read blob = Some (VList items) ->
        Str.is_empty (encryption_key_ s) = true
        \/ Str.starts_with kEncryptedPrefix blob = false ->
        ImportEncrypted unassigned blob s =
        (true, with_events (events_ s ++ import_items unassigned items) s)).
Proof.
  split; [|split].
  - intros Hk. split; [now apply Decrypt_no_key|]. unfold Encrypt. now rewrite Hk.
  - intros Hk. rewrite (Decrypt_with_key s blob Hk). split.
    + intros rest ->.
      replace (Str.starts_with kEncryptedPrefix (kEncryptedPrefix ++ rest))
        with true by (symmetry; apply starts_with_spec; now exists rest).
      apply drop_length_append.
    + now intros ->.
  - intros items Hne Hread Hplain.
    assert (Hd : Decrypt s blob = blob).
    { destruct (Str.is_empty (encryption_key_ s)) eqn:Hk.
      - now apply Decrypt_no_key.
      - destruct Hplain as [H|H]; [discriminate|].
        now rewrite (Decrypt_with_key s blob Hk), H. }
    unfold ImportEncrypted. now rewrite Hd, Hne, Hread.
Qed.

(** *** Round trip *)

Lemma static_cast_above (q : positive) :
  (5 < q)%positive -> static_cast_BrowsingEventType (Z.pos q) = Above (q - 5).
Proof.
  intros H.
  destruct q as [[[q|q|]|[q|q|]|]|[[q|q|]|[q|q|]|]|]; try reflexivity; lia.
Qed.

Lemma static_cast_roundtrip (t : BrowsingEventType) :
  static_cast_BrowsingEventType (static_cast_int t) = t.
Proof.
  destruct t as [| | | | | |p|p]; try reflexivity.
  change (static_cast_int (Above p)) with (Z.pos (5 + p)).
  rewrite static_cast_above by lia. f_equal. lia.
Qed.

Lemma export_dict_sorted (event : BrowsingEvent) :
  export_dict event =
  [ ("duration_ms", Value_of_int64 (InMilliseconds (duration event)));
    ("element_type", VString (element_type event));
    ("scroll_depth", VDouble (scroll_depth event));
    ("search_query", VString (search_query event));
    ("timestamp", VDouble (InMillisecondsFSinceUnixEpoch (timestamp event)));
    ("type", VInt (static_cast_int (type event)));
    ("url_hash", VString (url_hash event)) ].
Proof. reflexivity. Qed.

(** What one event is after export and import. *)
Lemma import_export_dict (indet : BrowsingEventType) (event : BrowsingEvent) :
  compared_fields (import_dict indet (export_dict event)) = compared_fields event
  /\ timestamp (import_dict indet (export_dict event))
     = stored_timestamp (timestamp event)
  /\ referrer_hash (import_dict indet (export_dict event)) = "".
Proof.
  rewrite export_dict_sorted. unfold import_dict, compared_fields, stored_timestamp.
  unfold FindInt, FindDouble, FindString. simpl Dict_Find. unfold opt_apply.
  split; [|split].
  - destruct (Value_of_int64 _); simpl; now rewrite static_cast_roundtrip.
  - destruct (Value_of_int64 _); reflexivity.
  - destruct (Value_of_int64 _); reflexivity.
Qed.

Lemma export_dict_typed (event : BrowsingEvent) :
  FindInt "type" (export_dict event) = Some (static_cast_int (type event)).
Proof. rewrite export_dict_sorted. reflexivity. Qed.

(** An exported record has its type, so the event imported from it is the
    same whatever the unassigned member reads as. *)
Lemma import_items_export (indet : BrowsingEventType)
    (unassigned : nat -> BrowsingEventType) (events : list BrowsingEvent) :
  import_items unassigned (map (fun event => VDict (export_dict event)) events) =
  map (fun event => import_dict indet (export_dict event)) events.
Proof.
  revert unassigned. induction events as [|event events IH]; intros unassigned;
    [reflexivity|].
  cbn [map import_items]. rewrite IH.
  now rewrite (import_dict_typed _ indet _ _ (export_dict_typed event)).
Qed.

(** C7. Let the source and the destination have a key, the destination be
    empty, and the JSON reader read back the record list the writer wrote for
    the source (a non-empty text). Then importing the export succeeds and
    leaves in the destination one event for each source event, in the same
    order (so the same multiset), equal to it in kind, URL hash, scroll depth,
    element type and search query, and with the timestamp that the stored
    millisecond count gives back. *)
Theorem ExportImport_roundtrip (unassigned : nat -> BrowsingEventType)
    (src dst : EncryptedStore) :
  Str.is_empty (encryption_key_ src) = false ->
  Str.is_empty (encryption_key_ dst) = false ->
  events_ dst = [] ->
  JSONWriter_Write (events_list src) <> "" ->
  JSONReader_Read (JSONWriter_Write (events_list src)) = Some (events_list src) ->
  fst (ImportEncrypted unassigned (ExportEncrypted src) dst) = true
  /\ map compared_fields
       (events_ (snd (ImportEncrypted unassigned (ExportEncrypted src) dst)))
     = map compared_fields (events_ src)
  /\ map timestamp
       (events_ (snd (ImportEncrypted unassigned (ExportEncrypted src) dst)))
     = map stored_timestamp (map timestamp (events_ src))
  /\ Permutation
       (map compared_fields
          (events_ (snd (ImportEncrypted unassigned (ExportEncrypted src) dst))))
       (map compared_fields (events_ src)).
Proof.
  intros Hsrc Hdst Hempty Hne Hread.
  assert (Himp : ImportEncrypted unassigned (ExportEncrypted src) dst =
    (true, with_events
       (map (fun event => import_dict PAGE_LOAD (export_dict event))
          (events_ src)) dst)).
  { unfold ImportEncrypted, ExportEncrypted.
    rewrite (Decrypt_Encrypt src dst _ Hsrc Hdst).
    destruct (Str.is_empty (JSONWriter_Write (events_list src))) eqn:E;
      [apply is_empty_spec in E; contradiction|].
    rewrite Hread. unfold events_list.
    now rewrite Hempty, (import_items_export PAGE_LOAD). }
  rewrite Himp. simpl fst. simpl snd.
  assert (Hf : map compared_fields
                 (map (fun event => import_dict PAGE_LOAD (export_dict event))
                    (events_ src))
               = map compared_fields (events_ src)).
  { rewrite map_map. apply map_ext. intros e. apply import_export_dict. }
  split; [reflexivity|]. split; [exact Hf|]. split.
  - simpl. rewrite !map_map. apply map_ext. intros e. apply import_export_dict.
  - simpl events_. rewrite Hf. apply Permutation_refl.
Qed.

(** ** Comparisons of doubles *)

Lemma compare_cont_swap (p q : positive) :
  Pos.compare_cont Eq q p = CompOpp (Pos.compare_cont Eq p q).
Proof. symmetry. apply (Pos.compare_cont_antisym p q Eq). Qed.

Lemma SFcompare_antisym (a b : spec_float) :
  SFcompare b a = option_map CompOpp (SFcompare a b).
Proof.
  destruct a as [sa|sa| |sa ma ea], b as [sb|sb| |sb mb eb]; simpl;
    try reflexivity; try (destruct sa; reflexivity); try (destruct sb; reflexivity);
    try (destruct sa, sb; reflexivity).
  destruct sa, sb; try reflexivity; simpl; f_equal;
    rewrite (Z.compare_antisym ea eb);
    destruct (ea ?= eb); simpl; try reflexivity;
    now rewrite (compare_cont_swap ma mb).
Qed.

(** [x <= y] excludes [y < x]. *)
Lemma leb_not_ltb (x y : float) :
  (x <=? y)%float = true -> (y <? x)%float = false.
Proof.
  rewrite leb_spec, ltb_spec. unfold SFleb, SFltb.
  rewrite (SFcompare_antisym (Prim2SF x) (Prim2SF y)).
  destruct (SFcompare (Prim2SF x) (Prim2SF y)) as [[]|]; simpl; congruence.
Qed.

(** A double that is at least 0.7 is not below 0.4. *)
Lemma ge_07_not_lt_04 (c : float) :
  (0.7 <=? c)%float = true -> (c <? 0.4)%float = false.
Proof.
  rewrite leb_spec, ltb_spec.
  assert (H7 : exists m e, Prim2SF 0.7 = S754_finite false m e /\ e = -53)
    by (do 2 eexists; split; vm_compute; reflexivity).
  assert (H4 : exists m e, Prim2SF 0.4 = S754_finite false m e /\ e = -54)
    by (do 2 eexists; split; vm_compute; reflexivity).
  destruct H7 as (m7 & e7 & -> & He7), H4 as (m4 & e4 & -> & He4).
  unfold SFleb, SFltb.
  destruct (Prim2SF c) as [s|s| |s m e]; simpl; try reflexivity;
    try (destruct s; simpl; congruence).
  destruct s; simpl; [discriminate|].
  destruct (Z.compare_spec e7 e), (Z.compare_spec e e4);
    try lia; try reflexivity; discriminate.
Qed.

(** ** The intent analyzer *)

Lemma confidence_level_low (c : float) :
  (c <? 0.4)%float = true -> confidence_level c = LOW.
Proof. unfold confidence_level. now intros ->. Qed.

Lemma confidence_level_medium (c : float) :
  (0.4 <=? c)%float = true -> (c <? 0.7)%float = true ->
  confidence_level c = MEDIUM.
Proof.
  unfold confidence_level. intros H1 ->. now rewrite (leb_not_ltb _ _ H1).
Qed.

Lemma confidence_level_high (c : float) :
  (0.7 <=? c)%float = true -> confidence_level c = HIGH.
Proof.
  unfold confidence_level. intros H.
  now rewrite (ge_07_not_lt_04 _ H), (leb_not_ltb _ _ H).
Qed.

Lemma parse_signal_confidence (indet : Indeterminate) (now : Time) (dict : Dict) :
  Signal.confidence_score (parse_signal indet now dict) =
    match FindDouble "confidence" dict with
    | Some c => c
    | None => indet_score indet
    end
  /\ Signal.confidence (parse_signal indet now dict) =
    match FindDouble "confidence" dict with
    | Some c => confidence_level c
    | None => indet_confidence indet
    end.
Proof.
  unfold parse_signal.
  destruct (FindString "type" dict), (FindDouble "confidence" dict),
    (FindString "category" dict); split; reflexivity.
Qed.

(** C8. A record with confidence [c] gets the score [c] and the level
    [confidence_level c], which is Low below 0.4, Medium from 0.4 up to but
    not including 0.7, and High from 0.7 on: 0.39 is Low, 0.40 and 0.69 are
    Medium, 0.70 is High. *)
Theorem confidence_bucketing (indet : Indeterminate) (now : Time) (dict : Dict)
    (c : float) :
  FindDouble "confidence" dict = Some c ->
  Signal.confidence_score (parse_signal indet now dict) = c
  /\ Signal.confidence (parse_signal indet now dict) = confidence_level c
  /\ ((c <? 0.4)%float = true -> confidence_level c = LOW)
  /\ ((0.4 <=? c)%float = true -> (c <? 0.7)%float = true ->
      confidence_level c = MEDIUM)
  /\ ((0.7 <=? c)%float = true -> confidence_level c = HIGH)
  /\ confidence_level 0.39 = LOW
  /\ confidence_level 0.40 = MEDIUM
  /\ confidence_level 0.69 = MEDIUM
  /\ confidence_level 0.70 = HIGH.
Proof.
  intros H. destruct (parse_signal_confidence indet now dict) as [Hs Hl].
  rewrite H in Hs, Hl.
  split; [exact Hs|]. split; [exact Hl|].
  split; [apply confidence_level_low|].
  split; [apply confidence_level_medium|].
  split; [apply confidence_level_high|].
  repeat split.
Qed.

(** The signal of the [i]-th record is made from that record and from the
    readings for it. *)
Lemma parse_items_records (unassigned : nat -> Indeterminate) (clock : nat -> Time)
    (items : list Value) :
  parse_items unassigned clock items =
  imap (fun i dict => parse_signal (unassigned i) (clock i) dict) (records items).
Proof.
  revert unassigned clock.
  induction items as [|[] items IH]; intros unassigned clock; simpl; auto.
  now rewrite IH.
Qed.

(** [AnalyzeEvents] does nothing unless the analyzer is ready and the batch
    is not empty. *)
Lemma AnalyzeEvents_noop (unassigned : nat -> Indeterminate) (clock : nat -> Time)
    (events : list BrowsingEvent) (a : IntentAnalyzer) :
  IsReady a = false \/ events = [] ->
  AnalyzeEvents unassigned clock events a = ([], a).
Proof.
  unfold AnalyzeEvents. intros [->| ->]; [reflexivity|].
  now destruct (negb (IsReady a)).
Qed.

(** C2, at the input where the code departs from it. [ParseResponse] returns
    one signal for every record of the parsed list, in order, whether the
    record has a confidence or not: only entries that are no records are left
    out. The signal of a record without a confidence has the score and the
    level that the unassigned members of its [IntentSignal] read as, and
    [AnalyzeEvents] returns and caches it when that score is at least the
    minimum confidence. *)
Theorem ParseResponse_keeps_every_record
    (unassigned : nat -> Indeterminate) (clock : nat -> Time)
    (response : string) (items : list Value) :
  JSONReader_Read response = Some (VList items) ->
  ParseResponse unassigned clock response =
    imap (fun i dict => parse_signal (unassigned i) (clock i) dict) (records items)
  /\ List.length (ParseResponse unassigned clock response)
     = List.length (records items)
  /\ (forall i dict,
        records items !! i = Some dict ->
        FindDouble "confidence" dict = None ->
        exists signal,
          ParseResponse unassigned clock response !! i = Some signal
          /\ Signal.confidence_score signal = indet_score (unassigned i)
          /\ Signal.confidence signal = indet_confidence (unassigned i))
  /\ (forall events a,
        IsReady a = true -> events <> [] ->
        RunInference a (BuildPrompt events) = response ->
        fst (AnalyzeEvents unassigned clock events a) =
          List.filter
            (fun signal => (min_confidence_ a <=? Signal.confidence_score signal)%float)
            (imap (fun i dict => parse_signal (unassigned i) (clock i) dict)
               (records items))
        /\ cached_intents_ (snd (AnalyzeEvents unassigned clock events a)) =
           fst (AnalyzeEvents unassigned clock events a)).
Proof.
  intros Hread.
  assert (Hp : ParseResponse unassigned clock response =
    imap (fun i dict => parse_signal (unassigned i) (clock i) dict) (records items)).
  { unfold ParseResponse. rewrite Hread. apply parse_items_records. }
  split; [exact Hp|]. split; [now rewrite Hp, length_imap|]. split.
  - intros i dict Hi Hnone. exists (parse_signal (unassigned i) (clock i) dict).
    split; [now rewrite Hp, list_lookup_imap, Hi|].
    destruct (parse_signal_confidence (unassigned i) (clock i) dict) as [Hs Hl].
    now rewrite Hnone in Hs, Hl.
  - intros events a Hready Hne Hrun. unfold AnalyzeEvents.
    rewrite Hready. simpl negb. cbv iota.
    destruct events as [|event events]; [contradiction|].
    rewrite Hrun, Hp. split; reflexivity.
Qed.


(** ** The regular-expression matcher *)

(** The five patterns are read as intended; none can match the empty string. *)
Lemma kPiiPatterns_parse :
  map Regex.parse kPiiPatterns =
  let d := Regex.digit in
  let one c := Regex.Rep c 1 (Some 1%nat) in
  let upto1 c := Regex.Rep c 0 (Some 1%nat) in
  let exactly n c := Regex.Rep c n (Some n) in
  let seq := fold_right Regex.Seq Regex.WordB in
  [ Some (seq [ Regex.WordB;
                Regex.Rep [(65, 90); (97, 122); (48, 57); (46, 46); (95, 95);
                           (37, 37); (43, 43); (45, 45)]%nat 1 None;
                one [(64, 64)]%nat;
                Regex.Rep [(65, 90); (97, 122); (48, 57); (46, 46); (45, 45)]%nat
                  1 None;
                one [(46, 46)]%nat;
                Regex.Rep [(65, 90); (124, 124); (97, 122)]%nat 2 None ]);
    Some (seq [ Regex.WordB; exactly 3%nat d; upto1 [(45, 45); (46, 46)]%nat;
                exactly 3%nat d; upto1 [(45, 45); (46, 46)]%nat; exactly 4%nat d ]);
    Some (seq [ Regex.WordB; exactly 3%nat d; upto1 [(45, 45)]%nat;
                exactly 2%nat d; upto1 [(45, 45)]%nat; exactly 4%nat d ]);
    Some (seq [ Regex.WordB; exactly 16%nat d ]);
    Some (seq [ Regex.WordB; exactly 5%nat d;
                Regex.Opt (Regex.Seq (one [(45, 45)]%nat) (exactly 4%nat d)) ]) ].
Proof. vm_compute. reflexivity. Qed.

Lemma kPiiPatterns_min_len :
  Forall (fun pattern =>
            exists re, Regex.parse pattern = Some re /\ (1 <= Regex.min_len re)%nat)
    kPiiPatterns.
Proof.
  repeat constructor; eexists; (split; [vm_compute; reflexivity | simpl; lia]).
Qed.

Section Matcher.

Variable icase : bool.

Lemma firstn_plus {A : Type} (m1 m2 : nat) (l : list A) :
  firstn (m1 + m2) l = (firstn m1 l ++ firstn m2 (skipn m1 l))%list.
Proof.
  revert l; induction m1 as [|m1 IH]; intros [|x l]; simpl; try reflexivity.
  - now destruct m2.
  - now rewrite IH.
Qed.

Lemma rep_match_consumed (c : Regex.cls) (s : list ascii) :
  forall lo hi prev n (k : Regex.cont) x,
    Regex.rep_match icase c lo hi prev s n k = Some x ->
    exists p' m,
      (m <= List.length s)%nat /\ (lo <= m)%nat
      /\ Forall (fun a => Regex.in_class icase c a = true) (firstn m s)
      /\ k p' (skipn m s) (n + m)%nat = Some x.
Proof.
  induction s as [|a s IH]; intros lo hi prev n k x; simpl.
  - destruct lo; [|discriminate]. intros H.
    exists prev, O. rewrite Nat.add_0_r. close_consumed. constructor.
  - assert (Hstop :
      match lo with O => k prev (a :: s) n | S _ => None end = Some x ->
      exists p' m, (m <= S (List.length s))%nat /\ (lo <= m)%nat
                   /\ Forall (fun a => Regex.in_class icase c a = true)
                        (firstn m (a :: s))
                   /\ k p' (skipn m (a :: s)) (n + m)%nat = Some x).
    { destruct lo; [|discriminate]. intros H.
      exists prev, O. rewrite Nat.add_0_r. close_consumed. constructor. }
    destruct (Regex.can_take hi && Regex.in_class icase c a) eqn:Ein;
      [|exact Hstop].
    apply andb_true_iff in Ein as [_ Ein].
    destruct (Regex.rep_match icase c (Nat.pred lo) (option_map Nat.pred hi)
                (Some a) s (S n) k) as [y|] eqn:E; [|exact Hstop].
    intros [= <-]. apply IH in E as (p' & m & Hm & Hlo & Hall & Hk).
    exists p', (S m). rewrite Nat.add_succ_r. close_consumed.
    now constructor.
Qed.

(** A successful run hands its continuation the input behind the characters
    it matched: at least [min_len r] characters, each of a class of [r]. *)
Lemma run_consumed (r : Regex.regex) :
  forall prev s n (k : Regex.cont) x,
    Regex.run icase r prev s n k = Some x ->
    exists p' m,
      (m <= List.length s)%nat /\ (Regex.min_len r <= m)%nat
      /\ Forall (fun a => Regex.any_class icase r a = true) (firstn m s)
      /\ k p' (skipn m s) (n + m)%nat = Some x.
Proof.
  induction r as [| |c lo hi|r IH|r1 IH1 r2 IH2]; intros prev s n k x; simpl.
  - intros H. exists prev, O. rewrite Nat.add_0_r. close_consumed. constructor.
  - destruct (xorb _ _); [|discriminate].
    intros H. exists prev, O. rewrite Nat.add_0_r. close_consumed. constructor.
  - apply rep_match_consumed.
  - destruct (Regex.run icase r prev s n k) as [y|] eqn:E.
    + intros [= <-]. apply IH in E as (p' & m & Hm & _ & Hall & Hk).
      exists p', m. close_consumed.
    + intros H. exists prev, O. rewrite Nat.add_0_r. close_consumed. constructor.
  - intros H. apply IH1 in H as (p1 & m1 & Hm1 & Hmin1 & Hall1 & H).
    apply IH2 in H as (p2 & m2 & Hm2 & Hmin2 & Hall2 & H).
    rewrite length_skipn in Hm2. rewrite skipn_skipn, <- Nat.add_assoc in H.
    replace (m2 + m1)%nat with (m1 + m2)%nat in H by lia.
    exists p2, (m1 + m2)%nat. close_consumed.
    rewrite firstn_plus. apply Forall_app. split.
    + eapply List.Forall_impl; [|exact Hall1]. simpl. now intros a ->.
    + eapply List.Forall_impl; [|exact Hall2]. simpl. intros a ->.
      apply orb_true_r.
Qed.

(** A match is no longer than the input and no shorter than [min_len]; its
    characters belong to the classes of the pattern. *)
Lemma match_at_bounds (r : Regex.regex) prev s x :
  Regex.match_at icase r prev s = Some x ->
  (Regex.min_len r <= x <= List.length s)%nat.
Proof.
  unfold Regex.match_at. intros H.
  apply run_consumed in H as (p' & m & Hm & Hmin & _ & [= <-]). simpl. lia.
Qed.

Lemma match_at_chars (r : Regex.regex) prev s x :
  Regex.match_at icase r prev s = Some x ->
  Forall (fun a => Regex.any_class icase r a = true) (firstn x s).
Proof.
  unfold Regex.match_at. intros H.
  now apply run_consumed in H as (p' & m & Hm & Hmin & Hall & [= <-]).
Qed.

Lemma last_cons (a c : ascii) (l : list ascii) :
  List.last (a :: l) c = List.last l a.
Proof.
  revert a c; induction l as [|b l IH]; intros a c; [reflexivity|].
  change (List.last (a :: b :: l) c) with (List.last (b :: l) c).
  now rewrite (IH b c), (IH b a).
Qed.

Lemma replace_scan_skip (r : Regex.regex) (fmt : list ascii) (n : nat) :
  forall s c,
    (n <= List.length s)%nat ->
    Regex.replace_scan icase r fmt (Some c) s n =
    Regex.replace_scan icase r fmt (Some (List.last (firstn n s) c)) (skipn n s) O.
Proof.
  induction n as [|n IH]; intros s c Hn.
  - reflexivity.
  - destruct s as [|a s]; [simpl in Hn; lia|].
    cbn [Regex.replace_scan firstn skipn]. rewrite last_cons.
    apply IH. simpl in Hn. lia.
Qed.

(** [regex_replace] computes the replacement the relation describes, for
    every pattern that cannot match the empty string. *)
Lemma replace_scan_Replaced (r : Regex.regex) (fmt : list ascii) :
  (1 <= Regex.min_len r)%nat ->
  forall s prev,
    Replaced icase r fmt prev s (Regex.replace_scan icase r fmt prev s O).
Proof.
  intros Hmin s.
  induction s as [s IH] using (induction_ltof1 _ (@List.length ascii)).
  unfold ltof in IH. intros prev. destruct s as [|c s].
  - cbn [Regex.replace_scan].
    destruct (Regex.match_at icase r prev []) as [x|] eqn:E.
    + apply match_at_bounds in E. simpl in E. lia.
    + now constructor.
  - cbn [Regex.replace_scan].
    destruct (Regex.match_at icase r prev (c :: s)) as [[|n]|] eqn:E.
    + apply match_at_bounds in E. lia.
    + pose proof (match_at_bounds _ _ _ _ E) as [_ Hn]. simpl in Hn.
      rewrite replace_scan_skip by lia.
      apply (Replaced_match icase r fmt prev c s n); [exact E | lia |].
      apply IH. rewrite length_skipn. simpl. lia.
    + apply Replaced_keep; [exact E|]. apply IH. simpl. lia.
Qed.

(** *** Scanning past text that cannot match, and over a match *)

Lemma prev_after_cons (prev : option ascii) (c : ascii) (p : list ascii) :
  Regex.prev_after prev (c :: p) = Some (List.last p c).
Proof.
  unfold Regex.prev_after. simpl. clear prev.
  revert c; induction p as [|d p IH]; intros c; [reflexivity|].
  simpl fold_left. rewrite IH. now rewrite last_cons.
Qed.

Lemma scan_nil (r : Regex.regex) (fmt : list ascii) prev :
  (1 <= Regex.min_len r)%nat ->
  Regex.replace_scan icase r fmt prev [] O = [].
Proof.
  intros Hmin. cbn [Regex.replace_scan].
  destruct (Regex.match_at icase r prev []) as [x|] eqn:E; [|reflexivity].
  apply match_at_bounds in E. simpl in E. lia.
Qed.

Lemma scan_no_match_in (r : Regex.regex) (fmt a rest : list ascii) :
  forall prev,
    Regex.no_match_in icase r prev a rest = true ->
    Regex.replace_scan icase r fmt prev (a ++ rest) O =
    (a ++ Regex.replace_scan icase r fmt (Regex.prev_after prev a) rest O)%list.
Proof.
  induction a as [|c a IH]; intros prev H; [reflexivity|].
  cbn [Regex.no_match_in] in H.
  change ((c :: a) ++ rest)%list with (c :: (a ++ rest))%list in *.
  cbn [Regex.replace_scan].
  destruct (Regex.match_at icase r prev (c :: (a ++ rest))%list); [discriminate|].
  now rewrite (IH _ H).
Qed.

Lemma scan_match (r : Regex.regex) (fmt : list ascii) prev c (p b : list ascii) :
  Regex.match_at icase r prev (c :: p ++ b) = Some (S (List.length p)) ->
  Regex.replace_scan icase r fmt prev (c :: p ++ b) O =
  (fmt ++ Regex.replace_scan icase r fmt (Regex.prev_after prev (c :: p)) b O)%list.
Proof.
  intros H. cbn [Regex.replace_scan]. rewrite H.
  rewrite replace_scan_skip by (rewrite length_app; lia).
  now rewrite take_app_length, drop_app_length, prev_after_cons.
Qed.

(** A match starts with a character of a class of the pattern. *)
Lemma match_at_first (r : Regex.regex) prev c s x :
  (1 <= Regex.min_len r)%nat ->
  Regex.match_at icase r prev (c :: s) = Some x ->
  Regex.any_class icase r c = true.
Proof.
  intros Hmin H. pose proof (match_at_bounds _ _ _ _ H) as [Hx _].
  apply match_at_chars in H. destruct x as [|x]; [lia|].
  now apply Forall_inv in H.
Qed.

Lemma no_match_in_inert (r : Regex.regex) (a rest : list ascii) :
  (1 <= Regex.min_len r)%nat ->
  Forall (fun c => Regex.any_class icase r c = false) a ->
  forall prev, Regex.no_match_in icase r prev a rest = true.
Proof.
  intros Hmin Ha. induction Ha as [|c a Hc Ha IH]; intros prev; [reflexivity|].
  cbn [Regex.no_match_in].
  destruct (Regex.match_at icase r prev ((c :: a) ++ rest)) as [x|] eqn:E;
    [|apply IH].
  apply (match_at_first _ _ _ _ _ Hmin) in E. congruence.
Qed.

Lemma count_matches_skip (r : Regex.regex) (n : nat) :
  forall s c,
    (n <= List.length s)%nat ->
    Regex.count_matches icase r (Some c) s n =
    Regex.count_matches icase r (Some (List.last (firstn n s) c)) (skipn n s) O.
Proof.
  induction n as [|n IH]; intros s c Hn.
  - reflexivity.
  - destruct s as [|a s]; [simpl in Hn; lia|].
    cbn [Regex.count_matches firstn skipn]. rewrite last_cons.
    apply IH. simpl in Hn. lia.
Qed.

End Matcher.


(** ** [SanitizeSearchQuery] *)

Lemma count_occurrences_unfold (p s : string) :
  count_occurrences p s =
  ((if Str.starts_with p s then 1 else 0) +
   match s with
   | EmptyString => 0
   | String _ s' => count_occurrences p s'
   end)%nat.
Proof. destruct s; reflexivity. Qed.

Lemma find_None_count (p s : string) :
  Str.find p s = None -> count_occurrences p s = 0%nat.
Proof.
  induction s as [|c s IH]; rewrite find_unfold, count_occurrences_unfold;
    destruct (Str.starts_with p _); try discriminate; [reflexivity|].
  destruct (Str.find p s); [discriminate|]. intros _. now rewrite IH.
Qed.

(** Two occurrences of the marker do not overlap. *)
Lemma marker_then_rest (rest : string) :
  count_occurrences kRedacted (kRedacted ++ rest) =
  S (count_occurrences kRedacted rest).
Proof.
  unfold kRedacted. cbn [String.append].
  do 10 (rewrite count_occurrences_unfold; cbn [Str.starts_with Ascii.eqb Bool.eqb andb]).
  destruct rest; reflexivity.
Qed.

Lemma find_Some_count (s : string) :
  forall i,
    Str.find kRedacted s = Some i ->
    count_occurrences kRedacted s =
    S (count_occurrences kRedacted (Str.drop (i + 10) s)).
Proof.
  induction s as [|c s IH]; intros i; rewrite find_unfold.
  - discriminate.
  - destruct (Str.starts_with kRedacted (String c s)) eqn:E.
    + intros [= <-]. apply starts_with_spec in E as [rest ->].
      rewrite marker_then_rest.
      change (0 + 10)%nat with (String.length kRedacted).
      now rewrite drop_length_append.
    + destruct (Str.find kRedacted s) as [j|]; [|discriminate].
      intros [= <-]. rewrite count_occurrences_unfold, E.
      now rewrite (IH j eq_refl).
Qed.

(** The counting loop has fuel to spare and counts every occurrence. *)
Lemma count_redacted_correct (result : string) :
  forall fuel pos n,
    (pos <= String.length result)%nat ->
    (String.length result - pos < fuel)%nat ->
    count_redacted fuel result pos n =
    (n + count_occurrences kRedacted (Str.drop pos result))%nat.
Proof.
  induction fuel as [|fuel IH]; intros pos n Hpos Hfuel; [lia|].
  cbn [count_redacted]. unfold Str.find_from.
  replace (pos <=? String.length result)%nat with true
    by (symmetry; apply Nat.leb_le; exact Hpos).
  destruct (Str.find kRedacted (Str.drop pos result)) as [i|] eqn:E; simpl.
  - pose proof (find_length _ _ _ E) as Hi. rewrite length_drop in Hi.
    change (String.length kRedacted) with 10%nat in Hi.
    rewrite IH by lia.
    rewrite (find_Some_count _ _ E), drop_drop.
    replace (pos + (i + 10))%nat with (pos + i + 10)%nat by lia. lia.
  - rewrite (find_None_count _ _ E). lia.
Qed.

(** *** Counting markers *)

Lemma is_prefix_app (p r : list ascii) : is_prefix p (p ++ r) = true.
Proof.
  induction p as [|a p IH]; [reflexivity|].
  simpl. now rewrite Ascii.eqb_refl, IH.
Qed.

Lemma is_prefix_spec (p l : list ascii) :
  is_prefix p l = true -> exists r, l = (p ++ r)%list.
Proof.
  revert l; induction p as [|a p IH]; intros l; simpl.
  - intros _. now exists l.
  - destruct l as [|b l]; [discriminate|].
    rewrite andb_true_iff, Ascii.eqb_eq. intros [-> H].
    destruct (IH _ H) as [r ->]. now exists r.
Qed.

Lemma list_ascii_of_string_append (a b : string) :
  list_ascii_of_string (a ++ b) =
  (list_ascii_of_string a ++ list_ascii_of_string b)%list.
Proof. induction a as [|c a IH]; simpl; [reflexivity | now rewrite IH]. Qed.

Lemma string_of_list_ascii_app (a b : list ascii) :
  string_of_list_ascii (a ++ b) = string_of_list_ascii a ++ string_of_list_ascii b.
Proof. induction a as [|c a IH]; simpl; [reflexivity | now rewrite IH]. Qed.

Lemma starts_with_is_prefix (p s : string) :
  Str.starts_with p s = is_prefix (list_ascii_of_string p) (list_ascii_of_string s).
Proof.
  revert s; induction p as [|a p IH]; intros [|b s]; simpl; try reflexivity.
  now rewrite IH.
Qed.

Lemma count_occurrences_list (p s : string) :
  count_occurrences p s =
  count_list (list_ascii_of_string p) (list_ascii_of_string s).
Proof.
  induction s as [|c s IH]; rewrite count_occurrences_unfold, starts_with_is_prefix.
  - reflexivity.
  - simpl. now rewrite IH.
Qed.

Lemma count_list_unfold (p l : list ascii) :
  count_list p l =
  ((if is_prefix p l then 1 else 0) +
   match l with
   | [] => 0
   | _ :: l' => count_list p l'
   end)%nat.
Proof. destruct l; reflexivity. Qed.

Lemma count_list_marker (rest : list ascii) :
  count_list (list_ascii_of_string kRedacted) (list_ascii_of_string kRedacted ++ rest)
  = S (count_list (list_ascii_of_string kRedacted) rest).
Proof.
  rewrite <- (list_ascii_of_string_of_list_ascii rest).
  rewrite <- list_ascii_of_string_append, <- !count_occurrences_list.
  apply marker_then_rest.
Qed.

(** Text without an opening bracket holds no start of a marker. *)
Lemma count_list_inert (a rest : list ascii) :
  Forall (fun c => c <> "["%char) a ->
  count_list (list_ascii_of_string kRedacted) (a ++ rest) =
  count_list (list_ascii_of_string kRedacted) rest.
Proof.
  induction 1 as [|c a Hc Ha IH]; [reflexivity|].
  change ((c :: a) ++ rest)%list with (c :: (a ++ rest))%list.
  rewrite count_list_unfold, IH.
  replace (is_prefix (list_ascii_of_string kRedacted) (c :: (a ++ rest))%list)
    with false; [reflexivity|].
  symmetry.
  change (list_ascii_of_string kRedacted)
    with ("["%char :: tl (list_ascii_of_string kRedacted)).
  cbn [is_prefix]. apply andb_false_iff. left.
  apply Ascii.eqb_neq. congruence.
Qed.

Lemma count_list_cons_le (p : list ascii) (c : ascii) (l : list ascii) :
  (count_list p l <= count_list p (c :: l))%nat.
Proof. rewrite (count_list_unfold p (c :: l)). lia. Qed.

Section Rounds.

Variable icase : bool.
Variable r : Regex.regex.
Hypothesis Hmin : (1 <= Regex.min_len r)%nat.

#[local] Abbreviation M := (list_ascii_of_string kRedacted).

(** Every replaced match shows as a marker in the result. *)
Lemma count_matches_le (s : list ascii) :
  forall prev,
    (Regex.count_matches icase r prev s O
     <= count_list M (Regex.replace_scan icase r M prev s O))%nat.
Proof.
  induction s as [s IH] using (induction_ltof1 _ (@List.length ascii)).
  unfold ltof in IH. intros prev. destruct s as [|c s].
  - rewrite scan_nil by exact Hmin. cbn [Regex.count_matches].
    destruct (Regex.match_at icase r prev []) as [x|] eqn:E; [|lia].
    apply match_at_bounds in E. simpl in E. lia.
  - cbn [Regex.replace_scan Regex.count_matches].
    destruct (Regex.match_at icase r prev (c :: s)) as [[|n]|] eqn:E.
    + apply match_at_bounds in E. lia.
    + pose proof (match_at_bounds _ _ _ _ _ E) as [_ Hn]. simpl in Hn.
      rewrite replace_scan_skip, count_matches_skip by lia.
      rewrite count_list_marker. apply le_n_S, IH.
      rewrite length_skipn. simpl. lia.
    + etransitivity; [apply IH; simpl; lia | apply count_list_cons_le].
Qed.

(** A pattern none of whose classes holds a character of the marker leaves
    every marker of the subject in place. *)
Hypothesis Hinert :
  Forall (fun c => Regex.any_class icase r c = false) M.

Lemma matched_no_bracket (c : ascii) :
  Regex.any_class icase r c = true -> c <> "["%char.
Proof.
  intros Hc ->. apply Forall_inv in Hinert. congruence.
Qed.

Lemma scan_count_mono (s : list ascii) :
  forall prev,
    (count_list M s <= count_list M (Regex.replace_scan icase r M prev s O))%nat.
Proof.
  induction s as [s IH] using (induction_ltof1 _ (@List.length ascii)).
  unfold ltof in IH. intros prev. destruct s as [|c s].
  - now rewrite scan_nil.
  - cbn [Regex.replace_scan].
    destruct (Regex.match_at icase r prev (c :: s)) as [[|n]|] eqn:E.
    + apply match_at_bounds in E. lia.
    + pose proof (match_at_bounds _ _ _ _ _ E) as [_ Hn]. simpl in Hn.
      pose proof (match_at_chars _ _ _ _ _ E) as Hchars.
      rewrite replace_scan_skip by lia. rewrite count_list_marker.
      rewrite <- (firstn_skipn (S n) (c :: s)) at 1.
      rewrite count_list_inert.
      * cbn [skipn]. apply Nat.le_le_succ_r, IH.
        rewrite length_skipn. simpl. lia.
      * eapply List.Forall_impl; [|exact Hchars].
        intros a. apply matched_no_bracket.
    + rewrite (count_list_unfold M (c :: s)),
        (count_list_unfold M (c :: Regex.replace_scan icase r M (Some c) s O)).
      specialize (IH s (Nat.lt_succ_diag_r _) (Some c)).
      destruct (is_prefix M (c :: s)) eqn:Hp; [|lia].
      apply is_prefix_spec in Hp as [t Ht].
      assert (Hc : c = "["%char) by (now injection Ht).
      assert (Hs : s = (tl M ++ t)%list) by (now injection Ht).
      clear Ht. subst c s.
      assert (Hscan :
        Regex.replace_scan icase r M (Some "["%char) (tl M ++ t) O =
        (tl M ++ Regex.replace_scan icase r M
                   (Regex.prev_after (Some "["%char) (tl M)) t O)%list).
      { apply scan_no_match_in, no_match_in_inert; [exact Hmin|].
        now apply Forall_inv_tail in Hinert. }
      rewrite Hscan in *.
      assert (Hcons : forall x : list ascii,
                ("["%char :: (tl M ++ x))%list = (M ++ x)%list)
        by reflexivity.
      rewrite Hcons, is_prefix_app. lia.
Qed.

End Rounds.

(** *** The rounds of the first loop *)

#[local] Abbreviation marker := (list_ascii_of_string kRedacted).

Lemma redact_pattern_scan (pattern : string) :
  In pattern kPiiPatterns ->
  exists re,
    Regex.parse pattern = Some re
    /\ (1 <= Regex.min_len re)%nat
    /\ forall subject,
         redact_pattern subject pattern =
         string_of_list_ascii
           (Regex.replace_scan true re marker None (list_ascii_of_string subject) O).
Proof.
  intros Hin. pose proof kPiiPatterns_min_len as HF.
  rewrite List.Forall_forall in HF. destruct (HF _ Hin) as (re & Hp & Hmin).
  exists re. split; [exact Hp|]. split; [exact Hmin|].
  intros subject. unfold redact_pattern. now rewrite Hp.
Qed.

(** Each round of the first loop replaces, from the left, every match of its
    pattern in the text the round before left. *)
Lemma redact_pattern_Replaced (pattern subject : string) :
  In pattern kPiiPatterns ->
  exists re,
    Regex.parse pattern = Some re
    /\ Replaced true re marker None
         (list_ascii_of_string subject)
         (list_ascii_of_string (redact_pattern subject pattern)).
Proof.
  intros Hin. destruct (redact_pattern_scan pattern Hin) as (re & Hp & Hmin & Hscan).
  exists re. split; [exact Hp|].
  rewrite Hscan, list_ascii_of_string_of_list_ascii.
  now apply replace_scan_Replaced.
Qed.

(** A round whose pattern matches nowhere changes nothing. *)
Lemma redact_matches_nowhere (pattern subject : string) :
  In pattern kPiiPatterns ->
  matches_nowhere pattern subject = true ->
  redact_pattern subject pattern = subject.
Proof.
  intros Hin H. destruct (redact_pattern_scan pattern Hin) as (re & Hp & Hmin & Hscan).
  unfold matches_nowhere in H. rewrite Hp in H.
  rewrite Hscan. rewrite <- (app_nil_r (list_ascii_of_string subject)).
  rewrite (scan_no_match_in _ _ _ _ _ _ H), scan_nil, !app_nil_r by exact Hmin.
  apply string_of_list_ascii_of_string.
Qed.

(** A round whose pattern matches [p] and nothing else replaces [p]. *)
Lemma redact_sole_match (pattern a p b : string) :
  In pattern kPiiPatterns ->
  sole_match pattern a p b = true ->
  redact_pattern (a ++ p ++ b) pattern = a ++ kRedacted ++ b.
Proof.
  intros Hin H. destruct (redact_pattern_scan pattern Hin) as (re & Hp & Hmin & Hscan).
  unfold sole_match in H. rewrite Hp in H. cbv zeta in H.
  apply andb_true_iff in H as [H H4]. apply andb_true_iff in H as [H H3].
  apply andb_true_iff in H as [H1 H2].
  destruct (Regex.match_at true re
              (Regex.prev_after None (list_ascii_of_string a))
              (list_ascii_of_string p ++ list_ascii_of_string b)) as [n|] eqn:E;
    [|discriminate].
  apply Nat.eqb_eq in H3. subst n.
  destruct p as [|c p]; [discriminate|]. clear H2.
  rewrite Hscan, !list_ascii_of_string_append.
  rewrite (scan_no_match_in _ _ _ _ _ _ H1).
  cbn [list_ascii_of_string] in *.
  change ((c :: list_ascii_of_string p) ++ list_ascii_of_string b)%list
    with (c :: list_ascii_of_string p ++ list_ascii_of_string b)%list in *.
  cbn [List.length] in E.
  rewrite (scan_match _ _ _ _ _ _ _ E).
  unfold Regex.prev_after in H4 |- *. rewrite fold_left_app in H4.
  rewrite <- (app_nil_r (list_ascii_of_string b)) at 1.
  rewrite (scan_no_match_in _ _ _ _ _ _ H4), scan_nil, !app_nil_r by exact Hmin.
  rewrite !string_of_list_ascii_app, !string_of_list_ascii_of_string.
  reflexivity.
Qed.

(** The four patterns behind the email pattern match digits, dashes and dots
    only: their rounds never take a marker away. *)
Lemma digit_patterns_inert :
  Forall (fun pattern =>
            exists re,
              Regex.parse pattern = Some re
              /\ (1 <= Regex.min_len re)%nat
              /\ Forall (fun c => Regex.any_class true re c = false) marker)
    (tl kPiiPatterns).
Proof.
  repeat constructor; eexists;
    (split; [vm_compute; reflexivity | split; [simpl; lia | repeat constructor]]).
Qed.

Lemma redact_count_mono (patterns : list string) :
  Forall (fun pattern =>
            exists re,
              Regex.parse pattern = Some re
              /\ (1 <= Regex.min_len re)%nat
              /\ Forall (fun c => Regex.any_class true re c = false) marker)
    patterns ->
  forall subject,
    (count_occurrences kRedacted subject
     <= count_occurrences kRedacted (fold_left redact_pattern patterns subject))%nat.
Proof.
  induction 1 as [|pattern patterns (re & Hp & Hmin & Hinert) _ IH];
    intros subject; [reflexivity|].
  cbn [fold_left]. etransitivity; [|apply IH].
  unfold redact_pattern at 1. rewrite Hp. unfold Regex.regex_replace.
  rewrite !count_occurrences_list, list_ascii_of_string_of_list_ascii.
  now apply scan_count_mono.
Qed.

Lemma email_round_count (query : string) :
  (email_matches query
   <= count_occurrences kRedacted (redact_pattern query (pii_pattern 0)))%nat.
Proof.
  destruct (redact_pattern_scan (pii_pattern 0)) as (re & Hp & Hmin & Hscan);
    [now left|].
  unfold email_matches. rewrite Hp, Hscan.
  rewrite count_occurrences_list, list_ascii_of_string_of_list_ascii.
  now apply count_matches_le.
Qed.

(** C6. [SanitizeSearchQuery] replaces the matches of the five patterns, one
    pattern after the other in the order email, phone, SSN, card, ZIP, by the
    marker, and returns the empty string when the result holds more than two
    markers (the result itself otherwise). A query in which the email pattern
    finds three matches or more is suppressed. A query [a ++ p ++ b] in which
    the phone pattern matches [p] and nothing else, and no other pattern
    matches, comes back as [a ++ "[REDACTED]" ++ b]. *)
Theorem SanitizeSearchQuery_correct :
  (forall query, SanitizeSearchQuery query = SanitizeSearchQuery_spec query)
  /\ (forall pattern subject,
        In pattern kPiiPatterns ->
        exists re,
          Regex.parse pattern = Some re
          /\ Replaced true re (list_ascii_of_string kRedacted) None
               (list_ascii_of_string subject)
               (list_ascii_of_string (redact_pattern subject pattern)))
  /\ (forall query,
        (2 < count_occurrences kRedacted (fold_left redact_pattern kPiiPatterns query))%nat ->
        SanitizeSearchQuery query = "")
  /\ (forall query, (3 <= email_matches query)%nat -> SanitizeSearchQuery query = "")
  /\ (forall a p b,
        matches_nowhere (pii_pattern 0) (a ++ p ++ b) = true ->
        sole_match (pii_pattern 1) a p b = true ->
        matches_nowhere (pii_pattern 2) (a ++ kRedacted ++ b) = true ->
        matches_nowhere (pii_pattern 3) (a ++ kRedacted ++ b) = true ->
        matches_nowhere (pii_pattern 4) (a ++ kRedacted ++ b) = true ->
        (count_occurrences kRedacted (a ++ kRedacted ++ b) <= 2)%nat ->
        SanitizeSearchQuery (a ++ p ++ b) = a ++ kRedacted ++ b)
  /\ SanitizeSearchQuery "mail ann@example.com, bob@example.org or eve@mail.example.net"
     = ""
  /\ SanitizeSearchQuery "pizza near me call 555-123-4567 now"
     = "pizza near me call [REDACTED] now"
  /\ SanitizeSearchQuery "5551234567" = "[REDACTED]"
  /\ SanitizeSearchQuery "rocq prover download" = "rocq prover download".
Proof.
  assert (Hspec : forall query, SanitizeSearchQuery query = SanitizeSearchQuery_spec query).
  { intros query. unfold SanitizeSearchQuery, SanitizeSearchQuery_spec.
    generalize (fold_left redact_pattern kPiiPatterns query). intros result.
    cbv zeta. unfold Str.contains.
    destruct (Str.find kRedacted result) as [i|] eqn:E.
    - rewrite count_redacted_correct by lia. reflexivity.
    - now rewrite (find_None_count _ _ E). }
  assert (Hmany : forall query,
    (2 < count_occurrences kRedacted (fold_left redact_pattern kPiiPatterns query))%nat ->
    SanitizeSearchQuery query = "").
  { intros query H. rewrite Hspec. unfold SanitizeSearchQuery_spec. cbv zeta.
    now replace (2 <? _)%nat with true by (symmetry; apply Nat.ltb_lt; exact H). }
  split; [exact Hspec|]. split; [exact redact_pattern_Replaced|].
  split; [exact Hmany|]. split; [|split].
  - intros query H. apply Hmany.
    change (fold_left redact_pattern kPiiPatterns query)
      with (fold_left redact_pattern (tl kPiiPatterns)
              (redact_pattern query (pii_pattern 0))).
    pose proof (email_round_count query).
    pose proof (redact_count_mono _ digit_patterns_inert
                  (redact_pattern query (pii_pattern 0))).
    lia.
  - intros a p b H0 H1 H2 H3 H4 Hcount. rewrite Hspec.
    unfold SanitizeSearchQuery_spec.
    change (fold_left redact_pattern kPiiPatterns (a ++ p ++ b))
      with (redact_pattern
              (redact_pattern
                 (redact_pattern
                    (redact_pattern
                       (redact_pattern (a ++ p ++ b) (pii_pattern 0))
                       (pii_pattern 1))
                    (pii_pattern 2))
                 (pii_pattern 3))
              (pii_pattern 4)).
    rewrite (redact_matches_nowhere (pii_pattern 0)) by (simpl; auto 6).
    rewrite (redact_sole_match (pii_pattern 1)) by (simpl; auto 6).
    rewrite (redact_matches_nowhere (pii_pattern 2)) by (simpl; auto 6).
    rewrite (redact_matches_nowhere (pii_pattern 3)) by (simpl; auto 6).
    rewrite (redact_matches_nowhere (pii_pattern 4)) by (simpl; auto 6).
    cbv zeta.
    now replace (2 <? _)%nat with false by (symmetry; apply Nat.ltb_ge; exact Hcount).
  - vm_compute. repeat split.
Qed.

(** ** The collector *)

(** [OnPageLoad] checks the three gates, in the order private session,
    disabled, excluded, before it hashes or stores anything. *)
Lemma OnPageLoad_gated (now : Time) (url : GURL) (contents : option WebContents)
    (c : BrowsingDataCollector) :
  IsIncognito contents = true
  \/ IsCollectionEnabled c = false
  \/ IsExcludedSite c url = true ->
  OnPageLoad now url contents c = c.
Proof.
  unfold OnPageLoad. intros [->|[H|H]]; [reflexivity| |].
  - rewrite H. now destruct (IsIncognito contents).
  - rewrite H. now destruct (IsIncognito contents), (negb (IsCollectionEnabled c)).
Qed.

(** Every hook does nothing while collection is disabled. *)
Lemma run_hook_disabled (now : Time) (h : HookCall) (c : BrowsingDataCollector) :
  IsCollectionEnabled c = false -> run_hook now h c = c.
Proof.
  intros H. destruct h as [url contents| | | |]; simpl;
    try (unfold OnPageUnload, OnClick, OnSearchQuery, OnFormSubmit;
         now rewrite H).
  apply OnPageLoad_gated. auto.
Qed.

Lemma OnScroll_disabled (depth : float) (c : BrowsingDataCollector) :
  IsCollectionEnabled c = false -> OnScroll depth c = c.
Proof. unfold OnScroll. now intros ->. Qed.

(** [OnPageUnload] looks at the switch only: whatever the URL, an enabled
    collector stores the event. *)
Lemma OnPageUnload_enabled (now : Time) (url : GURL) (time_on_page : TimeDelta)
    (c : BrowsingDataCollector) :
  IsCollectionEnabled c = true ->
  local_store_ (OnPageUnload now url time_on_page c) =
  StoreEvent
    (set_scroll_depth (current_scroll_depth_ c)
       (set_duration time_on_page (BrowsingEvent_make PAGE_UNLOAD (HashUrl url) now)))
    (local_store_ c).
Proof. unfold OnPageUnload. now intros ->. Qed.

(** C1, at the input where the code departs from it. [OnPageLoad] keeps the
    contract, and every hook honours the switch; but [OnPageUnload] stores its
    event whenever collection is enabled. So for a page unload of a banking URL
    (excluded by the default policy) or of an invalid URL on a new collector,
    the URL is excluded and an event is stored all the same, where the page
    load of the same URL stores nothing. *)
Theorem OnPageUnload_skips_exclusion_gate :
  (forall now url contents c, drops_when_gated now (CallPageLoad url contents) c)
  /\ (forall now h c, IsCollectionEnabled c = false -> run_hook now h c = c)
  /\ (forall now url time_on_page c,
        IsCollectionEnabled c = true ->
        local_store_ (run_hook now (CallPageUnload url time_on_page) c) =
        StoreEvent
          (set_scroll_depth (current_scroll_depth_ c)
             (set_duration time_on_page
                (BrowsingEvent_make PAGE_UNLOAD (HashUrl url) now)))
          (local_store_ c))
  /\ (let c := BrowsingDataCollector_new in
      IsCollectionEnabled c = true
      /\ hook_url_excluded c (CallPageUnload bank_url 5000000) = true
      /\ hook_url_excluded c (CallPageUnload invalid_url 5000000) = true
      /\ GetCollectedEvents (run_hook 1 (CallPageLoad bank_url None) c) = []
      /\ GetCollectedEvents (run_hook 1 (CallPageUnload bank_url 5000000) c) =
         [ {| type := PAGE_UNLOAD; url_hash := HashUrl bank_url; timestamp := 1;
              duration := 5000000; scroll_depth := 0%float; element_type := "";
              search_query := ""; referrer_hash := "" |} ]
      /\ List.length
           (GetCollectedEvents (run_hook 1 (CallPageUnload invalid_url 5000000) c))
         = 1%nat).
Proof.
  split; [|split; [|split]].
  - intros now url contents c H. simpl. now rewrite OnPageLoad_gated.
  - exact run_hook_disabled.
  - intros now url time_on_page c H. now apply OnPageUnload_enabled.
  - repeat split.
Qed.

(** The peak of the scroll depths since the page load is what the page
    unload records. *)
Example scroll_peak_recorded :
  let c := OnScroll 0.2 (OnScroll 0.3 BrowsingDataCollector_new) in
  map scroll_depth (GetCollectedEvents (OnPageUnload 1 bank_url 5000000 c))
  = [0.3%float].
Proof. reflexivity. Qed.

(** A form with a password or payment field is dropped whole. *)
Example form_submit_veto :
  GetCollectedEvents (OnFormSubmit 1 ["text"; "password"] BrowsingDataCollector_new) = []
  /\ map type
       (GetCollectedEvents (OnFormSubmit 1 ["text"; "email"] BrowsingDataCollector_new))
     = [FORM_SUBMIT].
Proof. split; reflexivity. Qed.

(** * Further properties *)

(** ** Characters *)

Lemma to_lower_char_lower (c : ascii) :
  Str.isalpha c = true -> Str.is_lower (Str.to_lower_char c) = true.
Proof using Type.
  unfold Str.isalpha, Str.to_lower_char.
  destruct (Str.is_upper c) eqn:U; simpl; [intros _ | auto].
  unfold Str.is_upper in U. unfold Str.is_lower.
  apply andb_true_iff in U as [U1 U2]. apply Nat.leb_le in U1, U2.
  rewrite nat_ascii_embedding by lia.
  apply andb_true_iff. split; apply Nat.leb_le; lia.
Qed.

Lemma is_lower_not_upper (c : ascii) :
  Str.is_lower c = true -> Str.is_upper c = false.
Proof using Type.
  unfold Str.is_lower, Str.is_upper. intros H.
  apply andb_true_iff in H as [H1 H2]. apply Nat.leb_le in H1, H2.
  apply andb_false_iff. right. apply Nat.leb_gt. lia.
Qed.

Lemma to_lower_char_idem (c : ascii) :
  Str.to_lower_char (Str.to_lower_char c) = Str.to_lower_char c.
Proof using Type.
  destruct (Str.is_upper c) eqn:U.
  - assert (H : Str.is_lower (Str.to_lower_char c) = true)
      by (apply to_lower_char_lower; unfold Str.isalpha; now rewrite U).
    unfold Str.to_lower_char at 1. now rewrite (is_lower_not_upper _ H).
  - unfold Str.to_lower_char. now rewrite U, U.
Qed.

Lemma ToLowerASCII_idem (s : string) :
  Str.ToLowerASCII (Str.ToLowerASCII s) = Str.ToLowerASCII s.
Proof using Type.
  induction s as [|c s IH]; simpl; [reflexivity|].
  now rewrite to_lower_char_idem, IH.
Qed.

Lemma ToLowerASCII_append (a b : string) :
  Str.ToLowerASCII (a ++ b) = Str.ToLowerASCII a ++ Str.ToLowerASCII b.
Proof using Type. induction a as [|c a IH]; simpl; [reflexivity | now rewrite IH]. Qed.

Lemma leading_alpha_prefix (selector : string) :
  exists rest, selector = leading_alpha selector ++ rest.
Proof using Type.
  induction selector as [|c s [rest IH]]; simpl; [now exists ""|].
  destruct (Str.isalpha c).
  - exists rest. simpl. now rewrite <- IH.
  - now exists (String c s).
Qed.

Lemma leading_alpha_lower (selector : string) :
  string_forall Str.is_lower (Str.ToLowerASCII (leading_alpha selector)) = true.
Proof using Type.
  induction selector as [|c s IH]; simpl; [reflexivity|].
  destruct (Str.isalpha c) eqn:A; simpl; [|reflexivity].
  now rewrite (to_lower_char_lower c A), IH.
Qed.

Lemma lower_word_fixed (s : string) :
  string_forall Str.is_lower s = true ->
  Str.ToLowerASCII s = s /\ leading_alpha s = s.
Proof using Type.
  induction s as [|c s IH]; simpl; [auto|].
  intros H. apply andb_true_iff in H as [Hc Hs]. destruct (IH Hs) as [-> ->].
  unfold Str.to_lower_char, Str.isalpha.
  now rewrite (is_lower_not_upper c Hc), Hc.
Qed.

Lemma SanitizeElementSelector_word (selector : string) :
  SanitizeElementSelector selector <> ""
  /\ string_forall Str.is_lower (SanitizeElementSelector selector) = true.
Proof using Type.
  unfold SanitizeElementSelector.
  pose proof (leading_alpha_lower selector) as H.
  destruct (leading_alpha selector) as [|c r]; simpl in *.
  - split; [discriminate | reflexivity].
  - split; [discriminate | exact H].
Qed.

(** X1. Whatever the selector, [SanitizeElementSelector] returns a non-empty
    word of lower-case letters: the word ["unknown"], or the lower-cased
    start of the selector; and it returns its own results unchanged. *)
Theorem SanitizeElementSelector_shape (selector : string) :
  SanitizeElementSelector selector <> ""
  /\ string_forall Str.is_lower (SanitizeElementSelector selector) = true
  /\ (SanitizeElementSelector selector = "unknown"
      \/ exists rest,
           Str.ToLowerASCII selector = SanitizeElementSelector selector ++ rest)
  /\ SanitizeElementSelector (SanitizeElementSelector selector)
     = SanitizeElementSelector selector.
Proof using Type.
  destruct (SanitizeElementSelector_word selector) as [Hne Hlow].
  split; [exact Hne|]. split; [exact Hlow|]. split.
  - unfold SanitizeElementSelector.
    destruct (Str.is_empty (leading_alpha selector)); [now left|right].
    destruct (leading_alpha_prefix selector) as [rest H]. exists (Str.ToLowerASCII rest).
    now rewrite <- ToLowerASCII_append, <- H.
  - destruct (lower_word_fixed _ Hlow) as [Hl Ha].
    unfold SanitizeElementSelector at 1. rewrite Ha, Hl.
    destruct (SanitizeElementSelector selector); [contradiction | reflexivity].
Qed.

(** ** The URL hash *)

Lemma hex_digit_value (k : nat) :
  (k < 16)%nat -> hex_value (hex_digit k) = k /\ is_hex_char (hex_digit k) = true.
Proof using Type.
  intros H.
  do 16 (destruct k as [|k]; [split; vm_compute; reflexivity|]). lia.
Qed.

Lemma byte_digits (c : ascii) :
  (nat_of_ascii c / 16 < 16)%nat /\ (nat_of_ascii c mod 16 < 16)%nat.
Proof using Type.
  pose proof (nat_ascii_bounded c). split.
  - apply Nat.Div0.div_lt_upper_bound. lia.
  - apply Nat.mod_upper_bound. lia.
Qed.

Lemma hex_string_length (s : string) :
  String.length (hex_string s) = (2 * String.length s)%nat.
Proof using Type. induction s as [|c s IH]; simpl; [reflexivity | rewrite IH; lia]. Qed.

Lemma hex_string_hex (s : string) :
  string_forall is_hex_char (hex_string s) = true.
Proof using Type.
  induction s as [|c s IH]; [reflexivity|].
  destruct (byte_digits c) as [Hd Hm].
  cbn [hex_string string_forall].
  now rewrite (proj2 (hex_digit_value _ Hd)), (proj2 (hex_digit_value _ Hm)), IH.
Qed.

Lemma hex_string_inj (s1 s2 : string) :
  hex_string s1 = hex_string s2 -> s1 = s2.
Proof using Type.
  revert s2. induction s1 as [|c1 s1 IH]; intros [|c2 s2]; cbn [hex_string];
    try discriminate; [reflexivity|].
  intros H. injection H as Hd Hm Hs.
  destruct (byte_digits c1) as [Hd1 Hm1], (byte_digits c2) as [Hd2 Hm2].
  apply (f_equal hex_value) in Hd, Hm.
  change (hex_value (hex_digit (nat_of_ascii c1 / 16))
          = hex_value (hex_digit (nat_of_ascii c2 / 16))) in Hd.
  change (hex_value (hex_digit (nat_of_ascii c1 mod 16))
          = hex_value (hex_digit (nat_of_ascii c2 mod 16))) in Hm.
  rewrite !(proj1 (hex_digit_value _ Hd1)), !(proj1 (hex_digit_value _ Hd2)) in Hd.
  rewrite !(proj1 (hex_digit_value _ Hm1)), !(proj1 (hex_digit_value _ Hm2)) in Hm.
  assert (Hn : nat_of_ascii c1 = nat_of_ascii c2).
  { rewrite (Nat.div_mod_eq (nat_of_ascii c1) 16), (Nat.div_mod_eq (nat_of_ascii c2) 16).
    now rewrite Hd, Hm. }
  f_equal; [|now apply IH].
  now rewrite <- (ascii_nat_embedding c1), <- (ascii_nat_embedding c2), Hn.
Qed.

(** X2. [HashUrl] returns two lower-case hexadecimal digits for every byte of
    the SHA-1 digest of the URL text, and nothing else; two URLs get the same
    hash only when their digests are the same. *)
Theorem HashUrl_hex (url : GURL) :
  String.length (HashUrl url) = (2 * String.length (SHA1HashString (spec url)))%nat
  /\ string_forall is_hex_char (HashUrl url) = true
  /\ (forall url',
        HashUrl url = HashUrl url' ->
        SHA1HashString (spec url) = SHA1HashString (spec url')).
Proof using Type.
  unfold HashUrl. split; [apply hex_string_length|].
  split; [apply hex_string_hex|]. intros url'. apply hex_string_inj.
Qed.

(** ** Changing the user's exclusion list *)

Lemma IsExcluded_mono (f g : PrivacyFilter) (url : GURL) :
  user_excluded_domains_ f ⊆ user_excluded_domains_ g ->
  exclude_banking_ g = exclude_banking_ f ->
  exclude_healthcare_ g = exclude_healthcare_ f ->
  exclude_social_media_ g = exclude_social_media_ f ->
  IsExcluded f url = true -> IsExcluded g url = true.
Proof using Type.
  intros Hsub Hb Hh Hs. unfold IsExcluded.
  destruct (is_valid url); simpl; [|reflexivity].
  destruct (IsUserExcluded f (host url)) eqn:U.
  - intros _. apply IsUserExcluded_spec in U.
    replace (IsUserExcluded g (host url)) with true; [reflexivity|].
    symmetry. apply IsUserExcluded_spec.
    destruct U as [U|(e & pre & He & Hhost)]; [left; exact (Hsub _ U)|].
    right. exists e, pre. split; [exact (Hsub _ He) | exact Hhost].
  - replace (IsCategoryExcluded g (host url)) with (IsCategoryExcluded f (host url))
      by (unfold IsCategoryExcluded; now rewrite Hb, Hh, Hs).
    now destruct (IsUserExcluded g (host url)).
Qed.

(** X3. After [AddExcludedDomain], every URL whose host is the lower-cased
    domain, or ends with a dot followed by it, is excluded: whether or not
    the URL is valid and whatever the category switches say. *)
Theorem AddExcludedDomain_excludes (domain : string) (f : PrivacyFilter) (url : GURL) :
  host url = Str.ToLowerASCII domain
  \/ (exists pre, host url = pre ++ "." ++ Str.ToLowerASCII domain) ->
  IsExcluded (AddExcludedDomain domain f) url = true.
Proof using Type.
  intros H. unfold IsExcluded. destruct (is_valid url); simpl; [|reflexivity].
  replace (IsUserExcluded (AddExcludedDomain domain f) (host url)) with true;
    [reflexivity|].
  symmetry. apply IsUserExcluded_spec. unfold AddExcludedDomain. simpl.
  destruct H as [->|[pre ->]]; [left; sets_from_goal|].
  right. exists (Str.ToLowerASCII domain), pre. split; [sets_from_goal | reflexivity].
Qed.

(** X4. [AddExcludedDomain] ignores the case of its argument, changes nothing
    when called a second time with the same domain, and never makes an
    excluded URL collectable. *)
Theorem AddExcludedDomain_grows (domain : string) (f : PrivacyFilter) :
  AddExcludedDomain (Str.ToLowerASCII domain) f = AddExcludedDomain domain f
  /\ AddExcludedDomain domain (AddExcludedDomain domain f) = AddExcludedDomain domain f
  /\ (forall url,
        IsExcluded f url = true -> IsExcluded (AddExcludedDomain domain f) url = true).
Proof using Type.
  split; [|split].
  - unfold AddExcludedDomain. now rewrite ToLowerASCII_idem.
  - unfold AddExcludedDomain, with_domains. simpl. f_equal. sets_from_goal.
  - intros url. apply IsExcluded_mono; try reflexivity.
    unfold AddExcludedDomain. simpl. sets_from_goal.
Qed.

Lemma append_length_neq (pre s : string) : s <> pre ++ "." ++ s.
Proof using Type.
  intros H. apply (f_equal String.length) in H.
  rewrite !length_append in H. simpl in H. lia.
Qed.

(** X5. [RemoveExcludedDomain] never makes a collectable URL excluded; after
    it, the lower-cased domain is user-excluded only as a subdomain of a
    domain still on the list; and removing a domain that was added to a list
    that did not have it gives the filter back as it was. *)
Theorem RemoveExcludedDomain_shrinks (domain : string) (f : PrivacyFilter) :
  (forall url,
     IsExcluded (RemoveExcludedDomain domain f) url = true -> IsExcluded f url = true)
  /\ (IsUserExcluded (RemoveExcludedDomain domain f) (Str.ToLowerASCII domain) = true
      <-> exists excluded pre,
            excluded ∈ user_excluded_domains_ f
            /\ Str.ToLowerASCII domain = pre ++ "." ++ excluded)
  /\ (Str.ToLowerASCII domain ∉ user_excluded_domains_ f ->
      RemoveExcludedDomain domain (AddExcludedDomain domain f) = f).
Proof using Type.
  split; [|split].
  - intros url. apply IsExcluded_mono; try reflexivity.
    unfold RemoveExcludedDomain. simpl. sets_from_goal.
  - rewrite IsUserExcluded_spec. unfold RemoveExcludedDomain. simpl. split.
    + intros [H|(e & pre & He & Hd)]; [revert H; sets_from_goal|].
      exists e, pre. split; [revert He; sets_from_goal | exact Hd].
    + intros (e & pre & He & Hd). right. exists e, pre. split; [|exact Hd].
      apply elem_of_difference. split; [exact He|].
      intros Heq. apply elem_of_singleton in Heq. subst e.
      exact (append_length_neq _ _ Hd).
  - intros Hnew. destruct f as [d b h s].
    unfold RemoveExcludedDomain, AddExcludedDomain, with_domains. simpl in *.
    f_equal. revert Hnew. sets_from_goal.
Qed.

(** X26. Switching a category on excludes every URL whose lower-cased host
    contains one of its keywords; the category test does not depend on the
    case of the host; and with the three categories switched off a valid URL
    is excluded only through the user's list. *)
Theorem category_switches (f : PrivacyFilter) (url : GURL) :
  (forall k, In k kBankingDomains -> occurs_in k (Str.ToLowerASCII (host url)) ->
     IsExcluded (SetBankingExcluded true f) url = true)
  /\ (forall k, In k kHealthcareDomains -> occurs_in k (Str.ToLowerASCII (host url)) ->
        IsExcluded (SetHealthcareExcluded true f) url = true)
  /\ (forall k, In k kSocialMediaDomains -> occurs_in k (Str.ToLowerASCII (host url)) ->
        IsExcluded (SetSocialMediaExcluded true f) url = true)
  /\ IsCategoryExcluded f (Str.ToLowerASCII (host url)) = IsCategoryExcluded f (host url)
  /\ IsExcluded
       (SetBankingExcluded false
          (SetHealthcareExcluded false (SetSocialMediaExcluded false f))) url
     = negb (is_valid url) || IsUserExcluded f (host url).
Proof using Type.
  assert (Hany : forall patterns k,
    In k patterns -> occurs_in k (Str.ToLowerASCII (host url)) ->
    matches_any patterns (host url) = true).
  { intros patterns k Hk Hocc. apply matches_any_spec. now exists k. }
  assert (Hex : forall g,
    IsCategoryExcluded g (host url) = true -> IsExcluded g url = true).
  { intros g H. unfold IsExcluded. rewrite H.
    now destruct (negb (is_valid url)), (IsUserExcluded g (host url)). }
  split; [|split; [|split; [|split]]].
  - intros k Hk Hocc. apply Hex. rewrite IsCategoryExcluded_orb.
    unfold IsBankingSite. rewrite (Hany _ k Hk Hocc). reflexivity.
  - intros k Hk Hocc. apply Hex. rewrite IsCategoryExcluded_orb.
    unfold IsHealthcareSite. rewrite (Hany _ k Hk Hocc). simpl.
    now rewrite orb_true_r.
  - intros k Hk Hocc. apply Hex. rewrite IsCategoryExcluded_orb.
    unfold IsSocialMediaSite. rewrite (Hany _ k Hk Hocc). simpl.
    now rewrite orb_true_r.
  - rewrite !IsCategoryExcluded_orb.
    unfold IsBankingSite, IsHealthcareSite, IsSocialMediaSite, matches_any.
    now rewrite ToLowerASCII_idem.
  - unfold IsExcluded.
    generalize (eq_refl (SetBankingExcluded false
      (SetHealthcareExcluded false (SetSocialMediaExcluded false f)))).
    generalize (SetBankingExcluded false
      (SetHealthcareExcluded false (SetSocialMediaExcluded false f))) at 1 3 4.
    intros g Hg.
    replace (IsCategoryExcluded g (host url)) with false
      by (rewrite IsCategoryExcluded_orb, Hg; reflexivity).
    replace (IsUserExcluded g (host url)) with (IsUserExcluded f (host url))
      by (now rewrite Hg).
    now destruct (is_valid url), (IsUserExcluded f (host url)).
Qed.

(** ** The store: key, range query, eviction *)

(** X6. [Initialize] accepts a key exactly when it has at least 16
    characters. A rejected key leaves the store as it was, a key set before
    included; an accepted key is the only member that changes, and from then
    on [Encrypt] puts the marker in front of its argument and [Decrypt] takes
    it off again. *)
Theorem Initialize_key_floor (key : string) (s : EncryptedStore) :
  (fst (Initialize key s) = true <-> (16 <= String.length key)%nat)
  /\ (fst (Initialize key s) = false -> snd (Initialize key s) = s)
  /\ (fst (Initialize key s) = true ->
      encryption_key_ (snd (Initialize key s)) = key
      /\ events_ (snd (Initialize key s)) = events_ s
      /\ storage_path_ (snd (Initialize key s)) = storage_path_ s
      /\ forall plaintext,
           Encrypt (snd (Initialize key s)) plaintext = kEncryptedPrefix ++ plaintext
           /\ Decrypt (snd (Initialize key s)) (Encrypt (snd (Initialize key s)) plaintext)
              = plaintext).
Proof using Type.
  unfold Initialize. destruct (Nat.ltb_spec (String.length key) 16) as [Hlt|Hge]; simpl.
  - split; [split; [discriminate | lia]|]. split; [reflexivity | discriminate].
  - split; [split; [lia | reflexivity]|]. split; [discriminate|]. intros _.
    repeat (split; [reflexivity|]). intros plaintext.
    assert (Hk : Str.is_empty key = false) by (destruct key; [simpl in Hge; lia | reflexivity]).
    split.
    + unfold Encrypt. simpl. now rewrite Hk.
    + now apply Decrypt_Encrypt.
Qed.


Lemma StoreEvent_key (event : BrowsingEvent) (s : EncryptedStore) :
  encryption_key_ (StoreEvent event s) = encryption_key_ s.
Proof using Type.
  unfold StoreEvent.
  now destruct (kMaxCachedEvents <? Z.of_nat (List.length (events_ s ++ [event]))).
Qed.

Lemma StoreEvents_cons (event : BrowsingEvent) (new : list BrowsingEvent)
    (s : EncryptedStore) :
  StoreEvents (event :: new) s = StoreEvents new (StoreEvent event s).
Proof using Type. reflexivity. Qed.

Lemma StoreEvents_events (new : list BrowsingEvent) (s : EncryptedStore) :
  events_ (StoreEvents new s) =
  skipn (evicted (List.length (events_ s)) (List.length new)) (events_ s ++ new).
Proof using Type.
  revert s. induction new as [|event new IH]; intros s.
  - unfold evicted. simpl. now rewrite app_nil_r.
  - rewrite StoreEvents_cons, IH, StoreEvent_events. unfold GetEventCount, evicted.
    destruct (Z.ltb_spec kMaxCachedEvents (Z.of_nat (List.length (events_ s)) + 1))
      as [Hfull|Hroom]; unfold kMaxCachedEvents in *.
    + destruct (events_ s) as [|oldest rest]; [simpl in Hfull; lia|].
      cbn [tl app List.length] in *. rewrite length_app. cbn [List.length].
      replace (Nat.min (S (List.length new))
                 (S (List.length rest) + S (List.length new) - Z.to_nat 10000))
        with (S (List.length new)) by lia.
      replace (Nat.min (List.length new)
                 (List.length rest + 1 + List.length new - Z.to_nat 10000))
        with (List.length new) by lia.
      cbn [skipn]. now rewrite <- app_assoc.
    + rewrite length_app. cbn [List.length]. rewrite <- app_assoc. cbn [app].
      f_equal. lia.
Qed.

(** X8. Storing a run of events in any store leaves the old and the new
    events in their order, without the oldest [evicted] ones: none while the
    total stays within 10,000, the overflow when the store started within
    capacity, and one per stored event when it started above. A store within
    capacity then holds the smaller of the total and 10,000. *)
Theorem StoreEvents_fifo (new : list BrowsingEvent) (s : EncryptedStore) :
  events_ (StoreEvents new s) =
    skipn (evicted (List.length (events_ s)) (List.length new)) (events_ s ++ new)
  /\ (GetEventCount s + Z.of_nat (List.length new) <= kMaxCachedEvents ->
      events_ (StoreEvents new s) = (events_ s ++ new)%list)
  /\ (GetEventCount s <= kMaxCachedEvents ->
      GetEventCount (StoreEvents new s) =
      Z.min kMaxCachedEvents (GetEventCount s + Z.of_nat (List.length new)))
  /\ (kMaxCachedEvents <= GetEventCount s ->
      GetEventCount (StoreEvents new s) = GetEventCount s).
Proof using Type.
  pose proof (StoreEvents_events new s) as H.
  split; [exact H|]. unfold evicted, GetEventCount, kMaxCachedEvents in *.
  split; [|split]; intros Hc; rewrite H.
  - replace (Nat.min _ _) with 0%nat by lia. reflexivity.
  - rewrite length_skipn, length_app. lia.
  - rewrite length_skipn, length_app. lia.
Qed.

(** ** Search queries *)

Lemma SanitizeSearchQuery_unfold (query : string) :
  SanitizeSearchQuery query = SanitizeSearchQuery_spec query.
Proof using Type.
  unfold SanitizeSearchQuery, SanitizeSearchQuery_spec.
  generalize (fold_left redact_pattern kPiiPatterns query). intros result.
  cbv zeta. unfold Str.contains.
  destruct (Str.find kRedacted result) as [i|] eqn:E.
  - rewrite count_redacted_correct by lia. reflexivity.
  - now rewrite (find_None_count _ _ E).
Qed.

Lemma SanitizeSearchQuery_bound (query : string) :
  (count_occurrences kRedacted (SanitizeSearchQuery query) <= 2)%nat.
Proof using Type.
  rewrite SanitizeSearchQuery_unfold. unfold SanitizeSearchQuery_spec. cbv zeta.
  destruct (Nat.ltb_spec 2
    (count_occurrences kRedacted (fold_left redact_pattern kPiiPatterns query)));
    [simpl|]; lia.
Qed.

Lemma SanitizeSearchQuery_many_emails (query : string) :
  (3 <= email_matches query)%nat -> SanitizeSearchQuery query = "".
Proof using Type.
  intros H. rewrite SanitizeSearchQuery_unfold. unfold SanitizeSearchQuery_spec.
  cbv zeta.
  replace (2 <? _)%nat with true; [reflexivity|].
  symmetry. apply Nat.ltb_lt.
  change (fold_left redact_pattern kPiiPatterns query)
    with (fold_left redact_pattern (tl kPiiPatterns)
            (redact_pattern query (pii_pattern 0))).
  pose proof (email_round_count query).
  pose proof (redact_count_mono _ digit_patterns_inert
                (redact_pattern query (pii_pattern 0))).
  lia.
Qed.

(** ** What the collector keeps *)

Lemma hook_store (now : Time) (h : HookCall) (c : BrowsingDataCollector) :
  local_store_ (run_hook now h c) = local_store_ c
  \/ exists event,
       local_store_ (run_hook now h c) = StoreEvent event (local_store_ c)
       /\ collected_shape event.
Proof using Type.
  destruct h as [url contents|url time_on_page|selector|query|field_types]; simpl.
  - unfold OnPageLoad.
    destruct (IsIncognito contents); [now left|].
    destruct (negb (IsCollectionEnabled c)); [now left|].
    destruct (IsExcludedSite c url); [now left|].
    right. eexists. split; [reflexivity|].
    split; [reflexivity|]. simpl. split; [apply hex_string_hex | auto].
  - unfold OnPageUnload.
    destruct (negb (IsCollectionEnabled c)); [now left|].
    right. eexists. split; [reflexivity|].
    split; [reflexivity|]. simpl. split; [apply hex_string_hex | auto].
  - unfold OnClick.
    destruct (negb (IsCollectionEnabled c)); [now left|].
    right. eexists. split; [reflexivity|].
    split; [reflexivity|]. simpl.
    destruct (SanitizeElementSelector_word selector). auto 7.
  - unfold OnSearchQuery.
    destruct (negb (IsCollectionEnabled c)); [now left|].
    destruct (Str.is_empty (SanitizeSearchQuery query)) eqn:E; [now left|].
    right. eexists. split; [reflexivity|].
    split; [reflexivity|]. cbn [type set_search_query set_timestamp set_type
      BrowsingEvent_default url_hash duration scroll_depth element_type search_query].
    repeat (split; [reflexivity|]). split.
    + intros H. apply is_empty_spec in H. congruence.
    + apply SanitizeSearchQuery_bound.
  - unfold OnFormSubmit.
    destruct (negb (IsCollectionEnabled c)); [now left|].
    destruct (existsb is_sensitive_field field_types); [now left|].
    right. eexists. split; [reflexivity|].
    split; [reflexivity|]. simpl. auto 6.
Qed.

Lemma call_store (now : Time) (call : CollectorCall) (c : BrowsingDataCollector) :
  local_store_ (run_call now call c) = local_store_ c
  \/ local_store_ (run_call now call c) = ClearAll (local_store_ c)
  \/ exists event,
       local_store_ (run_call now call c) = StoreEvent event (local_store_ c)
       /\ collected_shape event.
Proof using Type.
  destruct call as [h|depth|enabled|domain|domain|]; simpl; auto.
  - destruct (hook_store now h c) as [H|H]; auto.
  - left. unfold OnScroll.
    destruct (negb (IsCollectionEnabled c)); [reflexivity|].
    now destruct (current_scroll_depth_ c <? depth)%float.
Qed.

Lemma run_calls_snoc (calls : list (Time * CollectorCall)) (now : Time)
    (call : CollectorCall) (c : BrowsingDataCollector) :
  run_calls (calls ++ [(now, call)]) c = run_call now call (run_calls calls c).
Proof using Type. unfold run_calls. now rewrite fold_left_app. Qed.

Lemma StoreEvent_Forall (P : BrowsingEvent -> Prop) (event : BrowsingEvent)
    (s : EncryptedStore) :
  P event -> List.Forall P (events_ s) -> List.Forall P (events_ (StoreEvent event s)).
Proof using Type.
  intros He Hs. rewrite StoreEvent_events.
  assert (H : List.Forall P (events_ s ++ [event]))
    by (apply Forall_app; split; [exact Hs | now constructor]).
  destruct (kMaxCachedEvents <? GetEventCount s + 1); [|exact H].
  destruct (events_ s ++ [event])%list; [constructor | now inversion H].
Qed.

(** What every run of calls on a new collector keeps true of its store. *)
Lemma run_calls_invariant (calls : list (Time * CollectorCall)) :
  encryption_key_ (local_store_ (run_calls calls BrowsingDataCollector_new)) = ""
  /\ GetEventCount (local_store_ (run_calls calls BrowsingDataCollector_new))
     <= kMaxCachedEvents
  /\ List.Forall collected_shape
       (GetCollectedEvents (run_calls calls BrowsingDataCollector_new)).
Proof using Type.
  induction calls as [|[now call] calls IH] using rev_ind.
  - repeat split; [unfold kMaxCachedEvents, GetEventCount; simpl; lia | constructor].
  - rewrite run_calls_snoc. destruct IH as (Hkey & Hcount & Hshape).
    unfold GetCollectedEvents, GetAllEvents in *.
    destruct (call_store now call (run_calls calls BrowsingDataCollector_new))
      as [->|[->|(event & -> & He)]].
    + auto.
    + repeat split; [exact Hkey | unfold kMaxCachedEvents, GetEventCount; simpl; lia
                    | constructor].
    + split; [now rewrite StoreEvent_key|]. split.
      * rewrite StoreEvent_count.
        destruct (Z.ltb_spec kMaxCachedEvents
                    (GetEventCount (local_store_ (run_calls calls BrowsingDataCollector_new)) + 1));
          lia.
      * now apply StoreEvent_Forall.
Qed.

(** X9. Whatever public methods are called on a new collector, in whatever
    order, its store never holds more than 10,000 events and never has a
    key: [ExportEncrypted] of that store is the bare JSON text. *)
Theorem collector_store_bounded_unkeyed (calls : list (Time * CollectorCall)) :
  GetEventCount (local_store_ (run_calls calls BrowsingDataCollector_new))
    <= kMaxCachedEvents
  /\ encryption_key_ (local_store_ (run_calls calls BrowsingDataCollector_new)) = ""
  /\ ExportEncrypted (local_store_ (run_calls calls BrowsingDataCollector_new))
     = JSONWriter_Write
         (events_list (local_store_ (run_calls calls BrowsingDataCollector_new))).
Proof using Type.
  destruct (run_calls_invariant calls) as (Hkey & Hcount & _).
  split; [exact Hcount|]. split; [exact Hkey|].
  unfold ExportEncrypted, Encrypt. now rewrite Hkey.
Qed.

(** X10. Every event a collector ever holds has the shape its hook gives
    it: a page load or unload carries a hexadecimal hash and no text; a click
    carries only a non-empty word of lower-case letters; a search carries
    only a non-empty query with at most two redaction markers; a form
    submission carries nothing; no event is a scroll event or has a
    referrer. *)
Theorem collected_events_shape (calls : list (Time * CollectorCall)) :
  List.Forall collected_shape
    (GetCollectedEvents (run_calls calls BrowsingDataCollector_new)).
Proof using Type. apply run_calls_invariant. Qed.

(** ** The order of doubles *)

Lemma SFltb_neg_trans (a b c : spec_float) :
  b <> S754_nan ->
  SFltb a b = false -> SFltb b c = false -> SFltb a c = false.
Proof using Type.
  unfold SFltb.
  destruct a as [sa|sa| |sa ma ea], b as [sb|sb| |sb mb eb], c as [sc|sc| |sc mc ec];
    simpl; intros Hb; try congruence;
    try (destruct sa; simpl; congruence);
    try (destruct sb; simpl; congruence);
    try (destruct sc; simpl; congruence);
    try (destruct sa, sb; simpl; congruence);
    try (destruct sa, sc; simpl; congruence);
    try (destruct sb, sc; simpl; congruence);
    try (destruct sa, sb, sc; simpl; congruence).
  destruct sa, sb, sc; simpl; try congruence;
    destruct (Z.compare_spec ea eb), (Z.compare_spec eb ec), (Z.compare_spec ea ec);
      simpl; try congruence; try lia; subst;
      rewrite ?Pos.compare_cont_spec; simpl;
      destruct (Pos.compare_spec ma mb), (Pos.compare_spec mb mc), (Pos.compare_spec ma mc);
      simpl; try congruence; try lia.
Qed.

Lemma SFcompare_refl (a : spec_float) : a <> S754_nan -> SFcompare a a = Some Eq.
Proof using Type.
  destruct a as [s|s| |s m e]; simpl; try congruence.
  - now destruct s.
  - intros _. destruct s; rewrite Z.compare_refl, ?Pos.compare_cont_refl; reflexivity.
Qed.


(** [x == x] holds of every double but NaN. *)
Lemma eqb_refl_spec (x : float) :
  (x =? x)%float = true <-> Prim2SF x <> S754_nan.
Proof using Type.
  rewrite FloatAxioms.eqb_spec. unfold SFeqb. split.
  - intros H E. rewrite E in H. discriminate.
  - intros H. now rewrite (SFcompare_refl _ H).
Qed.

Lemma ltb_operands (x y : float) :
  (x <? y)%float = true -> (x =? x)%float = true /\ (y =? y)%float = true.
Proof using Type.
  rewrite ltb_spec, !eqb_refl_spec. unfold SFltb. intros H.
  split; intros E; rewrite E in H; simpl in H;
    [|destruct (Prim2SF x) as [s|s| |s m e]; try destruct s]; discriminate.
Qed.

Lemma ltb_irrefl (x : float) : (x <? x)%float = false.
Proof using Type.
  rewrite ltb_spec. unfold SFltb.
  pose proof (SFcompare_antisym (Prim2SF x) (Prim2SF x)) as H.
  destruct (SFcompare (Prim2SF x) (Prim2SF x)) as [[]|]; try reflexivity.
  discriminate H.
Qed.

Lemma ltb_asym (x y : float) : (x <? y)%float = true -> (y <? x)%float = false.
Proof using Type.
  rewrite !ltb_spec. unfold SFltb.
  rewrite (SFcompare_antisym (Prim2SF x) (Prim2SF y)).
  destruct (SFcompare (Prim2SF x) (Prim2SF y)) as [[]|]; simpl; congruence.
Qed.

Lemma ltb_neg_trans (x y z : float) :
  (y =? y)%float = true ->
  (x <? y)%float = false -> (y <? z)%float = false -> (x <? z)%float = false.
Proof using Type.
  rewrite eqb_refl_spec, !ltb_spec. apply SFltb_neg_trans.
Qed.



(** ** The scroll depth of a page *)

Lemma OnScroll_step (depth : float) (c : BrowsingDataCollector) :
  IsCollectionEnabled c = true ->
  local_store_ (OnScroll depth c) = local_store_ c
  /\ privacy_filter_ (OnScroll depth c) = privacy_filter_ c
  /\ IsCollectionEnabled (OnScroll depth c) = true
  /\ current_scroll_depth_ (OnScroll depth c) =
     if (current_scroll_depth_ c <? depth)%float then depth
     else current_scroll_depth_ c.
Proof using Type.
  unfold OnScroll. intros H. rewrite H. simpl.
  now destruct (current_scroll_depth_ c <? depth)%float.
Qed.

Lemma scroll_all_peak (depths : list float) (c : BrowsingDataCollector) :
  IsCollectionEnabled c = true ->
  (current_scroll_depth_ c =? current_scroll_depth_ c)%float = true ->
  local_store_ (scroll_all depths c) = local_store_ c
  /\ IsCollectionEnabled (scroll_all depths c) = true
  /\ (current_scroll_depth_ (scroll_all depths c) = current_scroll_depth_ c
      \/ In (current_scroll_depth_ (scroll_all depths c)) depths)
  /\ (forall depth,
        In depth depths ->
        (current_scroll_depth_ (scroll_all depths c) <? depth)%float = false)
  /\ (current_scroll_depth_ (scroll_all depths c) <? current_scroll_depth_ c)%float
     = false.
Proof using Type.
  revert c. induction depths as [|d depths IH]; intros c Hen Hnan.
  - simpl. repeat split; auto using ltb_irrefl. intros depth [].
  - change (scroll_all (d :: depths) c) with (scroll_all depths (OnScroll d c)).
    destruct (OnScroll_step d c Hen) as (Hst & _ & Hen1 & Hcur).
    assert (Hnan1 : (current_scroll_depth_ (OnScroll d c)
                     =? current_scroll_depth_ (OnScroll d c))%float = true).
    { rewrite Hcur. destruct (current_scroll_depth_ c <? d)%float eqn:L; [|exact Hnan].
      apply (ltb_operands _ _ L). }
    destruct (IH _ Hen1 Hnan1) as (Hs & He & Hin & Hmax & Hge).
    rewrite Hst in Hs. split; [exact Hs|]. split; [exact He|].
    rewrite Hcur in Hin, Hge, Hnan1.
    destruct (current_scroll_depth_ c <? d)%float eqn:L.
    + split; [destruct Hin as [->|Hin]; right; simpl; auto|]. split.
      * intros depth [<-|H]; [exact Hge | now apply Hmax].
      * apply (ltb_neg_trans _ d _ Hnan1 Hge). now apply ltb_asym.
    + split; [destruct Hin as [->|Hin]; [now left | right; simpl; auto]|].
      split; [|exact Hge].
      intros depth [<-|H]; [|now apply Hmax].
      exact (ltb_neg_trans _ _ _ Hnan Hge L).
Qed.

Lemma StoreEvent_pushed_back (event : BrowsingEvent) (s : EncryptedStore) :
  pushed_back event (events_ s) (events_ (StoreEvent event s)).
Proof using Type.
  rewrite StoreEvent_events. unfold pushed_back, GetEventCount, kMaxCachedEvents.
  destruct (Z.ltb_spec 10000 (Z.of_nat (List.length (events_ s)) + 1)) as [H|H].
  - split; [lia|]. intros _.
    destruct (events_ s) as [|oldest rest]; [simpl in H; lia | reflexivity].
  - split; [reflexivity | lia].
Qed.

(** X11. On a page whose load is collected, the load puts its event behind
    the events the store holds (the oldest gives way when the store is full),
    the calls of [OnScroll] store nothing, and the unload puts one event
    behind those in the same way, which records the peak of the depths
    scrolled since the load: a depth that is 0 or one of the reported depths,
    below none of them and not below 0. *)
Theorem page_unload_records_scroll_peak
    (now now' : Time) (url url' : GURL) (contents : option WebContents)
    (time_on_page : TimeDelta) (depths : list float) (c : BrowsingDataCollector) :
  IsIncognito contents = false ->
  IsCollectionEnabled c = true ->
  IsExcludedSite c url = false ->
  pushed_back (BrowsingEvent_make PAGE_LOAD (HashUrl url) now)
    (GetCollectedEvents c) (GetCollectedEvents (OnPageLoad now url contents c))
  /\ local_store_ (scroll_all depths (OnPageLoad now url contents c))
     = local_store_ (OnPageLoad now url contents c)
  /\ exists peak,
       pushed_back
         {| type := PAGE_UNLOAD; url_hash := HashUrl url';
            timestamp := now'; duration := time_on_page;
            scroll_depth := peak; element_type := "";
            search_query := ""; referrer_hash := "" |}
         (GetCollectedEvents (OnPageLoad now url contents c))
         (GetCollectedEvents
            (OnPageUnload now' url' time_on_page
               (scroll_all depths (OnPageLoad now url contents c))))
       /\ (peak = 0%float \/ In peak depths)
       /\ (forall depth, In depth depths -> (peak <? depth)%float = false)
       /\ (peak <? 0)%float = false.
Proof using Type.
  intros Hinc Hen Hex.
  assert (Hload : OnPageLoad now url contents c =
    with_scroll_depth 0%float
      (with_store (StoreEvent (BrowsingEvent_make PAGE_LOAD (HashUrl url) now)
                     (local_store_ c)) c)).
  { unfold OnPageLoad. now rewrite Hinc, Hen, Hex. }
  split.
  { rewrite Hload. apply StoreEvent_pushed_back. }
  set (c1 := OnPageLoad now url contents c) in *.
  assert (Hen1 : IsCollectionEnabled c1 = true) by (now rewrite Hload).
  assert (Hcur1 : current_scroll_depth_ c1 = 0%float) by (now rewrite Hload).
  assert (Hnan1 : (current_scroll_depth_ c1 =? current_scroll_depth_ c1)%float = true)
    by (now rewrite Hcur1).
  destruct (scroll_all_peak depths c1 Hen1 Hnan1) as (Hs & He & Hin & Hmax & Hge).
  split; [exact Hs|].
  exists (current_scroll_depth_ (scroll_all depths c1)).
  rewrite Hcur1 in Hin, Hge. split; [|auto].
  unfold GetCollectedEvents, GetAllEvents, OnPageUnload. rewrite He. simpl.
  rewrite <- Hs. apply StoreEvent_pushed_back.
Qed.

(** ** Search queries and forms *)

(** X12. Whatever the query, the text [SanitizeSearchQuery] returns holds at
    most two redaction markers. *)
Theorem SanitizeSearchQuery_at_most_two_markers (query : string) :
  (count_occurrences kRedacted (SanitizeSearchQuery query) <= 2)%nat.
Proof using Type. apply SanitizeSearchQuery_bound. Qed.

(** X13. [OnSearchQuery] stores nothing when the sanitised query is empty,
    as for a query with three or more email addresses; on an enabled
    collector it otherwise puts one search event behind the events the store
    holds (the oldest gives way when the store is full), which carries the
    sanitised text and the time, and nothing else. *)
Theorem OnSearchQuery_stores_sanitized (now : Time) (query : string)
    (c : BrowsingDataCollector) :
  (SanitizeSearchQuery query = "" -> OnSearchQuery now query c = c)
  /\ ((3 <= email_matches query)%nat -> OnSearchQuery now query c = c)
  /\ (IsCollectionEnabled c = true ->
      SanitizeSearchQuery query <> "" ->
      pushed_back
        {| type := SEARCH_QUERY; url_hash := ""; timestamp := now;
           duration := 0; scroll_depth := 0%float; element_type := "";
           search_query := SanitizeSearchQuery query; referrer_hash := "" |}
        (GetCollectedEvents c) (GetCollectedEvents (OnSearchQuery now query c))).
Proof using Type.
  assert (Hempty : SanitizeSearchQuery query = "" -> OnSearchQuery now query c = c).
  { intros H. unfold OnSearchQuery. rewrite H. cbn [Str.is_empty].
    now destruct (negb (IsCollectionEnabled c)). }
  split; [exact Hempty|]. split.
  - intros H. apply Hempty. now apply SanitizeSearchQuery_many_emails.
  - intros Hen Hne. unfold OnSearchQuery. rewrite Hen. cbn [negb].
    destruct (Str.is_empty (SanitizeSearchQuery query)) eqn:E;
      [apply is_empty_spec in E; contradiction|].
    apply StoreEvent_pushed_back.
Qed.

Lemma existsb_sensitive (field_types : list string) :
  existsb is_sensitive_field field_types = true <->
  In "password" field_types \/ In "credit-card" field_types.
Proof using Type.
  rewrite existsb_exists. unfold is_sensitive_field. split.
  - intros (t & Hin & H). apply orb_true_iff in H as [H|H];
      apply String.eqb_eq in H; subst; auto.
  - intros [H|H]; eexists; (split; [exact H | reflexivity]).
Qed.

(** X14. [OnFormSubmit] stores nothing for a form with a field of type
    ["password"] or ["credit-card"]; for any other form an enabled collector
    puts one event behind the events the store holds (the oldest gives way
    when the store is full), with the kind and the time, and none of the
    field types. *)
Theorem OnFormSubmit_veto (now : Time) (field_types : list string)
    (c : BrowsingDataCollector) :
  (In "password" field_types \/ In "credit-card" field_types ->
   OnFormSubmit now field_types c = c)
  /\ (IsCollectionEnabled c = true ->
      ~ In "password" field_types -> ~ In "credit-card" field_types ->
      pushed_back
        {| type := FORM_SUBMIT; url_hash := ""; timestamp := now;
           duration := 0; scroll_depth := 0%float; element_type := "";
           search_query := ""; referrer_hash := "" |}
        (GetCollectedEvents c) (GetCollectedEvents (OnFormSubmit now field_types c))).
Proof using Type.
  unfold OnFormSubmit. split.
  - intros H. apply existsb_sensitive in H. rewrite H.
    now destruct (negb (IsCollectionEnabled c)).
  - intros Hen Hp Hc. rewrite Hen. simpl.
    destruct (existsb is_sensitive_field field_types) eqn:E;
      [apply existsb_sensitive in E; destruct E; contradiction|].
    apply StoreEvent_pushed_back.
Qed.

(** X15. While collection is switched off, no run of hook and scroll calls
    changes the collector: not the store, not the scroll depth. The data
    already collected stays, and [ClearAllData] still empties it. *)
Theorem disabled_collector_is_inert (calls : list (Time * CollectorCall))
    (c : BrowsingDataCollector) :
  forallb (fun call => is_tracking_call (snd call)) calls = true ->
  run_calls calls (SetCollectionEnabled false c) = SetCollectionEnabled false c
  /\ GetCollectedEvents (run_calls calls (SetCollectionEnabled false c))
     = GetCollectedEvents c
  /\ GetCollectedEvents
       (ClearAllData (run_calls calls (SetCollectionEnabled false c))) = [].
Proof using Type.
  intros H.
  assert (Hrun : run_calls calls (SetCollectionEnabled false c)
                 = SetCollectionEnabled false c).
  { induction calls as [|[now call] calls IH]; [reflexivity|].
    simpl in H. apply andb_true_iff in H as [Hcall Hrest].
    unfold run_calls. simpl fold_left.
    replace (run_call now call (SetCollectionEnabled false c))
      with (SetCollectionEnabled false c); [exact (IH Hrest)|].
    destruct call as [h|depth| | | |]; try discriminate; simpl; symmetry.
    - now apply run_hook_disabled.
    - now apply OnScroll_disabled. }
  rewrite Hrun. repeat split.
Qed.

(** ** The intent analyzer *)





(** X17. After [Initialize] the analyzer is ready exactly when the call
    answered true, which it does exactly when the model file exists: a
    failed call leaves even an analyzer that was ready before not ready, and
    [AnalyzeEvents] then returns nothing. The cached signals and the
    threshold stay. *)
Theorem IntentAnalyzer_Initialize_ready (model_path : string) (a : IntentAnalyzer) :
  fst (IntentAnalyzer_Initialize model_path a) = PathExists model_path
  /\ IsReady (snd (IntentAnalyzer_Initialize model_path a)) = PathExists model_path
  /\ GetLatestIntents (snd (IntentAnalyzer_Initialize model_path a))
     = GetLatestIntents a
  /\ min_confidence_ (snd (IntentAnalyzer_Initialize model_path a))
     = min_confidence_ a
  /\ (PathExists model_path = false ->
      forall unassigned clock events,
        AnalyzeEvents unassigned clock events
          (snd (IntentAnalyzer_Initialize model_path a))
        = ([], snd (IntentAnalyzer_Initialize model_path a))).
Proof using Type.
  unfold IntentAnalyzer_Initialize, LoadModel.
  destruct (PathExists model_path); simpl.
  - repeat split. discriminate.
  - unfold IsReady. simpl. rewrite andb_false_r. repeat split.
    intros _ unassigned clock events. unfold AnalyzeEvents, IsReady. simpl.
    now rewrite andb_false_r.
Qed.

Lemma filter_none_on {A : Type} (p : A -> bool) (l : list A) :
  List.Forall (fun x => p x = false) l -> List.filter p l = [].
Proof using Type.
  induction 1 as [|x l Hx _ IH]; simpl; [reflexivity|]. now rewrite Hx.
Qed.

Lemma filter_all {A : Type} (p : A -> bool) (l : list A) :
  List.Forall (fun x => p x = true) l -> List.filter p l = l.
Proof using Type.
  induction 1 as [|x l Hx _ IH]; simpl; [reflexivity|]. now rewrite Hx, IH.
Qed.

(** X18. [AnalyzeTimeWindow] analyzes exactly the events of the batch whose
    timestamp is at or after the cutoff, the current time less the window, in
    their order: it is [AnalyzeEvents] on those. So when every event is that
    recent it is [AnalyzeEvents] on all of them; when every event is older it
    returns nothing, does not run the model and leaves the cached signals as
    they were; and of a batch of older events followed by recent ones only
    the recent ones are analyzed. *)
Theorem AnalyzeTimeWindow_cutoff (now : Time) (unassigned : nat -> Indeterminate)
    (clock : nat -> Time) (events : list BrowsingEvent) (window : TimeDelta)
    (a : IntentAnalyzer) :
  AnalyzeTimeWindow now unassigned clock events window a =
    AnalyzeEvents unassigned clock
      (List.filter (fun event => now - window <=? timestamp event) events) a
  /\ (forall event,
        In event (List.filter (fun event => now - window <=? timestamp event) events)
        <-> In event events /\ now - window <= timestamp event)
  /\ (List.Forall (fun event => now - window <= timestamp event) events ->
      AnalyzeTimeWindow now unassigned clock events window a
      = AnalyzeEvents unassigned clock events a)
  /\ (List.Forall (fun event => timestamp event < now - window) events ->
      AnalyzeTimeWindow now unassigned clock events window a = ([], a))
  /\ (forall older recent,
        events = (older ++ recent)%list ->
        List.Forall (fun event => timestamp event < now - window) older ->
        List.Forall (fun event => now - window <= timestamp event) recent ->
        AnalyzeTimeWindow now unassigned clock events window a
        = AnalyzeEvents unassigned clock recent a).
Proof using Type.
  assert (Hall : forall l,
    List.Forall (fun event => now - window <= timestamp event) l ->
    List.filter (fun event => now - window <=? timestamp event) l = l).
  { intros l H. apply filter_all.
    eapply List.Forall_impl; [|exact H]. intros event He. now apply Z.leb_le. }
  assert (Hnone : forall l,
    List.Forall (fun event => timestamp event < now - window) l ->
    List.filter (fun event => now - window <=? timestamp event) l = []).
  { intros l H. apply filter_none_on.
    eapply List.Forall_impl; [|exact H]. intros event He. now apply Z.leb_gt. }
  unfold AnalyzeTimeWindow. split; [reflexivity|]. split; [|split; [|split]].
  - intros event. rewrite filter_In, Z.leb_le. reflexivity.
  - intros H. now rewrite Hall.
  - intros H. rewrite Hnone by exact H. apply AnalyzeEvents_noop. now right.
  - intros older recent -> Hold Hnew.
    now rewrite List.filter_app, (Hnone _ Hold), (Hall _ Hnew).
Qed.

(** X24. When the analyzer is ready and the batch is not empty but the
    model's response does not parse as a list, [AnalyzeEvents] returns nothing
    and empties the cached signals: unlike the calls that are refused, which
    leave them. *)
Theorem AnalyzeEvents_unparsable_clears_cache (unassigned : nat -> Indeterminate)
    (clock : nat -> Time) (events : list BrowsingEvent) (a : IntentAnalyzer) :
  IsReady a = true ->
  events <> [] ->
  (forall items,
     JSONReader_Read (RunInference a (BuildPrompt events)) <> Some (VList items)) ->
  AnalyzeEvents unassigned clock events a = ([], ClearIntents a)
  /\ GetLatestIntents (snd (AnalyzeEvents unassigned clock events a)) = []
  /\ (forall a', IsReady a' = false ->
        GetLatestIntents (snd (AnalyzeEvents unassigned clock events a'))
        = GetLatestIntents a').
Proof using Type.
  intros Hready Hne Hbad.
  assert (H : AnalyzeEvents unassigned clock events a = ([], ClearIntents a)).
  { unfold AnalyzeEvents. rewrite Hready. cbn [negb].
    destruct events as [|e l]; [contradiction|].
    unfold ParseResponse.
    destruct (JSONReader_Read (RunInference a (BuildPrompt (e :: l)))) as [[]|] eqn:R;
      try reflexivity.
    now contradiction (Hbad l0). }
  split; [exact H|]. split; [now rewrite H|].
  intros a' Hoff. rewrite AnalyzeEvents_noop; [reflexivity | now left].
Qed.

Lemma intent_type_of_string_other (name : string) :
  name <> "PURCHASE_INTENT" -> name <> "RESEARCH_INTENT" ->
  name <> "COMPARISON_INTENT" -> name <> "ENGAGEMENT_INTENT" ->
  intent_type_of_string name = NAVIGATION_INTENT.
Proof using Type.
  intros H1 H2 H3 H4. unfold intent_type_of_string.
  apply String.eqb_neq in H1, H2, H3, H4. now rewrite H1, H2, H3, H4.
Qed.

Lemma imap_detected_at (unassigned : nat -> Indeterminate) (clock : nat -> Time)
    (dicts : list Dict) :
  map Signal.detected_at
    (imap (fun i dict => parse_signal (unassigned i) (clock i) dict) dicts)
  = map clock (seq 0 (List.length dicts)).
Proof using Type.
  revert unassigned clock. induction dicts as [|dict dicts IH];
    intros unassigned clock; [reflexivity|].
  cbn [imap map List.length seq]. f_equal.
  - unfold parse_signal.
    destruct (FindString "type" dict), (FindDouble "confidence" dict),
      (FindString "category" dict); reflexivity.
  - rewrite <- seq_shift, map_map.
    exact (IH (fun i => unassigned (S i)) (fun i => clock (S i))).
Qed.

(** X25. [ParseResponse] reads the clock once for every record: the [i]-th
    signal it returns carries the [i]-th reading as its detection time. No
    signal carries a time window or an event count. The category of a signal
    is its record's category string, or empty; a type string other than the
    four names PURCHASE_INTENT, RESEARCH_INTENT, COMPARISON_INTENT and
    ENGAGEMENT_INTENT, in this spelling, gives a navigation intent. *)
Theorem ParseResponse_signal_fields (unassigned : nat -> Indeterminate)
    (clock : nat -> Time) (response : string) :
  map Signal.detected_at (ParseResponse unassigned clock response)
    = map clock (seq 0 (List.length (ParseResponse unassigned clock response)))
  /\ List.Forall
       (fun signal => Signal.time_window signal = 0 /\ Signal.event_count signal = 0)
       (ParseResponse unassigned clock response)
  /\ (forall indet now dict,
        Signal.category (parse_signal indet now dict) =
        match FindString "category" dict with Some c => c | None => "" end)
  /\ (forall indet now dict name,
        FindString "type" dict = Some name ->
        Signal.type (parse_signal indet now dict) = intent_type_of_string name)
  /\ (forall name,
        name <> "PURCHASE_INTENT" -> name <> "RESEARCH_INTENT" ->
        name <> "COMPARISON_INTENT" -> name <> "ENGAGEMENT_INTENT" ->
        intent_type_of_string name = NAVIGATION_INTENT).
Proof using Type.
  split; [|split; [|split; [|split]]].
  - unfold ParseResponse.
    destruct (JSONReader_Read response) as [[]|]; try reflexivity.
    rewrite parse_items_records, length_imap. apply imap_detected_at.
  - unfold ParseResponse.
    destruct (JSONReader_Read response) as [[]|]; try constructor.
    rewrite parse_items_records. apply List.Forall_forall.
    intros signal H. apply list_elem_of_In, elem_of_lookup_imap in H
      as (i & dict & -> & _).
    unfold parse_signal.
    destruct (FindString "type" dict), (FindDouble "confidence" dict),
      (FindString "category" dict); split; reflexivity.
  - intros indet now dict. unfold parse_signal.
    destruct (FindString "type" dict), (FindDouble "confidence" dict),
      (FindString "category" dict); reflexivity.
  - intros indet now dict name H. unfold parse_signal. rewrite H.
    destruct (FindDouble "confidence" dict), (FindString "category" dict); reflexivity.
  - exact intent_type_of_string_other.
Qed.

(** ** Export, import and the single-event codec *)

Lemma Decrypt_Encrypt_same_keying (src dst : EncryptedStore) (plaintext : string) :
  Str.is_empty (encryption_key_ src) = Str.is_empty (encryption_key_ dst) ->
  Decrypt dst (Encrypt src plaintext) = plaintext.
Proof using Type.
  intros H. destruct (Str.is_empty (encryption_key_ dst)) eqn:Hd.
  - rewrite Decrypt_no_key by exact Hd. unfold Encrypt. now rewrite H.
  - now apply Decrypt_Encrypt.
Qed.

Lemma static_cast_int_roundtrip (n : Z) :
  static_cast_int (static_cast_BrowsingEventType n) = n.
Proof using Type.
  destruct n as [|q|q]; [reflexivity| |reflexivity].
  destruct (Pos.ltb_spec 5 q) as [H|H].
  - rewrite static_cast_above by exact H. simpl. lia.
  - destruct q as [[[q|q|]|[q|q|]|]|[[q|q|]|[q|q|]|]|]; try reflexivity; lia.
Qed.

(** X27. [ImportEncrypted] takes whatever integer a record gives as its
    type: the imported event has the kind with that number, also when the
    number is none of the six kinds, 0 to 5. Such an event is written with
    the same number when exported, and its line in the prompt has an empty
    kind name. *)
Theorem import_keeps_any_type_number (indet : BrowsingEventType) (dict : Dict)
    (n : Z) :
  FindInt "type" dict = Some n ->
  static_cast_int (type (import_dict indet dict)) = n
  /\ (n < 0 \/ 5 < n -> event_type_name (type (import_dict indet dict)) = "")
  /\ Dict_Find "type" (export_dict (import_dict indet dict)) = Some (VInt n).
Proof using Type.
  intros H.
  assert (Ht : type (import_dict indet dict) = static_cast_BrowsingEventType n).
  { unfold import_dict. rewrite H. unfold opt_apply.
    destruct (FindString "url_hash" dict), (FindDouble "timestamp" dict),
      (FindDouble "duration_ms" dict), (FindDouble "scroll_depth" dict),
      (FindString "element_type" dict), (FindString "search_query" dict);
      reflexivity. }
  split; [|split].
  - now rewrite Ht, static_cast_int_roundtrip.
  - intros Hout. rewrite Ht.
    destruct n as [|q|q]; [lia| |reflexivity].
    rewrite static_cast_above by lia. reflexivity.
  - rewrite export_dict_sorted. cbn [Dict_Find String.eqb Ascii.eqb Bool.eqb].
    simpl. now rewrite Ht, static_cast_int_roundtrip.
Qed.

(** X19. Let the source and the destination both have a key, or both have
    none, and let the JSON reader read back the list the writer wrote (a
    non-empty text). Then importing the export of the source succeeds
    whatever the destination holds, and puts one event for each source
    event, in order, behind the events of the destination; importing the
    same export once more puts them there a second time. *)
Theorem ExportImport_appends (unassigned unassigned' : nat -> BrowsingEventType)
    (src dst : EncryptedStore) :
  Str.is_empty (encryption_key_ src) = Str.is_empty (encryption_key_ dst) ->
  JSONWriter_Write (events_list src) <> "" ->
  JSONReader_Read (JSONWriter_Write (events_list src)) = Some (events_list src) ->
  ImportEncrypted unassigned (ExportEncrypted src) dst =
    (true, with_events (events_ dst ++ map reimported (events_ src)) dst)
  /\ events_ (snd (ImportEncrypted unassigned' (ExportEncrypted src)
                     (snd (ImportEncrypted unassigned (ExportEncrypted src) dst))))
     = (events_ dst ++ map reimported (events_ src) ++ map reimported (events_ src))%list
  /\ (forall event, compared_fields (reimported event) = compared_fields event).
Proof using Type.
  intros Hkey Hne Hread.
  assert (Himp : forall u d,
    encryption_key_ d = encryption_key_ dst ->
    ImportEncrypted u (ExportEncrypted src) d =
    (true, with_events (events_ d ++ map reimported (events_ src)) d)).
  { intros u d Hd. unfold ImportEncrypted, ExportEncrypted.
    rewrite Decrypt_Encrypt_same_keying by (now rewrite Hd).
    destruct (Str.is_empty (JSONWriter_Write (events_list src))) eqn:E;
      [apply is_empty_spec in E; contradiction|].
    rewrite Hread. unfold events_list.
    now rewrite (import_items_export indet_event_type). }
  split; [now apply Himp|]. split.
  - rewrite (Himp unassigned dst eq_refl). unfold snd at 2.
    rewrite Himp by reflexivity.
    simpl. now rewrite <- app_assoc.
  - intros event. apply import_export_dict.
Qed.

(** X20. [DeserializeEvent] reads the kind and the URL hash only: of an
    event written by [SerializeEvent] and read back by the JSON reader it
    returns those two, and the defaults for the rest; the timestamp that was
    written is not read. Of a text that is no JSON record it returns the
    default event. *)
Theorem DeserializeEvent_SerializeEvent (event : BrowsingEvent) :
  JSONReader_Read (SerializeEvent event) = Some (VDict (serialized_dict event)) ->
  DeserializeEvent (SerializeEvent event)
    = BrowsingEvent_make (type event) (url_hash event) 0
  /\ (forall data,
        (forall dict, JSONReader_Read data <> Some (VDict dict)) ->
        DeserializeEvent data = BrowsingEvent_default indet_event_type).
Proof using Type.
  intros Hread. split.
  - unfold DeserializeEvent. rewrite Hread.
    unfold serialized_dict, FindInt, FindString. simpl Dict_Find. unfold opt_apply.
    unfold set_url_hash, set_type, BrowsingEvent_default, BrowsingEvent_make. simpl.
    now rewrite static_cast_roundtrip.
  - intros data H. unfold DeserializeEvent.
    destruct (JSONReader_Read data) as [[]|]; try reflexivity.
    now contradiction (H d).
Qed.

(** ** The prompt *)

Lemma fold_left_lines {A : Type} (f : A -> string) (l : list A) (init rest : string) :
  fold_left (fun text x => text ++ f x) l init ++ rest =
  init ++ fold_right (fun x text => f x ++ text) rest l.
Proof using Type.
  revert init. induction l as [|x l IH]; intros init; simpl; [reflexivity|].
  now rewrite IH, append_assoc.
Qed.

(** X21. The prompt is the header, one line for each event in the order of
    the batch, and the footer. A line is formatted from the kind, the scroll
    depth, the whole seconds of the duration, the element type and the
    search query: batches that agree on these give the same prompt, so
    neither an event's URL hash nor its timestamp reaches the model. *)
Theorem BuildPrompt_lines (events : list BrowsingEvent) :
  BuildPrompt events =
    prompt_header ++
    fold_right (fun event text => prompt_line event ++ text) prompt_footer events
  /\ (forall events',
        map prompt_fields events = map prompt_fields events' ->
        BuildPrompt events = BuildPrompt events').
Proof using Type.
  assert (H : forall l, BuildPrompt l =
    prompt_header ++
    fold_right (fun event text => prompt_line event ++ text) prompt_footer l).
  { intros l. unfold BuildPrompt. apply (fold_left_lines prompt_line). }
  split; [apply H|]. intros events' Heq. rewrite !H. f_equal.
  revert events' Heq. induction events as [|e l IH]; intros [|e' l']; simpl;
    try discriminate; [reflexivity|].
  intros Heq. injection Heq as Hn Hs Hd He Hq Hrest.
  rewrite (IH _ Hrest). unfold prompt_line. now rewrite Hn, Hs, Hd, He, Hq.
Qed.

(** ** The export for local viewing *)

Lemma json_dict_sorted (event : BrowsingEvent) :
  json_dict event =
  [ ("element_type", VString (element_type event));
    ("scroll_depth", VDouble (scroll_depth event));
    ("search_query", VString (search_query event));
    ("timestamp", VDouble (InMillisecondsFSinceUnixEpoch (timestamp event)));
    ("type", VInt (static_cast_int (type event)));
    ("url_hash", VString (url_hash event)) ].
Proof using Type. reflexivity. Qed.

(** X22. [ExportDataAsJson] writes, for each collected event in order, the
    record that [ExportEncrypted] writes without its duration: the same
    value under every other key, none under ["duration_ms"]. The list goes
    to the JSON writer as it is: the text is not passed to [Encrypt]. *)
Theorem ExportDataAsJson_records (c : BrowsingDataCollector) :
  ExportDataAsJson c =
    JSONWriter_WriteWithOptions
      (VList (map (fun event => VDict (json_dict event)) (events_ (local_store_ c))))
  /\ (forall event key,
        Dict_Find key (json_dict event) =
        if String.eqb key "duration_ms" then None
        else Dict_Find key (export_dict event)).
Proof using Type.
  split; [reflexivity|].
  intros event key. rewrite json_dict_sorted, export_dict_sorted.
  cbn [Dict_Find]. destruct (String.eqb key "duration_ms") eqn:E; [|reflexivity].
  apply String.eqb_eq in E. subst key. reflexivity.
Qed.

End Pat.


(** * Closed examples

    The parameters are instantiated with the reference JSON codec and time
    conversions; every statement below is checked by evaluation. Where a
    closed statement needs readings for unassigned members or for the clock,
    it takes the same one for every record, and says nothing that depends on
    which. *)

#[local] Abbreviation ref_Import :=
  (ImportEncrypted Json.read Json.FromMillisecondsSinceUnixEpoch
     Json.Milliseconds (fun _ => PAGE_LOAD)).
#[local] Abbreviation ref_Export :=
  (ExportEncrypted Json.write Json.InMillisecondsFSinceUnixEpoch
     Json.Value_of_int64).
#[local] Abbreviation ref_recovered_from :=
  (recovered_from Json.FromMillisecondsSinceUnixEpoch Json.Milliseconds).
#[local] Abbreviation ref_import_items :=
  (import_items Json.FromMillisecondsSinceUnixEpoch Json.Milliseconds).
#[local] Abbreviation ref_Analyze :=
  (AnalyzeEvents Json.read sample_StringPrintf_event).
#[local] Abbreviation ref_events_list :=
  (events_list Json.InMillisecondsFSinceUnixEpoch Json.Value_of_int64).
#[local] Abbreviation ref_stored_timestamp :=
  (stored_timestamp Json.InMillisecondsFSinceUnixEpoch
     Json.FromMillisecondsSinceUnixEpoch).
#[local] Abbreviation payload_record :=
  [("element_type", VString "a"); ("type", VInt 3)].
#[local] Abbreviation unscored_record :=
  [("category", VString "shoes"); ("type", VString "PURCHASE_INTENT")].

(** The reference reader reads the sample response of the placeholder model:
    both signals pass the default threshold, whatever the readings. *)
Example AnalyzeEvents_sample_response
    (unassigned : nat -> Indeterminate) (clock : nat -> Time) :
  map (fun s => (Signal.type s, Signal.confidence s, Signal.category s))
    (fst (ref_Analyze QwenClient_Infer unassigned clock sample_events ready_analyzer))
  = [ (RESEARCH_INTENT, HIGH, "technology");
      (COMPARISON_INTENT, MEDIUM, "electronics") ].
Proof. vm_compute. reflexivity. Qed.

(** The response whose only record has no confidence. [ParseResponse] returns
    a signal for the record whatever its unassigned members read as, with the
    score and the level they read as; an analyzer with the default threshold
    of 0.5 returns and caches the signal exactly when that score is at least
    0.5. *)
Example unscored_record_is_parsed
    (unassigned : nat -> Indeterminate) (clock : nat -> Time) :
  Json.read response_without_confidence = Some (VList [VDict unscored_record])
  /\ FindDouble "confidence" unscored_record = None
  /\ ParseResponse Json.read unassigned clock response_without_confidence =
     [ {| Signal.type := PURCHASE_INTENT;
          Signal.confidence := indet_confidence (unassigned 0%nat);
          Signal.confidence_score := indet_score (unassigned 0%nat);
          Signal.category := "shoes"; Signal.detected_at := clock 0%nat;
          Signal.time_window := 0; Signal.event_count := 0 |} ]
  /\ GetLatestIntents
       (snd (ref_Analyze (fun _ _ => response_without_confidence) unassigned clock
               sample_events ready_analyzer))
     = List.filter
         (fun signal => (0.5 <=? Signal.confidence_score signal)%float)
         (ParseResponse Json.read unassigned clock response_without_confidence).
Proof.
  assert (Hread : Json.read response_without_confidence
                  = Some (VList [VDict unscored_record]))
    by (vm_compute; reflexivity).
  split; [exact Hread|]. split; [reflexivity|]. split.
  - unfold ParseResponse. rewrite Hread. reflexivity.
  - reflexivity.
Qed.

(** The same response, through the general statement: one signal for its one
    record, with the score its unassigned member reads as. *)
Lemma ParseResponse_keeps_every_record_witness :
  Json.read response_without_confidence = Some (VList [VDict unscored_record])
  /\ FindDouble "confidence" unscored_record = None
  /\ List.length
       (ParseResponse Json.read (fun _ => sample_indet) (fun _ => 0)
          response_without_confidence)
     = List.length (records [VDict unscored_record])
  /\ exists signal,
       ParseResponse Json.read (fun _ => sample_indet) (fun _ => 0)
         response_without_confidence !! 0%nat = Some signal
       /\ Signal.confidence_score signal = indet_score sample_indet
       /\ Signal.confidence signal = indet_confidence sample_indet.
Proof.
  assert (H : Json.read response_without_confidence
              = Some (VList [VDict unscored_record]))
    by (vm_compute; reflexivity).
  destruct (ParseResponse_keeps_every_record Json.read sample_StringPrintf_event
              (fun _ _ => response_without_confidence)
              (fun _ => sample_indet) (fun _ => 0)
              response_without_confidence [VDict unscored_record] H)
    as (_ & H2 & H3 & _).
  split; [exact H|]. split; [reflexivity|]. split; [exact H2|].
  exact (H3 0%nat unscored_record eq_refl eq_refl).
Defined.

(** C3 does not hold as stated: a successful import of two records into a
    store of 10,000 events leaves 10,002, and 10,002 are left after the next
    [StoreEvent]. *)
Lemma StoreEvent_above_capacity :
  let imported := snd (ref_Import "[{},{}]" full_store) in
  GetEventCount full_store = 10000
  /\ fst (ref_Import "[{},{}]" full_store) = true
  /\ GetEventCount imported = 10002
  /\ GetEventCount (StoreEvent (BrowsingEvent_make CLICK "" 0) imported) = 10002.
Proof. cbv zeta. repeat split; vm_compute; reflexivity. Qed.

(** From the store of exactly 10,000 events: the bound holds after any
    [StoreEvent], and storing the three sample events drops the three oldest. *)
Lemma StoreEvent_bounded_fifo_witness :
  GetEventCount full_store <= kMaxCachedEvents
  /\ (forall event, GetEventCount (StoreEvent event full_store) <= kMaxCachedEvents)
  /\ events_ (StoreEvents sample_events full_store) =
     skipn 3 (events_ full_store ++ sample_events).
Proof.
  assert (Hle : GetEventCount full_store <= kMaxCachedEvents)
    by (vm_compute; discriminate).
  assert (Hfull : GetEventCount full_store = kMaxCachedEvents)
    by (vm_compute; reflexivity).
  destruct (StoreEvent_bounded_fifo full_store Hle) as [Hbound Hfifo].
  split; [exact Hle|]. split; [exact Hbound|].
  exact (proj1 (Hfifo Hfull sample_events)).
Defined.

(** A payload the reader rejects leaves the sample store as it was; the
    sample payload is appended behind its three events. *)
Lemma ImportEncrypted_all_or_nothing_witness :
  (fst (ref_Import "[ENCRYPTED]{broken" sample_store) = false
   /\ snd (ref_Import "[ENCRYPTED]{broken" sample_store) = sample_store)
  /\ (fst (ref_Import import_payload sample_store) = true
      /\ exists items new,
           Json.read (Decrypt sample_store import_payload) = Some (VList items)
           /\ events_ (snd (ref_Import import_payload sample_store)) =
              (events_ sample_store ++ new)%list
           /\ Forall2 ref_recovered_from (records items) new
           /\ List.length new = List.length (List.filter is_dict items)
           /\ firstn (List.length (events_ sample_store))
                (events_ (snd (ref_Import import_payload sample_store)))
              = events_ sample_store
           /\ encryption_key_ (snd (ref_Import import_payload sample_store))
              = encryption_key_ sample_store).
Proof.
  assert (Hbad : fst (ref_Import "[ENCRYPTED]{broken" sample_store) = false)
    by (vm_compute; reflexivity).
  assert (Hgood : fst (ref_Import import_payload sample_store) = true)
    by (vm_compute; reflexivity).
  split; split.
  - exact Hbad.
  - exact (proj1 (ImportEncrypted_all_or_nothing Json.read
                    Json.FromMillisecondsSinceUnixEpoch Json.Milliseconds
                    (fun _ => PAGE_LOAD) "[ENCRYPTED]{broken" sample_store) Hbad).
  - exact Hgood.
  - exact (proj2 (ImportEncrypted_all_or_nothing Json.read
                    Json.FromMillisecondsSinceUnixEpoch Json.Milliseconds
                    (fun _ => PAGE_LOAD) import_payload sample_store) Hgood).
Defined.

(** The events the sample payload leaves behind the three of the store: one
    for each of its two records, none for the number. The second record has
    no type, and its event has the kind the unassigned member reads as. *)
Example ImportEncrypted_sample_payload (unassigned : nat -> BrowsingEventType) :
  map (fun e => (type e, element_type e))
    (events_
       (snd (ImportEncrypted Json.read Json.FromMillisecondsSinceUnixEpoch
               Json.Milliseconds unassigned import_payload sample_store)))
  = [ (PAGE_UNLOAD, ""); (SEARCH_QUERY, ""); (CLICK, "button");
      (CLICK, "a"); (unassigned 1%nat, "") ].
Proof. vm_compute. reflexivity. Qed.

(** The sample store, exported and imported into itself after [ClearAll],
    with the reference codec. *)
Lemma ExportImport_roundtrip_witness :
  let back := ref_Import (ref_Export sample_store) (ClearAll sample_store) in
  Str.is_empty (encryption_key_ sample_store) = false
  /\ events_ (ClearAll sample_store) = []
  /\ Json.write (ref_events_list sample_store) <> ""
  /\ Json.read (Json.write (ref_events_list sample_store))
     = Some (ref_events_list sample_store)
  /\ fst back = true
  /\ map compared_fields (events_ (snd back)) = map compared_fields sample_events
  /\ map timestamp (events_ (snd back))
     = map ref_stored_timestamp (map timestamp sample_events).
Proof.
  cbv zeta.
  assert (Hkey : Str.is_empty (encryption_key_ sample_store) = false)
    by reflexivity.
  assert (Hne : Json.write (ref_events_list sample_store) <> "")
    by (vm_compute; discriminate).
  assert (Hread : Json.read (Json.write (ref_events_list sample_store))
                  = Some (ref_events_list sample_store))
    by (vm_compute; reflexivity).
  destruct (ExportImport_roundtrip Json.read Json.write
              Json.InMillisecondsFSinceUnixEpoch
              Json.FromMillisecondsSinceUnixEpoch Json.Milliseconds
              Json.Value_of_int64 (fun _ => PAGE_LOAD)
              sample_store (ClearAll sample_store)
              Hkey Hkey eq_refl Hne Hread) as (H1 & H2 & H3 & _).
  split; [exact Hkey|]. split; [reflexivity|]. split; [exact Hne|].
  split; [exact Hread|]. split; [exact H1|]. split; [exact H2 | exact H3].
Defined.

(** On the sample store the reference conversions give every timestamp back. *)
Example ExportImport_sample_events :
  events_ (snd (ref_Import (ref_Export sample_store) (ClearAll sample_store)))
  = sample_events.
Proof. vm_compute. reflexivity. Qed.

(** A record with confidence 0.75. *)
Lemma confidence_bucketing_witness :
  FindDouble "confidence" [("confidence", VDouble 0.75)] = Some 0.75%float
  /\ Signal.confidence_score
       (parse_signal sample_indet 0 [("confidence", VDouble 0.75)]) = 0.75%float
  /\ Signal.confidence (parse_signal sample_indet 0 [("confidence", VDouble 0.75)])
     = confidence_level 0.75.
Proof.
  destruct (confidence_bucketing sample_indet 0 [("confidence", VDouble 0.75)]
              0.75%float eq_refl) as (H1 & H2 & _).
  split; [reflexivity|]. split; [exact H1 | exact H2].
Defined.

(** The sample payload, whose first entry is a record, overfills a store. *)
Lemma ImportEncrypted_exceeds_capacity_witness :
  Str.is_empty import_payload = false
  /\ Json.read import_payload
     = Some (VList [VDict payload_record; VInt 7; VDict []])
  /\ exists s,
       GetEventCount s <= kMaxCachedEvents
       /\ fst (ref_Import import_payload s) = true
       /\ kMaxCachedEvents < GetEventCount (snd (ref_Import import_payload s)).
Proof.
  assert (Hread : Json.read import_payload
                  = Some (VList [VDict payload_record; VInt 7; VDict []]))
    by (vm_compute; reflexivity).
  destruct (ImportEncrypted_exceeds_capacity Json.read
              Json.FromMillisecondsSinceUnixEpoch Json.Milliseconds
              (fun _ => PAGE_LOAD)
              import_payload payload_record [VInt 7; VDict []] eq_refl Hread)
    as (_ & Hex & _).
  split; [reflexivity|]. split; [exact Hread | exact Hex].
Defined.

(** C10 does not hold as stated: a new store has no key, and its
    [Decrypt] returns a blob that starts with the prefix as it is, not the
    remainder; the import of that blob fails on the JSON reader. With a key
    the remainder is returned. *)
Lemma Decrypt_without_key_keeps_prefix :
  encryption_key_ EncryptedStore_new = ""
  /\ Str.starts_with kEncryptedPrefix "[ENCRYPTED][7]" = true
  /\ Decrypt EncryptedStore_new "[ENCRYPTED][7]" = "[ENCRYPTED][7]"
  /\ Decrypt sample_store "[ENCRYPTED][7]" = "[7]"
  /\ ref_Import "[ENCRYPTED][7]" EncryptedStore_new = (false, EncryptedStore_new)
  /\ fst (ref_Import "[ENCRYPTED][7]" sample_store) = true.
Proof. repeat split; vm_compute; reflexivity. Qed.

(** The plaintext sample payload is imported into the keyed sample store. *)
Lemma Decrypt_never_fails_witness :
  Str.is_empty import_payload = false
  /\ Json.read import_payload
     = Some (VList [VDict payload_record; VInt 7; VDict []])
  /\ Str.starts_with kEncryptedPrefix import_payload = false
  /\ ref_Import import_payload sample_store =
     (true,
      with_events
        (sample_events ++
         ref_import_items (fun _ => PAGE_LOAD) [VDict payload_record; VInt 7; VDict []])
        sample_store).
Proof.
  assert (Hread : Json.read import_payload
                  = Some (VList [VDict payload_record; VInt 7; VDict []]))
    by (vm_compute; reflexivity).
  destruct (Decrypt_never_fails Json.read Json.FromMillisecondsSinceUnixEpoch
              Json.Milliseconds (fun _ => PAGE_LOAD) sample_store import_payload)
    as (_ & _ & Himport).
  split; [reflexivity|]. split; [exact Hread|]. split; [reflexivity|].
  exact (Himport _ eq_refl Hread (or_intror eq_refl)).
Defined.

(** C6 does not hold as stated. The first query has exactly one phone-like
    substring: the phone pattern matches ["555-123-4567"] where it stands and
    nothing before or behind it. The result is not the query with only that
    substring replaced: the ZIP pattern replaces ["90210"] as well. In the
    second query the one phone match raises the markers to three, and the
    result is empty. *)
Lemma phone_match_is_not_the_only_change :
  sole_match (pii_pattern 1) "call " "555-123-4567" " zip 90210" = true
  /\ SanitizeSearchQuery ("call " ++ "555-123-4567" ++ " zip 90210")
     = "call [REDACTED] zip [REDACTED]"
  /\ SanitizeSearchQuery ("call " ++ "555-123-4567" ++ " zip 90210")
     <> "call " ++ kRedacted ++ " zip 90210"
  /\ sole_match (pii_pattern 1) "" "555-123-4567" " [REDACTED] [REDACTED]" = true
  /\ SanitizeSearchQuery ("" ++ "555-123-4567" ++ " [REDACTED] [REDACTED]") = ""
  /\ SanitizeSearchQuery ("" ++ "555-123-4567" ++ " [REDACTED] [REDACTED]")
     <> "" ++ kRedacted ++ " [REDACTED] [REDACTED]".
Proof.
  assert (H1 : SanitizeSearchQuery ("call " ++ "555-123-4567" ++ " zip 90210")
               = "call [REDACTED] zip [REDACTED]")
    by (vm_compute; reflexivity).
  assert (H2 : SanitizeSearchQuery ("" ++ "555-123-4567" ++ " [REDACTED] [REDACTED]")
               = "")
    by (vm_compute; reflexivity).
  split; [vm_compute; reflexivity|]. split; [exact H1|].
  split; [rewrite H1; discriminate|].
  split; [vm_compute; reflexivity|]. split; [exact H2|].
  rewrite H2. discriminate.
Qed.

(** The two instances of C6, through the general statements: the email
    pattern finds three matches in the first query; in the second the phone
    pattern matches the number and nothing else. *)
Lemma SanitizeSearchQuery_correct_witness :
  (3 <= email_matches "mail ann@example.com, bob@example.org or eve@mail.example.net")%nat
  /\ SanitizeSearchQuery "mail ann@example.com, bob@example.org or eve@mail.example.net"
     = ""
  /\ sole_match (pii_pattern 1) "pizza near me call " "555-123-4567" " now" = true
  /\ SanitizeSearchQuery ("pizza near me call " ++ "555-123-4567" ++ " now")
     = "pizza near me call " ++ kRedacted ++ " now".
Proof.
  destruct SanitizeSearchQuery_correct as (_ & _ & _ & Hemail & Hphone & _).
  assert (H3 : (3 <= email_matches
                  "mail ann@example.com, bob@example.org or eve@mail.example.net")%nat)
    by (apply Nat.leb_le; vm_compute; reflexivity).
  assert (Hsole : sole_match (pii_pattern 1) "pizza near me call " "555-123-4567"
                    " now" = true)
    by (vm_compute; reflexivity).
  split; [exact H3|]. split; [exact (Hemail _ H3)|]. split; [exact Hsole|].
  apply Hphone; try exact Hsole; try (vm_compute; reflexivity).
  apply Nat.leb_le. vm_compute. reflexivity.
Defined.

(** ** The placeholder model *)

(** X23. The model call the repository ships does not look at the prompt:
    with it, a ready analyzer returns and caches the same signals for every
    non-empty batch of events, those that the sample response holds and that
    pass the threshold. *)
Theorem placeholder_model_ignores_events
    (JSONReader_Read : string -> option Value)
    (StringPrintf_event : string -> float -> Z -> string -> string -> string)
    (unassigned : nat -> Indeterminate) (clock : nat -> Time)
    (events events' : list BrowsingEvent) (a : IntentAnalyzer) :
  IsReady a = true -> events <> [] -> events' <> [] ->
  AnalyzeEvents JSONReader_Read StringPrintf_event QwenClient_Infer unassigned clock
    events a
  = AnalyzeEvents JSONReader_Read StringPrintf_event QwenClient_Infer unassigned clock
      events' a
  /\ fst (AnalyzeEvents JSONReader_Read StringPrintf_event QwenClient_Infer
            unassigned clock events a)
     = List.filter
         (fun signal => (min_confidence_ a <=? Signal.confidence_score signal)%float)
         (ParseResponse JSONReader_Read unassigned clock kSampleResponse).
Proof.
  intros Hready Hne Hne'.
  assert (Hrun : forall prompt,
    RunInference QwenClient_Infer a prompt = kSampleResponse).
  { intros prompt. unfold RunInference, IsReady in *.
    destruct (model_handle_ a); [reflexivity|].
    rewrite andb_false_r in Hready. discriminate. }
  unfold AnalyzeEvents. rewrite Hready. cbn [negb].
  destruct events as [|e l]; [contradiction|].
  destruct events' as [|e' l']; [contradiction|].
  rewrite !Hrun. split; reflexivity.
Qed.

(** ** Instances of the further properties *)

Lemma AddExcludedDomain_excludes_witness :
  (exists pre, "mail.example.com" = pre ++ "." ++ Str.ToLowerASCII "Example.COM")
  /\ IsExcluded (AddExcludedDomain "Example.COM" PrivacyFilter_new)
       {| is_valid := true; host := "mail.example.com"; spec := "" |} = true.
Proof.
  assert (H : exists pre,
    "mail.example.com" = pre ++ "." ++ Str.ToLowerASCII "Example.COM")
    by (now exists "mail").
  split; [exact H|].
  exact (AddExcludedDomain_excludes "Example.COM" PrivacyFilter_new
           {| is_valid := true; host := "mail.example.com"; spec := "" |}
           (or_intror H)).
Defined.

(** A domain added to and removed from the list of a new filter. *)
Lemma RemoveExcludedDomain_shrinks_witness :
  (Str.ToLowerASCII "Example.COM" ∉ user_excluded_domains_ PrivacyFilter_new)
  /\ RemoveExcludedDomain "Example.COM"
       (AddExcludedDomain "Example.COM" PrivacyFilter_new) = PrivacyFilter_new.
Proof.
  assert (H : Str.ToLowerASCII "Example.COM" ∉ user_excluded_domains_ PrivacyFilter_new)
    by apply not_elem_of_empty.
  split; [exact H|].
  exact (proj2 (proj2 (RemoveExcludedDomain_shrinks "Example.COM" PrivacyFilter_new)) H).
Defined.

(** A key of 15 characters is rejected, the sample key of 16 is accepted. *)
Lemma Initialize_key_floor_witness :
  (fst (Initialize "0123456789abcde" plain_store) = false
   /\ snd (Initialize "0123456789abcde" plain_store) = plain_store)
  /\ (fst (Initialize sample_key plain_store) = true
      /\ encryption_key_ (snd (Initialize sample_key plain_store)) = sample_key
      /\ events_ (snd (Initialize sample_key plain_store)) = sample_events).
Proof.
  destruct (Initialize_key_floor "0123456789abcde" plain_store) as (_ & Hfail & _).
  destruct (Initialize_key_floor sample_key plain_store) as (_ & _ & Hok).
  destruct (Hok eq_refl) as (Hkey & Hev & _).
  split; split; [reflexivity | exact (Hfail eq_refl) | reflexivity |].
  split; [exact Hkey | exact Hev].
Defined.

(** Three events stored in a new store, and in the full one. *)
Lemma StoreEvents_fifo_witness :
  events_ (StoreEvents sample_events EncryptedStore_new) = sample_events
  /\ GetEventCount (StoreEvents sample_events full_store) = kMaxCachedEvents.
Proof.
  assert (Hfull : GetEventCount full_store = kMaxCachedEvents)
    by (vm_compute; reflexivity).
  destruct (StoreEvents_fifo sample_events EncryptedStore_new) as (_ & Hroom & _).
  destruct (StoreEvents_fifo sample_events full_store) as (_ & _ & _ & Hkeep).
  assert (Hle : kMaxCachedEvents <= GetEventCount full_store)
    by (rewrite Hfull; apply Z.le_refl).
  assert (Hsum : GetEventCount EncryptedStore_new
                 + Z.of_nat (List.length sample_events) <= kMaxCachedEvents)
    by (vm_compute; discriminate).
  split; [exact (Hroom Hsum) | exact (eq_trans (Hkeep Hle) Hfull)].
Defined.

(** A page that is loaded, scrolled three times and left. *)
Lemma page_unload_records_scroll_peak_witness :
  IsExcludedSite BrowsingDataCollector_new plain_url = false
  /\ pushed_back (BrowsingEvent_make PAGE_LOAD (HashUrl sample_digest plain_url) 1)
       (GetCollectedEvents BrowsingDataCollector_new)
       (GetCollectedEvents
          (OnPageLoad sample_digest 1 plain_url None BrowsingDataCollector_new))
  /\ exists peak,
       pushed_back
         {| type := PAGE_UNLOAD; url_hash := HashUrl sample_digest plain_url;
            timestamp := 9; duration := 5000000;
            scroll_depth := peak; element_type := "";
            search_query := ""; referrer_hash := "" |}
         (GetCollectedEvents
            (OnPageLoad sample_digest 1 plain_url None BrowsingDataCollector_new))
         (GetCollectedEvents
            (OnPageUnload sample_digest 9 plain_url 5000000
               (scroll_all [0.2; 0.5; 0.3]%float
                  (OnPageLoad sample_digest 1 plain_url None
                     BrowsingDataCollector_new))))
       /\ (peak = 0%float \/ In peak [0.2; 0.5; 0.3]%float)
       /\ (forall depth, In depth [0.2; 0.5; 0.3]%float -> (peak <? depth)%float = false)
       /\ (peak <? 0)%float = false.
Proof.
  assert (Hex : IsExcludedSite BrowsingDataCollector_new plain_url = false)
    by (vm_compute; reflexivity).
  destruct (page_unload_records_scroll_peak sample_digest 1 9 plain_url plain_url
              None 5000000 [0.2; 0.5; 0.3]%float BrowsingDataCollector_new
              eq_refl eq_refl Hex) as (Hload & _ & Hunload).
  split; [exact Hex|]. split; [exact Hload | exact Hunload].
Defined.

(** Hook and scroll calls on a collector that is switched off. *)
Lemma disabled_collector_is_inert_witness :
  run_calls sample_digest PAGE_LOAD
    [ (1, CallHook (CallPageUnload bank_url 5000000)); (2, CallScroll 0.4%float);
      (3, CallHook (CallClick "a#home")) ]
    (SetCollectionEnabled false BrowsingDataCollector_new)
  = SetCollectionEnabled false BrowsingDataCollector_new.
Proof.
  exact (proj1 (disabled_collector_is_inert sample_digest PAGE_LOAD
                  [ (1, CallHook (CallPageUnload bank_url 5000000));
                    (2, CallScroll 0.4%float);
                    (3, CallHook (CallClick "a#home")) ]
                  BrowsingDataCollector_new eq_refl)).
Defined.

(** A query with three email addresses is not stored. *)
Lemma OnSearchQuery_stores_sanitized_witness :
  (3 <= email_matches three_emails_query)%nat
  /\ OnSearchQuery PAGE_LOAD 1 three_emails_query BrowsingDataCollector_new
     = BrowsingDataCollector_new.
Proof.
  assert (H3 : (3 <= email_matches three_emails_query)%nat)
    by (apply Nat.leb_le; vm_compute; reflexivity).
  split; [exact H3|].
  exact (proj1 (proj2 (OnSearchQuery_stores_sanitized PAGE_LOAD 1 three_emails_query
                         BrowsingDataCollector_new)) H3).
Defined.

(** A form with a password field. *)
Lemma OnFormSubmit_veto_witness :
  In "password" ["text"; "password"]
  /\ OnFormSubmit PAGE_LOAD 1 ["text"; "password"] BrowsingDataCollector_new
     = BrowsingDataCollector_new.
Proof.
  assert (H : In "password" ["text"; "password"]) by (right; left; reflexivity).
  split; [exact H|].
  exact (proj1 (OnFormSubmit_veto PAGE_LOAD 1 ["text"; "password"]
                  BrowsingDataCollector_new) (or_introl H)).
Defined.


(** At a time ten seconds after the last sample event, a window of one
    second holds none of them; a window of eleven seconds less a quarter
    holds the last one only, behind the two that are older. *)
Lemma AnalyzeTimeWindow_cutoff_witness :
  List.Forall (fun event => timestamp event < 13344473612500000 - 1000000)
    sample_events
  /\ AnalyzeTimeWindow Json.read sample_StringPrintf_event QwenClient_Infer
       13344473612500000 (fun _ => sample_indet) (fun _ => 13344473612500000)
       sample_events 1000000 ready_analyzer
     = ([], ready_analyzer)
  /\ AnalyzeTimeWindow Json.read sample_StringPrintf_event QwenClient_Infer
       13344473612500000 (fun _ => sample_indet) (fun _ => 13344473612500000)
       sample_events 10750000 ready_analyzer
     = AnalyzeEvents Json.read sample_StringPrintf_event QwenClient_Infer
         (fun _ => sample_indet) (fun _ => 13344473612500000)
         (skipn 2 sample_events) ready_analyzer.
Proof.
  assert (H : List.Forall (fun event => timestamp event < 13344473612500000 - 1000000)
                sample_events)
    by (repeat constructor).
  assert (Hold : List.Forall
                   (fun event => timestamp event < 13344473612500000 - 10750000)
                   (firstn 2 sample_events))
    by (repeat constructor).
  assert (Hnew : List.Forall
                   (fun event => 13344473612500000 - 10750000 <= timestamp event)
                   (skipn 2 sample_events))
    by (repeat constructor; discriminate).
  split; [exact H|]. split.
  - exact (proj1 (proj2 (proj2 (proj2
             (AnalyzeTimeWindow_cutoff Json.read sample_StringPrintf_event
                QwenClient_Infer 13344473612500000 (fun _ => sample_indet)
                (fun _ => 13344473612500000) sample_events 1000000
                ready_analyzer)))) H).
  - exact (proj2 (proj2 (proj2 (proj2
             (AnalyzeTimeWindow_cutoff Json.read sample_StringPrintf_event
                QwenClient_Infer 13344473612500000 (fun _ => sample_indet)
                (fun _ => 13344473612500000) sample_events 10750000
                ready_analyzer))))
             (firstn 2 sample_events) (skipn 2 sample_events) eq_refl Hold Hnew).
Defined.

(** The store without a key, exported and imported into itself. *)
Lemma ExportImport_appends_witness :
  Json.write (ref_events_list plain_store) <> ""
  /\ Json.read (Json.write (ref_events_list plain_store))
     = Some (ref_events_list plain_store)
  /\ ref_Import (ref_Export plain_store) plain_store =
     (true,
      with_events
        (events_ plain_store ++
         map (reimported Json.InMillisecondsFSinceUnixEpoch
                Json.FromMillisecondsSinceUnixEpoch Json.Milliseconds
                Json.Value_of_int64 PAGE_LOAD)
           (events_ plain_store))
        plain_store).
Proof.
  assert (Hne : Json.write (ref_events_list plain_store) <> "")
    by (vm_compute; discriminate).
  assert (Hread : Json.read (Json.write (ref_events_list plain_store))
                  = Some (ref_events_list plain_store))
    by (vm_compute; reflexivity).
  split; [exact Hne|]. split; [exact Hread|].
  exact (proj1 (ExportImport_appends Json.read Json.write
                  Json.InMillisecondsFSinceUnixEpoch
                  Json.FromMillisecondsSinceUnixEpoch Json.Milliseconds
                  Json.Value_of_int64 PAGE_LOAD (fun _ => PAGE_LOAD)
                  (fun _ => PAGE_LOAD) plain_store plain_store
                  eq_refl Hne Hread)).
Defined.

(** The first sample event, written and read back with the reference codec. *)
Lemma DeserializeEvent_SerializeEvent_witness :
  let event := hd (BrowsingEvent_default PAGE_LOAD) sample_events in
  Json.read (SerializeEvent Json.write Json.InMillisecondsFSinceUnixEpoch event)
  = Some (VDict (serialized_dict Json.InMillisecondsFSinceUnixEpoch event))
  /\ DeserializeEvent Json.read PAGE_LOAD
       (SerializeEvent Json.write Json.InMillisecondsFSinceUnixEpoch event)
     = BrowsingEvent_make PAGE_UNLOAD "da39a3ee5e6b4b0d3255bfef95601890afd80709" 0.
Proof.
  cbv zeta.
  assert (Hread :
    Json.read (SerializeEvent Json.write Json.InMillisecondsFSinceUnixEpoch
                 (hd (BrowsingEvent_default PAGE_LOAD) sample_events))
    = Some (VDict (serialized_dict Json.InMillisecondsFSinceUnixEpoch
                     (hd (BrowsingEvent_default PAGE_LOAD) sample_events))))
    by (vm_compute; reflexivity).
  split; [exact Hread|].
  exact (proj1 (DeserializeEvent_SerializeEvent Json.read Json.write
                  Json.InMillisecondsFSinceUnixEpoch PAGE_LOAD _ Hread)).
Defined.

(** Two batches given to the ready analyzer. *)
Lemma placeholder_model_ignores_events_witness :
  AnalyzeEvents Json.read sample_StringPrintf_event QwenClient_Infer
    (fun _ => sample_indet) (fun _ => 0) sample_events ready_analyzer
  = AnalyzeEvents Json.read sample_StringPrintf_event QwenClient_Infer
      (fun _ => sample_indet) (fun _ => 0)
      [BrowsingEvent_make PAGE_LOAD "" 0] ready_analyzer.
Proof.
  assert (H1 : sample_events <> []) by discriminate.
  assert (H2 : [BrowsingEvent_make PAGE_LOAD "" 0] <> []) by discriminate.
  exact (proj1 (placeholder_model_ignores_events Json.read sample_StringPrintf_event
                  (fun _ => sample_indet) (fun _ => 0) sample_events
                  [BrowsingEvent_make PAGE_LOAD "" 0] ready_analyzer eq_refl H1 H2)).
Defined.

(** The analyzer with a cached signal, and a model that answers with a text
    that is no JSON. *)
Lemma AnalyzeEvents_unparsable_clears_cache_witness :
  Json.read "no json" = None
  /\ GetLatestIntents cached_analyzer <> []
  /\ AnalyzeEvents Json.read sample_StringPrintf_event (fun _ _ => "no json")
       (fun _ => sample_indet) (fun _ => 0) sample_events cached_analyzer
     = ([], ClearIntents cached_analyzer).
Proof.
  assert (Hread : Json.read "no json" = None) by (vm_compute; reflexivity).
  assert (Hne : sample_events <> []) by discriminate.
  assert (Hbad : forall items,
    Json.read (RunInference (fun _ _ => "no json") cached_analyzer
                 (BuildPrompt sample_StringPrintf_event sample_events))
    <> Some (VList items)).
  { intros items H.
    change (Json.read "no json" = Some (VList items)) in H.
    rewrite Hread in H. discriminate H. }
  split; [exact Hread|]. split; [discriminate|].
  exact (proj1 (AnalyzeEvents_unparsable_clears_cache Json.read
                  sample_StringPrintf_event (fun _ _ => "no json")
                  (fun _ => sample_indet) (fun _ => 0)
                  sample_events cached_analyzer eq_refl Hne Hbad)).
Defined.

(** A record with the type number 7 is imported as the kind of that number. *)
Lemma import_keeps_any_type_number_witness :
  FindInt "type" [("type", VInt 7)] = Some 7
  /\ static_cast_int
       (type (import_dict Json.FromMillisecondsSinceUnixEpoch Json.Milliseconds
                PAGE_LOAD [("type", VInt 7)])) = 7.
Proof.
  split; [reflexivity|].
  exact (proj1 (import_keeps_any_type_number
                  Json.InMillisecondsFSinceUnixEpoch
                  Json.FromMillisecondsSinceUnixEpoch Json.Milliseconds
                  Json.Value_of_int64 PAGE_LOAD [("type", VInt 7)] 7 eq_refl)).
Defined.
